(** * Sirat-e-Mustaqeem database converters: a shallow embedding

    The Python scripts of the repository are embedded as Rocq functions,
    one module for each script or group of scripts:
    - [PyStr]: Python [str] values as sequences of Unicode code points,
      with the string methods the scripts call;
    - [Main]: the structural tables and classifiers of
      [QuranDatabaseConverter] in main.py;
    - [DbManager]: the same steps as [create_siratemustaqeem_db] of
      db_manager.py writes them;
    - [Converter]: parsing and the verse insert loop of main.py;
    - [Extractor]: the text stored by extractor.py;
    - [Tafsir]: [clean_text] and the transfer loop of
      Quran_with_tafseer/clean_and_merrage_with_quran.py;
    - [Positions]: the insert loops of database_manage.py and of
      ayahs_positions/mrg_with_base_db.py.
    - [Run], [DbRows], [ExtractorRows]: the run of main.py and the
      insert loops of db_manager.py and extractor.py.
    [Structure], [Quoting], [Content], [Normal] and [Normalization] hold
    the notions the properties are stated with.

    Python integers are unbounded, hence [Z]; [//] on a positive divisor is
    [Z.div]. A table with a primary key is a finite map from the key to the
    other columns; [INSERT OR REPLACE] is the insertion into the map and a
    plain [INSERT] raises when the key is present. The values of an
    [execute] are bound before the statement runs: an integer outside the
    signed 64-bit range raises [OverflowError], a text with a surrogate
    code point [UnicodeEncodeError]; a NULL in a [NOT NULL] column raises
    [IntegrityError], and a NULL integer primary key stands for a new row
    id. *)

From Stdlib Require Import ZArith List Bool Lia String Ascii DecimalString Sorted.
From Stdlib Require DecimalZ DecimalPos.
From stdpp Require Import base option list gmap.
Import ListNotations.
Local Open Scope Z_scope.

(** ** Python strings *)

Module PyStr.

(** A [str] is a sequence of code points. *)
Abbreviation str := (list N).

(** An ASCII literal, as the code points of its characters. *)
Definition lit (s : string) : str := map N_of_ascii (list_ascii_of_string s).

(** [str.isspace] on one character, which is also what [\s] matches in a
    [str] pattern and what [str.strip()] removes: the code points CPython
    lists as whitespace. *)
Definition isspace (c : N) : bool :=
  ((9 <=? c) && (c <=? 13) || (28 <=? c) && (c <=? 32)
   || (c =? 133) || (c =? 160) || (c =? 5760)
   || (8192 <=? c) && (c <=? 8202)
   || (c =? 8232) || (c =? 8233) || (c =? 8239) || (c =? 8287)
   || (c =? 12288))%N.

Fixpoint lstrip (s : str) : str :=
  match s with
  | c :: s' => if isspace c then lstrip s' else s
  | [] => []
  end.

Definition rstrip (s : str) : str := rev (lstrip (rev s)).

(** [s.strip()] *)
Definition strip (s : str) : str := rstrip (lstrip s).

Fixpoint starts_with (p s : str) : bool :=
  match p, s with
  | [], _ => true
  | a :: p', b :: s' => (a =? b)%N && starts_with p' s'
  | _ :: _, [] => false
  end.

(** [s.replace(old, new)] for a non-empty [old]: occurrences are found
    from the left and do not overlap. [skip] counts the characters of an
    occurrence that are still to be passed over. *)
Fixpoint replace_from (old new : str) (skip : nat) (s : str) : str :=
  match s with
  | [] => []
  | c :: s' =>
      match skip with
      | S k => replace_from old new k s'
      | O =>
          if starts_with old s
          then new ++ replace_from old new (length old - 1) s'
          else c :: replace_from old new 0 s'
      end
  end.

Definition replace (old new s : str) : str := replace_from old new 0 s.

(** [str(n)] for an [int], as in an f-string field [{n}]. *)
Definition str_of_int (n : Z) : str := lit (NilZero.string_of_int (Z.to_int n)).

Definition digit (c : N) : option Z :=
  if ((48 <=? c) && (c <=? 57))%N then Some (Z.of_N c - 48) else None.

(** Digits with single underscores between them, read in base ten. *)
Fixpoint digits_from (acc : Z) (after_digit : bool) (s : str) : option Z :=
  match s with
  | [] => if after_digit then Some acc else None
  | c :: s' =>
      match digit c with
      | Some d => digits_from (10 * acc + d) true s'
      | None =>
          if (c =? 95)%N && after_digit then digits_from acc false s' else None
      end
  end.

(** [int(s)] on a string of ASCII characters: whitespace around, a
    sign, then the digits; [None] is [ValueError]. The converters take
    [int] as a parameter, and this is the instance the examples run. *)
Definition int_of_str (s : str) : option Z :=
  match strip s with
  | c :: s' =>
      if (c =? 43)%N then digits_from 0 false s'
      else if (c =? 45)%N then Z.opp <$> digits_from 0 false s'
      else digits_from 0 false (c :: s')
  | [] => None
  end.

(** Truth value of a string: [if s:] *)
Definition truthy (s : str) : bool :=
  match s with [] => false | _ :: _ => true end.

End PyStr.

(** ** main.py: QuranDatabaseConverter *)

Module Main.
Import PyStr.

(** [load_surah_metadata]: the [(id, ayats)] columns of the 114 rows. *)
Definition surah_ayats : list (Z * Z) :=
  [(1, 7); (2, 286); (3, 200); (4, 176); (5, 120); (6, 165); (7, 206); (8, 75);
   (9, 129); (10, 109); (11, 123); (12, 111); (13, 43); (14, 52); (15, 99);
   (16, 128); (17, 111); (18, 110); (19, 98); (20, 135); (21, 112); (22, 78);
   (23, 118); (24, 64); (25, 77); (26, 227); (27, 93); (28, 88); (29, 69);
   (30, 60); (31, 34); (32, 30); (33, 73); (34, 54); (35, 45); (36, 83);
   (37, 182); (38, 88); (39, 75); (40, 85); (41, 54); (42, 53); (43, 89);
   (44, 59); (45, 37); (46, 35); (47, 38); (48, 29); (49, 18); (50, 45);
   (51, 60); (52, 49); (53, 62); (54, 55); (55, 78); (56, 96); (57, 29);
   (58, 22); (59, 24); (60, 13); (61, 14); (62, 11); (63, 11); (64, 18);
   (65, 12); (66, 12); (67, 30); (68, 52); (69, 52); (70, 44); (71, 28);
   (72, 28); (73, 20); (74, 56); (75, 40); (76, 31); (77, 50); (78, 40);
   (79, 46); (80, 42); (81, 29); (82, 19); (83, 36); (84, 25); (85, 22);
   (86, 17); (87, 19); (88, 26); (89, 30); (90, 20); (91, 15); (92, 21);
   (93, 11); (94, 8); (95, 8); (96, 19); (97, 5); (98, 8); (99, 8);
   (100, 11); (101, 11); (102, 8); (103, 3); (104, 9); (105, 5); (106, 4);
   (107, 7); (108, 3); (109, 6); (110, 3); (111, 5); (112, 4); (113, 5);
   (114, 6)].

(** A [(s_start, v_start, s_end, v_end)] tuple of [get_juz_boundaries]. *)
Definition boundary : Type := Z * Z * Z * Z.

Definition get_juz_boundaries : list boundary :=
  [(1, 1, 2, 141); (2, 142, 2, 252); (2, 253, 3, 92); (3, 93, 4, 23);
   (4, 24, 4, 147); (4, 148, 5, 81); (5, 82, 6, 110); (6, 111, 7, 87);
   (7, 88, 8, 40); (8, 41, 9, 92); (9, 93, 11, 5); (11, 6, 12, 52);
   (12, 53, 14, 52); (15, 1, 16, 128); (17, 1, 18, 74); (18, 75, 20, 135);
   (21, 1, 22, 78); (23, 1, 25, 20); (25, 21, 27, 55); (27, 56, 29, 45);
   (29, 46, 33, 30); (33, 31, 36, 27); (36, 28, 39, 31); (39, 32, 41, 46);
   (41, 47, 45, 37); (46, 1, 51, 30); (51, 31, 57, 29); (58, 1, 66, 12);
   (67, 1, 77, 50); (78, 1, 114, 6)].

(** The body of the [for] loop of [get_juz_for_verse]: [true] when one
    of its [return juz_no] is reached for this boundary. When the first
    [if] holds and neither inner branch does, nothing is returned and the
    [elif]s are not tried. *)
Definition juz_returns (surah ayah : Z) (b : boundary) : bool :=
  let '(s_start, v_start, s_end, v_end) := b in
  if (surah =? s_start) && (ayah >=? v_start) then
    if (surah =? s_end) && (ayah <=? v_end) then true
    else if surah <? s_end then true
    else false
  else if (surah >? s_start) && (surah <? s_end) then true
  else if (surah =? s_end) && (ayah <=? v_end) then true
  else false.

(** [for juz_no, b in enumerate(boundaries, juz_no)] *)
Fixpoint juz_loop (surah ayah juz_no : Z) (bs : list boundary) : option Z :=
  match bs with
  | [] => None
  | b :: bs' =>
      if juz_returns surah ayah b then Some juz_no
      else juz_loop surah ayah (juz_no + 1) bs'
  end.

Definition get_juz_for_verse (surah ayah : Z) : Z :=
  match juz_loop surah ayah 1 get_juz_boundaries with
  | Some juz_no => juz_no
  | None => 1 (* Default to juz 1 *)
  end.

Definition get_sajda_verses : list (Z * Z) :=
  [(7, 206); (13, 15); (16, 50); (17, 109); (19, 58);
   (22, 18); (22, 77); (25, 60); (27, 26); (32, 15);
   (38, 24); (41, 38); (53, 62); (84, 21); (96, 19)].

(** [(surah, ayah) in sajda_verses] *)
Definition pair_in (p : Z * Z) (l : list (Z * Z)) : bool :=
  existsb (fun q => (fst p =? fst q) && (snd p =? snd q)) l.

Definition ruku_boundaries : list Z :=
  [1; 26; 44; 60; 75; 92; 106; 124; 142; 158;
   177; 189; 204; 219; 235; 249; 260; 274; 286].

(** [for i, boundary in enumerate(ruku_boundaries, i)] with its
    [return i + 1]. *)
Fixpoint ruku_loop (ayah i : Z) (bs : list Z) : option Z :=
  match bs with
  | [] => None
  | boundary :: bs' =>
      if ayah <=? boundary then Some (i + 1) else ruku_loop ayah (i + 1) bs'
  end.

Definition calculate_ruku (surah ayah : Z) : Z :=
  if surah =? 1 then 1
  else if surah =? 2 then
    match ruku_loop ayah 0 ruku_boundaries with
    | Some r => r
    | None => 40
    end
  else (ayah - 1) `div` 10 + 1.

Definition get_manzil (para_id : Z) : Z :=
  if para_id <=? 4 then 1
  else if para_id <=? 8 then 2
  else if para_id <=? 12 then 3
  else if para_id <=? 16 then 4
  else if para_id <=? 20 then 5
  else if para_id <=? 24 then 6
  else 7.

End Main.

(** ** db_manager.py: create_siratemustaqeem_db *)

Module DbManager.

(** [(j, s_start, v_start, s_end, v_end)] *)
Definition juz_boundaries : list (Z * Z * Z * Z * Z) :=
  [(1, 1, 1, 2, 141); (2, 2, 142, 2, 252); (3, 2, 253, 3, 92);
   (4, 3, 93, 4, 23); (5, 4, 24, 4, 147); (6, 4, 148, 5, 81);
   (7, 5, 82, 6, 110); (8, 6, 111, 7, 87); (9, 7, 88, 8, 40);
   (10, 8, 41, 9, 92); (11, 9, 93, 11, 5); (12, 11, 6, 12, 52);
   (13, 12, 53, 14, 52); (14, 15, 1, 16, 128); (15, 17, 1, 18, 74);
   (16, 18, 75, 20, 135); (17, 21, 1, 22, 78); (18, 23, 1, 25, 20);
   (19, 25, 21, 27, 55); (20, 27, 56, 29, 45); (21, 29, 46, 33, 30);
   (22, 33, 31, 36, 27); (23, 36, 28, 39, 31); (24, 39, 32, 41, 46);
   (25, 41, 47, 45, 37); (26, 46, 1, 51, 30); (27, 51, 31, 57, 29);
   (28, 58, 1, 66, 12); (29, 67, 1, 77, 50); (30, 78, 1, 114, 6)].

(** The juz loop: [juz] keeps its initial value 1 unless a branch
    assigns it and breaks. *)
Fixpoint juz_loop (sura aya : Z) (bs : list (Z * Z * Z * Z * Z)) : option Z :=
  match bs with
  | [] => None
  | (j, s_start, v_start, s_end, v_end) :: bs' =>
      if (sura =? s_start) && (aya >=? v_start) then Some j
      else if (sura >? s_start) && (sura <? s_end) then Some j
      else if (sura =? s_end) && (aya <=? v_end) then Some j
      else juz_loop sura aya bs'
  end.

Definition juz (sura aya : Z) : Z :=
  match juz_loop sura aya juz_boundaries with
  | Some j => j
  | None => 1
  end.

(** [arabic_text.replace("''", "'")] *)
Definition arabic_text (text : PyStr.str) : PyStr.str :=
  PyStr.replace (PyStr.lit "''") (PyStr.lit "'") text.

(** [surah_ruku = (aya - 1) // 10 + 1], for every sura. *)
Definition surah_ruku (sura aya : Z) : Z := (aya - 1) `div` 10 + 1.

(** The [manzilNo] argument of the insert, [(juz - 1) // 4 + 1]. *)
Definition manzilNo (juz : Z) : Z := (juz - 1) `div` 4 + 1.

End DbManager.

(** ** The structural tables as the specification words them *)

Module Structure.
Import Main.

(** A valid pair: a chapter of the 114-row table and a verse number from
    1 to that chapter's verse count. *)
Definition valid_verse (surah ayah : Z) : Prop :=
  exists n, In (surah, n) surah_ayats /\ 1 <= ayah <= n.

(** Every valid pair, chapter by chapter. *)
Definition all_verses : list (Z * Z) :=
  flat_map (fun '(s, n) => map (fun v => (s, v)) (seqZ 1 n)) surah_ayats.

(** [(s1, v1) <= (s2, v2)] in reading order. *)
Definition verse_le (a b : Z * Z) : bool :=
  (fst a <? fst b) || ((fst a =? fst b) && (snd a <=? snd b)).

(** The verse lies in the boundary's interval, both ends included. *)
Definition in_interval (surah ayah : Z) (b : boundary) : bool :=
  let '(s_start, v_start, s_end, v_end) := b in
  verse_le (s_start, v_start) (surah, ayah) && verse_le (surah, ayah) (s_end, v_end).

(** Number of the first interval, counted from [n], that contains the
    verse. *)
Fixpoint first_interval_from (surah ayah n : Z) (bs : list boundary) : option Z :=
  match bs with
  | [] => None
  | b :: bs' =>
      if in_interval surah ayah b then Some n
      else first_interval_from surah ayah (n + 1) bs'
  end.

Definition first_interval (surah ayah : Z) : option Z :=
  first_interval_from surah ayah 1 get_juz_boundaries.

(** How many cutoffs come before the first one that is [>= ayah]. *)
Fixpoint cutoffs_before (ayah : Z) (table : list Z) : Z :=
  match table with
  | [] => 0
  | b :: table' => if ayah <=? b then 0 else 1 + cutoffs_before ayah table'
  end.

(** The 1-based index of the first cutoff that is [>= ayah], capped at
    the table length. *)
Definition cutoff_index (ayah : Z) (table : list Z) : Z :=
  Z.min (cutoffs_before ayah table + 1) (Z.of_nat (length table)).

(** The subsection rule: a cutoff table for chapters 1 and 2, the
    generic rule elsewhere. Chapter 1 has a single cutoff, its last
    verse; the code keeps no list for it and returns 1. *)
Definition subsection (surah ayah : Z) : Z :=
  if surah =? 1 then cutoff_index ayah [7]
  else if surah =? 2 then cutoff_index ayah ruku_boundaries
  else (ayah - 1) `div` 10 + 1.

(** The seven buckets over the parts: 1-4, 5-8, 9-12, 13-16, 17-20,
    21-24 and 25-30. *)
Definition grouping (part : Z) : Z :=
  if part <=? 4 then 1 else if part <=? 8 then 2 else if part <=? 12 then 3
  else if part <=? 16 then 4 else if part <=? 20 then 5
  else if part <=? 24 then 6 else 7.

End Structure.

(** ** main.py: parsing and the verse insert loop *)

Module Converter.
Import PyStr Main.

(** An entry of [self.arabic_verses]. *)
Record verse : Type := Verse {
  v_id : Z;
  v_surah : Z;
  v_ayah : Z;
  v_arabic : str
}.

(** A row of the [quran] table, column by column. *)
Record quran_row : Type := QuranRow {
  ayatId : Z;
  ayatNumber : Z;
  arabicText : str;
  urduTranslation : str;
  ayatSajda : Z;
  surahRuku : Z;
  paraRuku : Z;
  paraId : Z;
  manzilNo : Z;
  ayatVisible : Z;
  surahId : Z;
  withoutAerab : str;
  favourite : Z
}.

(** What the script prints about a parse: the number of matches found,
    the number of verses kept, and whether the 6236 warning is shown. *)
Record parse_report : Type := ParseReport {
  found : Z;
  processed : Z;
  count_warning : bool
}.

(** The exceptions that end a run: [IntegrityError] for a constraint of
    the table, [KeyError] for a subscript on an absent key, and the errors
    of [execute] on a value that cannot be bound or a row id that cannot be
    found. *)
Inductive exn : Type :=
| IntegrityError
| KeyError
| OverflowError
| UnicodeEncodeError
| OperationalError.

Inductive result (A : Type) : Type :=
| Ok (a : A)
| Raise (e : exn).
Arguments Ok {A} a.
Arguments Raise {A} e.

Definition bind {A B : Type} (r : result A) (k : A -> result B) : result B :=
  match r with
  | Ok a => k a
  | Raise e => Raise e
  end.

(** A [for] loop whose body may raise: the exception ends the loop. *)
Fixpoint for_each {S X : Type} (body : S -> X -> result S) (st : S) (l : list X)
  : result S :=
  match l with
  | [] => Ok st
  | x :: l' => bind (body st x) (fun st' => for_each body st' l')
  end.

(** [(x['surah'], x['ayah'])] compared as Python compares tuples. *)
Definition key_le (a b : verse) : bool :=
  (v_surah a <? v_surah b)
  || ((v_surah a =? v_surah b) && (v_ayah a <=? v_ayah b)).

Fixpoint insert_sorted (x : verse) (l : list verse) : list verse :=
  match l with
  | [] => [x]
  | y :: l' => if key_le x y then x :: l else y :: insert_sorted x l'
  end.

(** [list.sort(key=...)]: stable, so an element stays before the later
    elements of equal key. *)
Fixpoint sort_verses (l : list verse) : list verse :=
  match l with
  | [] => []
  | x :: l' => insert_sorted x (sort_verses l')
  end.

(** [s.split(sep)] for a one-character separator. *)
Fixpoint split_char (sep : N) (s : str) : list str :=
  match s with
  | [] => [[]]
  | c :: s' =>
      if (c =? sep)%N then [] :: split_char sep s'
      else match split_char sep s' with
           | p :: ps => (c :: p) :: ps
           | [] => [[c]]
           end
  end.

(** [f"{surah}:{ayah}"] *)
Definition verse_key (surah ayah : Z) : str :=
  str_of_int surah ++ lit ":" ++ str_of_int ayah.

(** The default of [self.urdu_translations.get]: an Urdu sentence with
    the surah and the ayah number formatted into it. *)
Definition placeholder (surah ayah : Z) : str :=
  [1587; 1608; 1585; 1729; 32]%N ++ str_of_int surah
  ++ [32; 1705; 1740; 32; 1570; 1740; 1578; 32]%N ++ str_of_int ayah
  ++ [32; 1705; 1575; 32; 1578; 1585; 1580; 1605; 1729; 32; 1740; 1729;
      1575; 1722; 32; 1583; 1585; 1580; 32; 1705; 1740; 1575; 32; 1580;
      1575; 1574; 1746; 32; 1711; 1575; 1748]%N.

Section WithInt.

(** [int(s)] of a string: [None] stands for [ValueError]. *)
Variable py_int : str -> option Z.

(** The body of the loop that fills [self.arabic_verses]: a tuple
    whose [int] conversions raise [ValueError] is passed over. *)
Definition store_verse (m : str * str * str * str) : option verse :=
  let '(idx, sura, aya, text) := m in
  match py_int idx, py_int sura, py_int aya with
  | Some i, Some s, Some a =>
      Some (Verse i s a (strip (replace (lit "''") (lit "'") text)))
  | _, _, _ => None
  end.

(** [parse_arabic_sql] from the point where [matches] is known:
    [None] is its [return False]. *)
Definition parse_arabic_sql (matches : list (str * str * str * str))
  : option (list verse * parse_report) :=
  match matches with
  | [] => None
  | _ :: _ =>
      let arabic_verses := sort_verses (omap store_verse matches) in
      Some (arabic_verses,
            ParseReport (Z.of_nat (length matches))
                        (Z.of_nat (length arabic_verses))
                        (negb (Z.of_nat (length arabic_verses) =? 6236)))
  end.

(** One line of a translation file, as [parse_urdu_translation] and
    [parse_arabic_simple] read it. *)
Definition parse_line (d : gmap (list N) (list N)) (line : str)
  : gmap (list N) (list N) :=
  if existsb (fun c => (c =? 124)%N) line then
    match split_char 124 (strip line) with
    | p0 :: p1 :: text :: _ =>
        match py_int p0, py_int p1 with
        | Some sura, Some aya => <[verse_key sura aya := text]> d
        | _, _ => d
        end
    | _ => d
    end
  else d.

Definition parse_lines (lines : list str) : gmap (list N) (list N) :=
  foldl parse_line ∅ lines.

End WithInt.

Definition ayat_id (v : verse) : Z :=
  if v_id v >? 0 then v_id v else v_surah v * 1000 + v_ayah v.

(** The tuple inserted for one verse. *)
Definition make_row (urdu_translations arabic_simple : gmap (list N) (list N))
    (v : verse) : quran_row :=
  let surah := v_surah v in
  let ayah := v_ayah v in
  let arabic_text := v_arabic v in
  let urdu_text :=
    default (placeholder surah ayah) (urdu_translations !! verse_key surah ayah) in
  let without_aerab := default arabic_text (arabic_simple !! verse_key surah ayah) in
  let para_id := get_juz_for_verse surah ayah in
  let has_sajda := if pair_in (surah, ayah) get_sajda_verses then 1 else 0 in
  let surah_ruku := calculate_ruku surah ayah in
  let manzil_no := get_manzil para_id in
  QuranRow (ayat_id v) ayah arabic_text urdu_text has_sajda surah_ruku surah_ruku
           para_id manzil_no 1 surah without_aerab 0.

(** What [execute] binds as an [INTEGER]: a Python [int] outside the
    signed 64-bit range raises [OverflowError]. *)
Definition in_int64 (z : Z) : bool :=
  (-9223372036854775808 <=? z) && (z <=? 9223372036854775807).

(** The integers of the inserted tuple, in the order of the columns. *)
Definition row_ints (r : quran_row) : list Z :=
  [ayatId r; ayatNumber r; ayatSajda r; surahRuku r; paraRuku r; paraId r;
   manzilNo r; ayatVisible r; surahId r; favourite r].

(** [INSERT INTO quran VALUES (...)]: the values are bound first, then
    [ayatId] is the primary key, and a second row with a key already
    present raises. *)
Definition insert_quran (table : gmap Z quran_row) (r : quran_row)
  : result (gmap Z quran_row) :=
  if forallb in_int64 (row_ints r) then
    match table !! ayatId r with
    | Some _ => Raise IntegrityError
    | None => Ok (<[ayatId r := r]> table)
    end
  else Raise OverflowError.

(** The verse loop of [create_sqlite_database], with its [inserted]
    counter. *)
Fixpoint insert_verses (urdu_translations arabic_simple : gmap (list N) (list N))
    (verses : list verse) (table : gmap Z quran_row) (inserted : Z)
  : result (gmap Z quran_row * Z) :=
  match verses with
  | [] => Ok (table, inserted)
  | v :: verses' =>
      bind (insert_quran table (make_row urdu_translations arabic_simple v))
           (fun table' =>
              insert_verses urdu_translations arabic_simple verses' table'
                            (inserted + 1))
  end.

(** The table is created empty: the output file is removed first. *)
Definition create_quran_table (urdu_translations arabic_simple : gmap (list N) (list N))
    (arabic_verses : list verse) : result (gmap Z quran_row * Z) :=
  insert_verses urdu_translations arabic_simple arabic_verses ∅ 0.

End Converter.

(** ** extractor.py: the text of an inserted row *)

Module Extractor.
Import PyStr.

(** [text.replace("''", "'")], the [arabicText] argument. *)
Definition arabicText (text : str) : str := replace (lit "''") (lit "'") text.

End Extractor.

(** ** Quran_with_tafseer/clean_and_merrage_with_quran.py *)

Module Tafsir.
Import PyStr.

(** [re.sub(pattern, repl, s)] for a pattern that never matches the
    empty string. [m s] is the length of the match that starts at the
    head of [s], if there is one; the scan goes from the left, a match is
    replaced by [repl] and the scan resumes after it. [skip] counts the
    characters of the current match still to be passed over. *)
Fixpoint re_sub_from (m : str -> option nat) (repl : str) (skip : nat) (s : str) : str :=
  match s with
  | [] => []
  | c :: s' =>
      match skip with
      | S k => re_sub_from m repl k s'
      | O =>
          match m s with
          | Some (S n) => repl ++ re_sub_from m repl n s'
          | _ => c :: re_sub_from m repl 0 s'
          end
      end
  end.

Definition re_sub (m : str -> option nat) (repl s : str) : str :=
  re_sub_from m repl 0 s.

(** Length of the longest prefix whose characters all satisfy [p]: what
    a greedy [p*] first takes. *)
Fixpoint run (p : N -> bool) (s : str) : nat :=
  match s with
  | c :: s' => if p c then S (run p s') else O
  | [] => O
  end.

Definition is_lt (c : N) : bool := (c =? 60)%N.     (* < *)
Definition is_gt (c : N) : bool := (c =? 62)%N.     (* > *)
Definition not_gt (c : N) : bool := negb (is_gt c).  (* [^>] *)
Definition is_slash (c : N) : bool := (c =? 47)%N.  (* / *)
Definition is_nl (c : N) : bool := (c =? 10)%N.     (* \n *)
Definition is_b (c : N) : bool := ((c =? 98) || (c =? 66))%N.   (* b, B *)
Definition is_r (c : N) : bool := ((c =? 114) || (c =? 82))%N.  (* r, R *)
Definition is_hspace (c : N) : bool := ((c =? 32) || (c =? 9))%N. (* [ \t] *)

(** [<br\s*/?>] with [re.IGNORECASE]. After the longest run of
    whitespace the next character is not whitespace, so a shorter run
    cannot match either. *)
Definition m_br (s : str) : option nat :=
  match s with
  | c0 :: c1 :: c2 :: s1 =>
      if is_lt c0 && is_b c1 && is_r c2 then
        let k := run isspace s1 in
        match drop k s1 with
        | d0 :: rest =>
            if is_gt d0 then Some (3 + k + 1)%nat
            else if is_slash d0 then
              match rest with
              | d1 :: _ => if is_gt d1 then Some (3 + k + 2)%nat else None
              | [] => None
              end
            else None
        | [] => None
        end
      else None
  | _ => None
  end.

(** [<[^>]+>]: the characters up to the next [>], at least one. *)
Definition m_tag (s : str) : option nat :=
  match s with
  | c0 :: s1 =>
      if is_lt c0 then
        let k := run not_gt s1 in
        match k, drop k s1 with
        | S _, _ :: _ => Some (1 + k + 1)%nat
        | _, _ => None
        end
      else None
  | [] => None
  end.

(** Position after the last newline of [s], if it has one. *)
Fixpoint after_last_nl (s : str) : option nat :=
  match s with
  | [] => None
  | c :: s' =>
      match after_last_nl s' with
      | Some j => Some (S j)
      | None => if is_nl c then Some 1%nat else None
      end
  end.

(** [\n\s*\n]: the greedy [\s*] gives characters back until a newline
    follows, so the match ends at the last newline of the whitespace run
    that follows the first one. *)
Definition m_blank (s : str) : option nat :=
  match s with
  | c0 :: s1 =>
      if is_nl c0 then
        match after_last_nl (take (run isspace s1) s1) with
        | Some j => Some (1 + j)%nat
        | None => None
        end
      else None
  | [] => None
  end.

(** [[ \t]+] *)
Definition m_hspace (s : str) : option nat :=
  match run is_hspace s with
  | O => None
  | S k => Some (S k)
  end.

Definition clean_text (text : str) : str :=
  if truthy text then
    let text1 := re_sub m_br [10%N] text in
    let text2 := re_sub m_tag [] text1 in
    let text3 := re_sub m_blank [10%N; 10%N] text2 in
    let text4 := re_sub m_hspace [32%N] text3 in
    strip text4
  else [].

(** A row of the old database: [SURA_num], [AYA_num] and a [Tafsir]
    column that may be NULL. *)
Definition aq_row : Type := Z * Z * option (list N).

(** [row[2] if row[2] else ""] *)
Definition raw_text (tafsir_col : option (list N)) : str :=
  match tafsir_col with
  | Some t => if truthy t then t else []
  | None => []
  end.

(** The body of the transfer loop: [INSERT OR REPLACE] on the primary
    key [(surah_id, ayah_number)], with the [cleaned_count] counter. *)
Definition transfer_row (st : gmap (Z * Z) (list N) * Z) (row : aq_row)
  : gmap (Z * Z) (list N) * Z :=
  let '(tafsir, cleaned_count) := st in
  let '(sura, aya, tafsir_col) := row in
  let cleaned := clean_text (raw_text tafsir_col) in
  if truthy cleaned then (<[(sura, aya) := cleaned]> tafsir, cleaned_count + 1)
  else (tafsir, cleaned_count).

Definition transfer (tafsir : gmap (Z * Z) (list N)) (rows : list aq_row)
  : gmap (Z * Z) (list N) * Z :=
  foldl transfer_row (tafsir, 0) rows.

End Tafsir.

(** ** The position sources: database_manage.py and
       ayahs_positions/mrg_with_base_db.py *)

Module Positions.
Import PyStr Converter.

(** A key of a decoded JSON object: absent, present with [null], or
    present with a value. *)
Inductive field (A : Type) : Type :=
| Absent
| Null
| Val (a : A).
Arguments Absent {A}.
Arguments Null {A}.
Arguments Val {A} a.

(** [key in entry] *)
Definition has {A : Type} (f : field A) : bool :=
  match f with
  | Absent => false
  | _ => true
  end.

(** [entry.get(key)], and [entry[key]] when the key is there: [None]
    for [null]. *)
Definition get {A : Type} (f : field A) : option A :=
  match f with
  | Val a => Some a
  | _ => None
  end.

(** [entry.get(key, d)]: the default stands in for an absent key only. *)
Definition get_default {A : Type} (f : field A) (d : A) : option A :=
  match f with
  | Absent => Some d
  | Null => None
  | Val a => Some a
  end.

(** What [execute] binds as text: a string with a surrogate code point
    cannot be encoded and raises [UnicodeEncodeError]. *)
Definition encodable (s : str) : bool :=
  forallb (fun c => negb ((55296 <=? c) && (c <=? 57343))%N) s.

(** A bound value: [None] is bound as NULL. *)
Definition int_ok (o : option Z) : bool :=
  match o with
  | Some z => in_int64 z
  | None => true
  end.

Definition text_ok (o : option str) : bool :=
  match o with
  | Some t => encodable t
  | None => true
  end.

(** The largest rowid of a table, if it has a row. *)
Definition max_rowid {V : Type} (t : gmap Z V) : option Z :=
  foldr (fun k acc => Some (match acc with
                            | Some m => Z.max k m
                            | None => k
                            end))
        None (map_to_list t).*1.

Section WithJson.

(** The decoded value of a ["segs"] field and [json.dumps] of it. *)
Variable J : Type.
Variable json_dumps : J -> str.

(** A decoded object of an ayahs file. The values of the keys are of
    the JSON types of the columns, integers and a string, or [null]. *)
Record ayah_entry : Type := AyahEntry {
  k_aya_id : field Z;
  k_sura_id : field Z;
  k_type : field Z;
  k_text : field str;
  k_id : field Z
}.

(** A decoded object of a pages file. *)
Record page_entry : Type := PageEntry {
  pk_aya_id : field Z;
  pk_sura_id : field Z;
  p_segs : option J
}.

(** [entry.get("aya_id")] and [entry.get("sura_id")] *)
Definition e_aya_id (entry : ayah_entry) : option Z := get (k_aya_id entry).
Definition e_sura_id (entry : ayah_entry) : option Z := get (k_sura_id entry).

(** [page.get("aya_id")] and [page.get("sura_id")] *)
Definition p_aya_id (page : page_entry) : option Z := get (pk_aya_id page).
Definition p_sura_id (page : page_entry) : option Z := get (pk_sura_id page).

(** The columns of [ayahs] besides the primary key [aya_id]; [type] and
    [external_id] may be NULL. *)
Record ayah_row : Type := AyahRow {
  a_sura_id : Z;
  a_type : option Z;
  a_text : list N;
  a_external_id : option Z
}.

(** The columns of [ayah_pages] besides the primary key [page_id]. *)
Record page_row : Type := PageRow {
  g_sura_id : Z;
  g_aya_id : Z;
  g_segs : list N
}.

(** [json.dumps(entry.get("segs", []), ensure_ascii=False)] *)
Definition segs_json (p : page_entry) : str :=
  match p_segs p with
  | Some j => json_dumps j
  | None => lit "[]"
  end.

(** Truth value of [entry.get(key)] for an integer field. *)
Definition truthy_int (o : option Z) : bool :=
  match o with
  | Some z => negb (z =? 0)
  | None => false
  end.

(** [INSERT OR REPLACE INTO ayahs (aya_id, sura_id, type, text,
    external_id)]: the five values are bound in their order. *)
Definition bind_ayah (aya_id sura_id aya_type : option Z) (text : option str)
    (external_id : option Z) : result unit :=
  if negb (int_ok aya_id && int_ok sura_id && int_ok aya_type) then Raise OverflowError
  else if negb (text_ok text) then Raise UnicodeEncodeError
  else if negb (int_ok external_id) then Raise OverflowError
  else Ok tt.

(** The row is written under [rowid], in the place of the row that has
    this key if there is one; [sura_id] and [text] are [NOT NULL]. *)
Definition put_ayah (ayahs : gmap Z ayah_row) (rowid : Z) (sura_id aya_type : option Z)
    (text : option str) (external_id : option Z) : result (gmap Z ayah_row) :=
  match sura_id, text with
  | Some s, Some t => Ok (<[rowid := AyahRow s aya_type t external_id]> ayahs)
  | _, _ => Raise IntegrityError
  end.

(** *** database_manage.py *)

(** The row id that the engine draws when the largest one is in use:
    some id that no row has, or none, and then the insert fails. *)
Variable random_rowid : gmap Z ayah_row -> option Z.

(** The row id of a row inserted with a NULL [aya_id]: one more than the
    largest in the table, 1 in an empty table. *)
Definition new_rowid (ayahs : gmap Z ayah_row) : result Z :=
  match max_rowid ayahs with
  | None => Ok 1
  | Some m =>
      if m <? 9223372036854775807 then Ok (m + 1)
      else match random_rowid ayahs with
           | Some k => Ok k
           | None => Raise OperationalError
           end
  end.

(** The ayahs loop, with its [inserted] and [skipped] counters. The
    tests are on the presence of the keys: a key with [null] passes
    them. *)
Definition dm_insert_ayah (st : gmap Z ayah_row * Z * Z) (entry : ayah_entry)
  : result (gmap Z ayah_row * Z * Z) :=
  let '(ayahs, inserted, skipped) := st in
  if negb (has (k_aya_id entry)) || negb (has (k_sura_id entry))
  then Ok (ayahs, inserted, skipped + 1)
  else if negb (has (k_text entry)) then Ok (ayahs, inserted, skipped + 1)
  else
    let aya_id := get (k_aya_id entry) in
    let sura_id := get (k_sura_id entry) in
    let aya_type := get_default (k_type entry) 0 in
    let text := get (k_text entry) in
    let external_id := get (k_id entry) in
    bind (bind_ayah aya_id sura_id aya_type text external_id) (fun _ =>
    bind (match aya_id with
          | Some a => Ok a
          | None => new_rowid ayahs
          end) (fun rowid =>
    bind (put_ayah ayahs rowid sura_id aya_type text external_id) (fun ayahs' =>
    Ok (ayahs', inserted + 1, skipped)))).

Definition dm_insert_ayahs (ayahs : gmap Z ayah_row) (ayahs_data : list ayah_entry)
  : result (gmap Z ayah_row * Z * Z) :=
  for_each dm_insert_ayah (ayahs, 0, 0) ayahs_data.

(** The pages loop: [entry["sura_id"]] and [entry["aya_id"]] raise
    [KeyError] on an absent key; then the values are bound, [sura_id] and
    [aya_id] are [NOT NULL], and the row replaces the one stored under the
    same [page_id], the position [idx] in the data. *)
Fixpoint dm_insert_pages (ayah_pages : gmap Z page_row) (idx : Z)
    (pages_data : list page_entry) : result (gmap Z page_row) :=
  match pages_data with
  | [] => Ok ayah_pages
  | entry :: rest =>
      let segs := segs_json entry in
      if has (pk_sura_id entry) && has (pk_aya_id entry) then
        let sura_id := p_sura_id entry in
        let aya_id := p_aya_id entry in
        if negb (in_int64 idx && int_ok sura_id && int_ok aya_id)
        then Raise OverflowError
        else if negb (encodable segs) then Raise UnicodeEncodeError
        else
          match sura_id, aya_id with
          | Some s, Some a =>
              dm_insert_pages (<[idx := PageRow s a segs]> ayah_pages) (idx + 1) rest
          | _, _ => Raise IntegrityError
          end
      else Raise KeyError
  end.

(** [for idx, entry in enumerate(pages_data, start=1)] *)
Definition dm_pages (ayah_pages : gmap Z page_row) (pages_data : list page_entry)
  : result (gmap Z page_row) :=
  dm_insert_pages ayah_pages 1 pages_data.

(** *** ayahs_positions/mrg_with_base_db.py *)

(** The ayahs loop: [if aya_id and sura_id and text]. A value that
    passes the test is not [null], so the row id is [aya_id]. *)
Definition mrg_insert_ayah (ayahs : gmap Z ayah_row) (entry : ayah_entry)
  : result (gmap Z ayah_row) :=
  let aya_id := e_aya_id entry in
  let sura_id := e_sura_id entry in
  let type_val := get_default (k_type entry) 0 in
  let text := get_default (k_text entry) [] in
  let external_id := get (k_id entry) in
  match aya_id, sura_id, text with
  | Some a, Some s, Some t =>
      if truthy_int aya_id && truthy_int sura_id && truthy t
      then bind (bind_ayah aya_id sura_id type_val text external_id)
                (fun _ => put_ayah ayahs a sura_id type_val text external_id)
      else Ok ayahs
  | _, _, _ => Ok ayahs
  end.

Definition mrg_insert_ayahs (ayahs : gmap Z ayah_row) (data : list ayah_entry)
  : result (gmap Z ayah_row) :=
  for_each mrg_insert_ayah ayahs data.

(** The [ayah_pages] table of this script: [page_id] is
    [AUTOINCREMENT], so a row inserted without it gets the number after
    the largest one used so far, which [seq] holds. *)
Record auto_pages : Type := AutoPages {
  rows : list (Z * page_row);
  seq : Z
}.

(** The pages loop: a plain [INSERT] without [page_id]. *)
Definition mrg_insert_page (t : auto_pages) (page : page_entry) : auto_pages :=
  let aya_id := p_aya_id page in
  let sura_id := p_sura_id page in
  let segs := segs_json page in
  match aya_id, sura_id with
  | Some a, Some s =>
      if truthy_int aya_id && truthy_int sura_id
      then AutoPages (rows t ++ [(seq t + 1, PageRow s a segs)]) (seq t + 1)
      else t
  | _, _ => t
  end.

Definition mrg_insert_pages (t : auto_pages) (pages : list page_entry) : auto_pages :=
  foldl mrg_insert_page t pages.

End WithJson.

Arguments PageEntry {J} pk_aya_id pk_sura_id p_segs.
Arguments pk_aya_id {J} p.
Arguments pk_sura_id {J} p.
Arguments p_aya_id {J} page.
Arguments p_sura_id {J} page.
Arguments p_segs {J} p.
Arguments segs_json {J} json_dumps p.
Arguments dm_insert_pages {J} json_dumps ayah_pages idx pages_data.
Arguments dm_pages {J} json_dumps ayah_pages pages_data.
Arguments mrg_insert_page {J} json_dumps t page.
Arguments mrg_insert_pages {J} json_dumps t pages.

End Positions.

(** ** main.py: the run, from the contents of its files *)

Module Run.
Import PyStr Converter.

(** The dictionary read from a translation file: empty when the file is
    missing or unreadable ([None]). *)
Definition load_lines (py_int : str -> option Z) (file : option (list str))
  : gmap (list N) (list N) :=
  match file with
  | Some lines => parse_lines py_int lines
  | None => ∅
  end.

(** [run]: [None] when [parse_arabic_sql] fails and no database is made,
    else the outcome of the verse loop of [create_sqlite_database]. *)
Definition run (py_int : str -> option Z) (matches : list (str * str * str * str))
    (urdu_file simple_file : option (list str))
  : option (result (gmap Z quran_row * Z)) :=
  match parse_arabic_sql py_int matches with
  | None => None
  | Some (arabic_verses, _) =>
      Some (create_quran_table (load_lines py_int urdu_file)
                               (load_lines py_int simple_file) arabic_verses)
  end.

End Run.

(** ** db_manager.py: the verse insert loop *)

Module DbRows.
Import PyStr Converter.

(** What ends the loop: [ValueError] of [int], [OverflowError] of
    [execute] on an integer outside the signed 64-bit range, and the
    [IntegrityError] of the primary key. *)
Inductive failure : Type := ValueError | OverflowError | UniqueFailed.

Inductive outcome (A : Type) : Type :=
| Done (a : A)
| Failed (e : failure).
Arguments Done {A} a.
Arguments Failed {A} e.

Definition get_urdu_translation_for_verse (sura aya : Z) : str :=
  lit "Urdu translation for Sura " ++ str_of_int sura ++ lit ", Aya " ++ str_of_int aya.

Definition sajda_verses : list (Z * Z) :=
  [(7, 206); (13, 15); (16, 50); (17, 109); (19, 58);
   (22, 18); (22, 77); (25, 60); (27, 26); (32, 15);
   (38, 24); (41, 38); (53, 62); (84, 21); (96, 19)].

Section WithInt.

(** [int(s)] of a string: [None] stands for [ValueError], which nothing
    in this script catches. *)
Variable py_int : str -> option Z.

(** The tuple inserted for one verse: [int(sura)] and [int(aya)] come
    first, [int(idx)] when the tuple is built. *)
Definition make_row (verse_data : str * str * str * str) : outcome quran_row :=
  let '(idx, sura, aya, arabic_text) := verse_data in
  match py_int sura with
  | None => Failed ValueError
  | Some sura =>
      match py_int aya with
      | None => Failed ValueError
      | Some aya =>
          let arabic_text := DbManager.arabic_text arabic_text in
          let juz := DbManager.juz sura aya in
          let has_sajda := if Main.pair_in (sura, aya) sajda_verses then 1 else 0 in
          let urdu_trans := get_urdu_translation_for_verse sura aya in
          let without_aerab := arabic_text in
          let surah_ruku := DbManager.surah_ruku sura aya in
          match py_int idx with
          | None => Failed ValueError
          | Some i =>
              Done (QuranRow (i + 1000) aya arabic_text urdu_trans has_sajda
                             surah_ruku surah_ruku juz (DbManager.manzilNo juz) 1
                             sura without_aerab 0)
          end
      end
  end.

(** The verse loop: a plain [INSERT], whose values are bound first,
    into a table that the script creates only if it is not there, so that
    it may hold rows already. *)
Fixpoint insert_verses (quran_verses : list (str * str * str * str))
    (table : gmap Z quran_row) (inserted_count : Z)
  : outcome (gmap Z quran_row * Z) :=
  match quran_verses with
  | [] => Done (table, inserted_count)
  | verse_data :: rest =>
      match make_row verse_data with
      | Failed e => Failed e
      | Done r =>
          if forallb in_int64 (row_ints r) then
            match table !! ayatId r with
            | Some _ => Failed UniqueFailed
            | None => insert_verses rest (<[ayatId r := r]> table) (inserted_count + 1)
            end
          else Failed OverflowError
      end
  end.

End WithInt.

End DbRows.

(** ** extractor.py: the insert loop *)

Module ExtractorRows.
Import PyStr.

(** A row of the seven-column [quran] table of this script. *)
Record row : Type := Row {
  ayatId : Z;
  ayatNumber : Z;
  arabicText : str;
  urduTranslation : str;
  surahId : Z;
  paraId : Z;
  favourite : Z
}.

Section WithInt.

Variable py_int : str -> option Z.

(** The tuple inserted for one match. The translation text is built
    from the matched strings themselves. *)
Definition make_row (m : str * str * str * str) : DbRows.outcome row :=
  let '(idx, sura, aya, text) := m in
  match py_int idx, py_int aya, py_int sura with
  | Some i, Some a, Some s =>
      DbRows.Done (Row i a (Extractor.arabicText text)
                       (lit "Urdu for " ++ sura ++ lit ":" ++ aya) s 1 0)
  | _, _, _ => DbRows.Failed DbRows.ValueError
  end.

(** The integers of the inserted tuple. *)
Definition row_ints (r : row) : list Z :=
  [ayatId r; ayatNumber r; surahId r; paraId r; favourite r].

(** The insert loop: a plain [INSERT] on the primary key [ayatId], whose
    values are bound first. *)
Fixpoint insert_from (matches : list (str * str * str * str)) (table : gmap Z row)
  : DbRows.outcome (gmap Z row) :=
  match matches with
  | [] => DbRows.Done table
  | m :: rest =>
      match make_row m with
      | DbRows.Failed e => DbRows.Failed e
      | DbRows.Done r =>
          if forallb Converter.in_int64 (row_ints r) then
            match table !! ayatId r with
            | Some _ => DbRows.Failed DbRows.UniqueFailed
            | None => insert_from rest (<[ayatId r := r]> table)
            end
          else DbRows.Failed DbRows.OverflowError
      end
  end.

(** [for ... in matches[:100]], on a new table: [CREATE TABLE] has no
    [IF NOT EXISTS]. *)
Definition insert_first_100 (matches : list (str * str * str * str))
  : DbRows.outcome (gmap Z row) :=
  insert_from (take 100 matches) ∅.

End WithInt.

End ExtractorRows.

(** ** The visible part of a text *)

Module Content.
Import PyStr.

(** The characters of a text that are not whitespace, in their order. *)
Definition visible (s : str) : str := List.filter (fun c => negb (isspace c)) s.

End Content.


(** ** The quoting rule of the dump format *)

Module Quoting.
Import PyStr.

(** The strings that the text group of the extraction patterns can
    capture, characters other than the quote and doubled quotes in any
    order: quotes come in pairs. [pending] tells that the
    previous character is a quote still without its partner. *)
Fixpoint quoted_body_from (pending : bool) (s : str) : bool :=
  match s with
  | [] => negb pending
  | c :: s' =>
      if (c =? 39)%N then quoted_body_from (negb pending) s'
      else negb pending && quoted_body_from false s'
  end.

Definition quoted_body (s : str) : bool := quoted_body_from false s.

(** Writing a text as the body of a quoted field: every quote doubled. *)
Fixpoint sql_quote (t : str) : str :=
  match t with
  | [] => []
  | c :: t' => if (c =? 39)%N then 39%N :: 39%N :: sql_quote t' else c :: sql_quote t'
  end.

End Quoting.

(** ** What a normalized text looks like *)

Module Normal.
Import PyStr Tafsir.

Definition head_is (p : N -> bool) (s : str) : bool :=
  match s with
  | c :: _ => p c
  | [] => false
  end.

(** What may follow a [<] that opens no tag: nothing, or a [>] at once,
    or a text without any [>]. *)
Definition opens_no_tag (s : str) : bool :=
  match s with
  | [] => true
  | d :: _ => is_gt d || forallb not_gt s
  end.

(** No markup: no [<] opens a tag. *)
Fixpoint no_markup (s : str) : bool :=
  match s with
  | [] => true
  | c :: s' => (negb (is_lt c) || opens_no_tag s') && no_markup s'
  end.

(** What a scan needs to tell of its input and output to carry
    [opens_no_tag] from one to the other. *)
Definition follows (s t : str) : Prop :=
  (s = [] -> t = [])
  /\ (head_is is_gt s = true -> head_is is_gt t = true)
  /\ (forallb not_gt s = true -> forallb not_gt t = true).

(** Horizontal whitespace is single spaces: no tab, and no space next
    to a space. *)
Fixpoint single_spaces (s : str) : bool :=
  match s with
  | [] => true
  | c :: s' =>
      negb (c =? 9)%N && negb ((c =? 32)%N && head_is (fun d => (d =? 32)%N) s')
      && single_spaces s'
  end.

(** Where a scan stands in the current run of whitespace: no newline
    read in it yet, one newline just read, a second one right after the
    first, or some newline followed by other whitespace. *)
Inductive nl_state : Type := NoNl | OneNl | TwoNl | AfterNl.

(** At most one blank line: a run of whitespace holds at most two
    newlines, and two only next to each other. *)
Fixpoint blank_lines_ok (q : nl_state) (s : str) : bool :=
  match s with
  | [] => true
  | c :: s' =>
      if is_nl c then
        match q with
        | NoNl => blank_lines_ok OneNl s'
        | OneNl => blank_lines_ok TwoNl s'
        | TwoNl | AfterNl => false
        end
      else if isspace c then
        blank_lines_ok (match q with NoNl => NoNl | _ => AfterNl end) s'
      else blank_lines_ok NoNl s'
  end.

(** The whitespace at the head of [s] holds a newline. *)
Fixpoint leading_nl (s : str) : bool :=
  match s with
  | [] => false
  | c :: s' => isspace c && (is_nl c || leading_nl s')
  end.

End Normal.

(** ** The normalization of a text, as the specification words it *)

Module Normalization.
Import PyStr.

(** An occurrence of a kind of marking at the head of a text: a string
    of the kind that is not empty, the longest one that stands there. *)
Definition occurs (kind : str -> Prop) (m s : str) : Prop :=
  kind m /\ m <> [] /\ m `prefix_of` s
  /\ forall m', kind m' -> m' `prefix_of` s -> (length m' <= length m)%nat.

(** Every occurrence of a kind of marking replaced by [repl], from the
    left to the right. *)
Inductive replaced (kind : str -> Prop) (repl : str) : str -> str -> Prop :=
| replaced_nil : replaced kind repl [] []
| replaced_here m rest out :
    occurs kind m (m ++ rest) -> replaced kind repl rest out ->
    replaced kind repl (m ++ rest) (repl ++ out)
| replaced_next c rest out :
    (forall m, ~ occurs kind m (c :: rest)) -> replaced kind repl rest out ->
    replaced kind repl (c :: rest) (c :: out).

(** Line-break markup: [<br>] or [<br/>], in capitals or not, with
    whitespace allowed before the closing. *)
Definition line_break (m : str) : Prop :=
  exists b r ws close,
    m = 60%N :: b :: r :: ws ++ close
    /\ (b = 98%N \/ b = 66%N) /\ (r = 114%N \/ r = 82%N)
    /\ Forall (fun c => isspace c = true) ws
    /\ (close = [62%N] \/ close = [47%N; 62%N]).

(** A markup-like tag: [<], some characters other than [>], and [>]. *)
Definition tag (m : str) : Prop :=
  exists body,
    m = 60%N :: body ++ [62%N] /\ body <> [] /\ Forall (fun c => c <> 62%N) body.

(** A run of blank lines: from a newline to a later newline, with
    nothing but whitespace between them. *)
Definition blank_lines (m : str) : Prop :=
  exists ws, m = 10%N :: ws ++ [10%N] /\ Forall (fun c => isspace c = true) ws.

(** Horizontal whitespace: spaces and tabs. *)
Definition horizontal (m : str) : Prop :=
  Forall (fun c => c = 32%N \/ c = 9%N) m.

(** The whitespace at both ends taken away. *)
Definition trimmed (s out : str) : Prop :=
  exists w w',
    s = w ++ out ++ w'
    /\ Forall (fun c => isspace c = true) w /\ Forall (fun c => isspace c = true) w'
    /\ (forall c t, out = c :: t -> isspace c = false)
    /\ (forall t c, out = t ++ [c] -> isspace c = false).

(** The normalization: line-break markup becomes a newline, the other
    tags go, a run of blank lines becomes one blank line, a run of
    horizontal whitespace becomes one space, and the result is trimmed. *)
Definition normalizes (raw out : str) : Prop :=
  exists t1 t2 t3 t4,
    replaced line_break [10%N] raw t1
    /\ replaced tag [] t1 t2
    /\ replaced blank_lines [10%N; 10%N] t2 t3
    /\ replaced horizontal [32%N] t3 t4
    /\ trimmed t4 out.

End Normalization.


(** * Properties *)

Section Classifier.
Import Main Structure.

Lemma valid_verse_all surah ayah :
  valid_verse surah ayah -> In (surah, ayah) all_verses.
Proof.
  intros (n & Hin & Hr). unfold all_verses.
  apply in_flat_map. exists (surah, n). split; [exact Hin|].
  apply in_map_iff. exists ayah. split; [reflexivity|].
  apply list_elem_of_In, elem_of_seqZ. lia.
Qed.

(** A property that a boolean test accepts on each of the 6236 pairs
    holds of every valid pair. *)
Lemma valid_verse_check (f : Z -> Z -> bool) :
  forallb (fun p => f (fst p) (snd p)) all_verses = true ->
  forall surah ayah, valid_verse surah ayah -> f surah ayah = true.
Proof.
  intros Hall surah ayah Hv.
  rewrite forallb_forall in Hall.
  exact (Hall (surah, ayah) (valid_verse_all _ _ Hv)).
Qed.

Lemma all_verses_length : Z.of_nat (length all_verses) = 6236.
Proof. vm_compute. reflexivity. Qed.

(** [get_juz_for_verse] of main.py returns, on every valid pair, the
    number of the first interval that contains the verse, a value from 1
    to 30. *)
Lemma get_juz_for_verse_first_interval surah ayah :
  valid_verse surah ayah ->
  first_interval surah ayah = Some (get_juz_for_verse surah ayah)
  /\ 1 <= get_juz_for_verse surah ayah <= 30.
Proof.
  intros Hv.
  pose (f := fun s a =>
    match first_interval s a with
    | Some j => (j =? get_juz_for_verse s a) && (1 <=? j) && (j <=? 30)
    | None => false
    end).
  assert (Hf : f surah ayah = true).
  { apply valid_verse_check; [|exact Hv]. vm_compute. reflexivity. }
  unfold f in Hf. destruct (first_interval surah ayah) as [j|]; [|discriminate].
  apply andb_prop in Hf as [Hf H30]. apply andb_prop in Hf as [Heq H1].
  apply Z.eqb_eq in Heq. subst j. split; [reflexivity|lia].
Qed.

Lemma juz_boundaries_same :
  map (fun '(j, s_start, v_start, s_end, v_end) => (s_start, v_start, s_end, v_end))
      DbManager.juz_boundaries = get_juz_boundaries
  /\ map (fun '(j, _, _, _, _) => j) DbManager.juz_boundaries = seqZ 1 30.
Proof. split; reflexivity. Qed.

Lemma valid_2_253 : valid_verse 2 253.
Proof. exists 286. split; [|lia]. simpl. tauto. Qed.

Lemma valid_2_26 : valid_verse 2 26.
Proof. exists 286. split; [|lia]. simpl. tauto. Qed.

Lemma valid_78_1 : valid_verse 78 1.
Proof.
  exists 40. split; [|lia].
  apply list_elem_of_In. apply (list_elem_of_lookup_2 _ 77%nat). reflexivity.
Qed.

(** C1. On every valid pair [get_juz_for_verse] of main.py returns the
    number of the first interval that contains the verse, from 1 to 30,
    with part 1 for (2, 141) and part 2 for (2, 142). The juz loop of
    db_manager.py does not: verse (2, 253) is valid and the first interval
    that contains it is the third, but the loop stops at the second
    boundary, whose start test [sura == s_start and aya >= v_start] has no
    test of the end. *)
Theorem juz_first_interval :
  (forall surah ayah, valid_verse surah ayah ->
     first_interval surah ayah = Some (get_juz_for_verse surah ayah)
     /\ 1 <= get_juz_for_verse surah ayah <= 30)
  /\ get_juz_for_verse 2 141 = 1 /\ get_juz_for_verse 2 142 = 2
  /\ valid_verse 2 253
  /\ first_interval 2 253 = Some 3
  /\ get_juz_for_verse 2 253 = 3
  /\ DbManager.juz 2 253 = 2.
Proof.
  split; [exact get_juz_for_verse_first_interval|].
  do 2 (split; [reflexivity|]).
  split; [exact valid_2_253|]. repeat split; reflexivity.
Qed.

Lemma juz_first_interval_witness :
  valid_verse 2 253
  /\ first_interval 2 253 = Some (get_juz_for_verse 2 253)
  /\ 1 <= get_juz_for_verse 2 253 <= 30.
Proof.
  split; [exact valid_2_253|].
  apply (proj1 juz_first_interval 2 253). exact valid_2_253.
Defined.

(** The two verses the specification names are classified alike by
    both scripts. *)
Lemma juz_2_141_2_142 :
  get_juz_for_verse 2 141 = 1 /\ get_juz_for_verse 2 142 = 2
  /\ DbManager.juz 2 141 = 1 /\ DbManager.juz 2 142 = 2.
Proof. repeat split; reflexivity. Qed.

(** At a chapter that ends one interval and starts the next, a verse up
    to the end verse of the earlier interval is not given to the later
    one. *)
Lemma get_juz_for_verse_end_first surah ayah j b1 b2 :
  valid_verse surah ayah ->
  get_juz_boundaries !! j = Some b1 ->
  get_juz_boundaries !! S j = Some b2 ->
  b1.1.2 = surah -> b2.1.1.1 = surah -> ayah <= b1.2 ->
  get_juz_for_verse surah ayah <= Z.of_nat j + 1.
Proof.
  intros Hv H1 H2 He Hs Hle.
  assert (Hj : (j < 29)%nat).
  { apply lookup_lt_Some in H2. simpl in H2. lia. }
  pose (f := fun s a =>
    forallb (fun i =>
      match get_juz_boundaries !! i, get_juz_boundaries !! S i with
      | Some c1, Some c2 =>
          negb ((c1.1.2 =? s) && (c2.1.1.1 =? s) && (a <=? c1.2))
          || (get_juz_for_verse s a <=? Z.of_nat i + 1)
      | _, _ => true
      end) (seq 0 29)).
  assert (Hf : f surah ayah = true).
  { apply valid_verse_check; [|exact Hv]. vm_compute. reflexivity. }
  unfold f in Hf. rewrite forallb_forall in Hf.
  specialize (Hf j). rewrite H1, H2 in Hf.
  assert (Hin : In j (seq 0 29)) by (apply in_seq; lia).
  specialize (Hf Hin).
  apply orb_prop in Hf as [Hf|Hf]; [|lia].
  apply negb_true_iff in Hf.
  assert ((b1.1.2 =? surah) && (b2.1.1.1 =? surah) && (ayah <=? b1.2) = true).
  { rewrite !andb_true_iff. repeat split; lia. }
  congruence.
Qed.

(** [get_manzil] of main.py sends the parts 1 to 30 to the seven
    buckets. *)
Lemma get_manzil_grouping p :
  1 <= p <= 30 -> get_manzil p = grouping p /\ 1 <= get_manzil p <= 7.
Proof.
  intros Hp. split; [reflexivity|].
  unfold get_manzil. repeat case_match; lia.
Qed.

Lemma get_manzil_buckets p :
  (1 <= p <= 4 -> get_manzil p = 1) /\ (5 <= p <= 8 -> get_manzil p = 2)
  /\ (9 <= p <= 12 -> get_manzil p = 3) /\ (13 <= p <= 16 -> get_manzil p = 4)
  /\ (17 <= p <= 20 -> get_manzil p = 5) /\ (21 <= p <= 24 -> get_manzil p = 6)
  /\ (25 <= p <= 30 -> get_manzil p = 7).
Proof. unfold get_manzil. repeat split; intros; repeat case_match; lia. Qed.

(** The expression of db_manager.py agrees with the buckets up to part
    28 only. *)
Lemma db_manager_manzilNo_28 p :
  1 <= p <= 28 -> DbManager.manzilNo p = grouping p.
Proof.
  intros Hp. apply Z.eqb_eq.
  assert (H : forallb (fun q => DbManager.manzilNo q =? grouping q) (seqZ 1 28) = true)
    by (vm_compute; reflexivity).
  rewrite forallb_forall in H. apply H.
  apply list_elem_of_In, elem_of_seqZ. lia.
Qed.

(** C8. [get_manzil] of main.py sends every part from 1 to 30 to its
    bucket, a value from 1 to 7, with 4 in bucket 1, 5 in bucket 2 and 30
    in bucket 7. The expression [(juz - 1) // 4 + 1] of db_manager.py does
    not: verse (78, 1) is in part 30, for which it gives 8, outside the
    range 1-7 that its own comment names. *)
Theorem manzil_buckets :
  (forall p, 1 <= p <= 30 -> get_manzil p = grouping p /\ 1 <= get_manzil p <= 7)
  /\ (forall p,
       (1 <= p <= 4 -> get_manzil p = 1) /\ (5 <= p <= 8 -> get_manzil p = 2)
       /\ (9 <= p <= 12 -> get_manzil p = 3) /\ (13 <= p <= 16 -> get_manzil p = 4)
       /\ (17 <= p <= 20 -> get_manzil p = 5) /\ (21 <= p <= 24 -> get_manzil p = 6)
       /\ (25 <= p <= 30 -> get_manzil p = 7))
  /\ get_manzil 4 = 1 /\ get_manzil 5 = 2 /\ get_manzil 30 = 7
  /\ valid_verse 78 1
  /\ DbManager.juz 78 1 = 30
  /\ DbManager.manzilNo (DbManager.juz 78 1) = 8
  /\ get_manzil (get_juz_for_verse 78 1) = 7.
Proof.
  split; [exact get_manzil_grouping|].
  split; [exact get_manzil_buckets|].
  do 3 (split; [reflexivity|]).
  split; [exact valid_78_1|]. repeat split; reflexivity.
Qed.

Lemma manzil_buckets_witness :
  1 <= 30 <= 30 /\ get_manzil 30 = grouping 30 /\ 1 <= get_manzil 30 <= 7.
Proof.
  split; [lia|]. apply (proj1 manzil_buckets 30). lia.
Defined.

Lemma calculate_ruku_valid surah ayah :
  valid_verse surah ayah -> calculate_ruku surah ayah = subsection surah ayah.
Proof.
  intros Hv. apply Z.eqb_eq.
  apply (valid_verse_check (fun s a => calculate_ruku s a =? subsection s a));
    [|exact Hv].
  vm_compute. reflexivity.
Qed.

(** C5, as amended. [calculate_ruku] of main.py is the subsection rule on
    every valid pair: the cutoff tables for chapters 1 and 2, the generic
    rule elsewhere. db_manager.py applies the generic rule to every
    chapter, which gives the same number outside chapter 2. *)
Theorem calculate_ruku_subsection :
  (forall surah ayah, valid_verse surah ayah ->
     calculate_ruku surah ayah = subsection surah ayah)
  /\ (forall surah ayah, surah <> 1 -> surah <> 2 ->
       calculate_ruku surah ayah = (ayah - 1) `div` 10 + 1)
  /\ calculate_ruku 1 7 = 1 /\ calculate_ruku 2 26 = 2 /\ calculate_ruku 3 11 = 2
  /\ (forall sura aya, DbManager.surah_ruku sura aya = (aya - 1) `div` 10 + 1)
  /\ (forall sura aya, valid_verse sura aya -> sura <> 2 ->
       DbManager.surah_ruku sura aya = subsection sura aya).
Proof.
  split; [exact calculate_ruku_valid|].
  split.
  { intros surah ayah H1 H2. unfold calculate_ruku.
    destruct (Z.eqb_spec surah 1); [lia|]. destruct (Z.eqb_spec surah 2); [lia|].
    reflexivity. }
  do 3 (split; [reflexivity|]).
  split; [reflexivity|].
  intros sura aya Hv H2. apply Z.eqb_eq.
  pose (f := fun s a => (s =? 2) || (DbManager.surah_ruku s a =? subsection s a)).
  assert (Hf : f sura aya = true).
  { apply valid_verse_check; [|exact Hv]. vm_compute. reflexivity. }
  unfold f in Hf. apply orb_prop in Hf as [Hf|Hf]; [lia|exact Hf].
Qed.

Lemma calculate_ruku_subsection_witness :
  valid_verse 2 26 /\ calculate_ruku 2 26 = subsection 2 26.
Proof.
  split; [exact valid_2_26|].
  apply (proj1 calculate_ruku_subsection 2 26). exact valid_2_26.
Defined.

(** C5 fails on db_manager.py: for the valid verse (2, 26) it stores
    subsection 3, where the cutoff table of chapter 2 gives 2. *)
Lemma db_manager_surah_ruku_2_26 :
  valid_verse 2 26
  /\ subsection 2 26 = 2
  /\ DbManager.surah_ruku 2 26 = 3
  /\ DbManager.surah_ruku 2 26 <> subsection 2 26.
Proof. split; [exact valid_2_26|]. repeat split; try reflexivity. discriminate. Qed.

End Classifier.

Section Quotes.
Import PyStr Quoting Converter.

Lemma replace_quote_pair s :
  replace (lit "''") (lit "'") (39%N :: 39%N :: s)
  = 39%N :: replace (lit "''") (lit "'") s.
Proof. reflexivity. Qed.

Lemma replace_quote_other c s :
  c <> 39%N ->
  replace (lit "''") (lit "'") (c :: s) = c :: replace (lit "''") (lit "'") s.
Proof.
  intros Hc. unfold replace. cbn [replace_from].
  change (lit "''") with [39%N; 39%N]. cbn [starts_with].
  destruct (N.eqb_spec 39 c); [congruence|]. reflexivity.
Qed.

Lemma replace_sql_quote t : replace (lit "''") (lit "'") (sql_quote t) = t.
Proof.
  induction t as [|c t IH]; [reflexivity|].
  cbn [sql_quote]. destruct (N.eqb_spec c 39) as [->|Hc].
  - rewrite replace_quote_pair, IH. reflexivity.
  - rewrite replace_quote_other by exact Hc. rewrite IH. reflexivity.
Qed.

Lemma quoted_body_pending s :
  quoted_body_from true s = true ->
  exists s', s = 39%N :: s' /\ quoted_body_from false s' = true.
Proof.
  destruct s as [|c s]; cbn [quoted_body_from negb]; [discriminate|].
  destruct (N.eqb_spec c 39) as [->|Hc]; [|discriminate].
  intros H. exists s. split; [reflexivity|exact H].
Qed.

Lemma sql_quote_replace_len n : forall raw,
  (length raw <= n)%nat -> quoted_body raw = true ->
  sql_quote (replace (lit "''") (lit "'") raw) = raw.
Proof.
  induction n as [|n IH]; intros raw Hlen Hq.
  - destruct raw; [reflexivity|simpl in Hlen; lia].
  - destruct raw as [|c raw]; [reflexivity|].
    unfold quoted_body in Hq. cbn [quoted_body_from negb] in Hq.
    destruct (N.eqb_spec c 39) as [->|Hc].
    + apply quoted_body_pending in Hq as (raw' & -> & Hq).
      rewrite replace_quote_pair. cbn [sql_quote]. rewrite N.eqb_refl.
      rewrite IH; [reflexivity| |exact Hq]. simpl in Hlen. lia.
    + rewrite replace_quote_other by exact Hc. cbn [sql_quote].
      destruct (N.eqb_spec c 39); [congruence|].
      rewrite IH; [reflexivity| |exact Hq]. simpl in Hlen. lia.
Qed.

Lemma quoted_body_sql_quote t : quoted_body (sql_quote t) = true.
Proof.
  unfold quoted_body. induction t as [|c t IH]; [reflexivity|].
  cbn [sql_quote]. destruct (N.eqb_spec c 39) as [->|Hc].
  - cbn [quoted_body_from negb]. rewrite !N.eqb_refl. exact IH.
  - cbn [quoted_body_from negb]. destruct (N.eqb_spec c 39); [congruence|].
    exact IH.
Qed.

Lemma extractor_insert_done py_int matches : forall table table',
  ExtractorRows.insert_from py_int matches table = DbRows.Done table' ->
  size table' = (size table + length matches)%nat
  /\ (forall k r0, table !! k = Some r0 -> table' !! k = Some r0)
  /\ (forall m, m ∈ matches ->
        exists r, ExtractorRows.make_row py_int m = DbRows.Done r
                  /\ table' !! ExtractorRows.ayatId r = Some r).
Proof.
  induction matches as [|m matches IH]; intros table table'.
  - cbn [ExtractorRows.insert_from length]. intros [= <-].
    split; [lia|]. split; [auto|]. intros m Hm. inversion Hm.
  - cbn [ExtractorRows.insert_from].
    destruct (ExtractorRows.make_row py_int m) as [r|e] eqn:Hr; [|discriminate].
    destruct (forallb _ (ExtractorRows.row_ints r)); [|discriminate].
    destruct (table !! ExtractorRows.ayatId r) eqn:Hfree; [discriminate|].
    intros Hrun. apply IH in Hrun as (Hsize & Hkeep & Hrows).
    split; [rewrite Hsize, map_size_insert_None by exact Hfree; cbn [length]; lia|].
    split.
    + intros k r0 Hk. apply Hkeep. rewrite lookup_insert_ne; [exact Hk|].
      intros <-. congruence.
    + intros m' [->|Hm']%elem_of_cons; [|apply Hrows, Hm'].
      exists r. split; [exact Hr|]. apply Hkeep, lookup_insert_eq.
Qed.



End Quotes.

Section Rows.
Import PyStr Converter.

Lemma insert_sorted_perm x l : insert_sorted x l ≡ₚ x :: l.
Proof.
  induction l as [|y l IH]; [reflexivity|].
  cbn [insert_sorted]. destruct (key_le x y); [reflexivity|].
  rewrite IH. apply Permutation_swap.
Qed.

Lemma sort_verses_perm l : sort_verses l ≡ₚ l.
Proof.
  induction l as [|x l IH]; [reflexivity|].
  cbn [sort_verses]. rewrite insert_sorted_perm, IH. reflexivity.
Qed.

Lemma insert_sorted_hd y x l :
  key_le y x = true -> HdRel (fun a b => key_le a b = true) y l ->
  HdRel (fun a b => key_le a b = true) y (insert_sorted x l).
Proof.
  intros Hyx Hl. destruct l as [|z l]; [constructor; exact Hyx|].
  cbn [insert_sorted]. destruct (key_le x z).
  - constructor. exact Hyx.
  - constructor. inversion Hl. assumption.
Qed.

Lemma key_le_total a b : key_le a b = false -> key_le b a = true.
Proof.
  unfold key_le. intros H. apply orb_false_elim in H as [H1 H2].
  apply Z.ltb_ge in H1. apply andb_false_iff in H2.
  apply orb_true_iff. destruct (Z.ltb_spec (v_surah b) (v_surah a)); [left; reflexivity|].
  right. apply andb_true_iff. rewrite Z.eqb_eq, Z.leb_le.
  destruct H2 as [H2|H2]; [apply Z.eqb_neq in H2|apply Z.leb_gt in H2]; lia.
Qed.

(** The verses come out of the sort in the order of their keys. *)
Lemma sort_verses_sorted l : Sorted (fun a b => key_le a b = true) (sort_verses l).
Proof.
  induction l as [|x l IH]; [constructor|].
  cbn [sort_verses]. induction IH as [|y l' Hs IHs Hhd]; [repeat constructor|].
  cbn [insert_sorted]. destruct (key_le x y) eqn:Hxy.
  - constructor; [constructor; assumption|constructor; exact Hxy].
  - constructor; [exact IHs|].
    apply insert_sorted_hd; [apply key_le_total, Hxy|exact Hhd].
Qed.

Lemma omap_filter_length {A B : Type} (f : A -> option B) (l : list A) :
  (length (omap f l)
   + length (List.filter (fun x => bool_decide (f x = None)) l))%nat
  = length l.
Proof.
  induction l as [|x l IH]; [reflexivity|].
  cbn [omap list_omap List.filter]. destruct (f x) as [b|] eqn:Hf.
  - rewrite bool_decide_eq_false_2 by discriminate. simpl. lia.
  - rewrite bool_decide_eq_true_2 by reflexivity. simpl. lia.
Qed.

(** C4, as amended. A matched tuple one of whose numbers [int] rejects
    is passed over and every other tuple is kept, whatever its text, even
    an empty one. Parsing a non-empty list of matches always succeeds; it
    reports the number of matches and the number of verses kept, whose
    difference is the number of tuples passed over, and keeps no skip
    count of its own. *)
Theorem store_verse_skips_unparsable (py_int : str -> option Z) :
  (forall idx sura aya text,
     py_int idx = None \/ py_int sura = None \/ py_int aya = None ->
     store_verse py_int (idx, sura, aya, text) = None)
  /\ (forall idx sura aya text i s a,
       py_int idx = Some i -> py_int sura = Some s -> py_int aya = Some a ->
       store_verse py_int (idx, sura, aya, text)
       = Some (Verse i s a (strip (replace (lit "''") (lit "'") text))))
  /\ (forall matches, matches <> [] ->
       exists verses report,
         parse_arabic_sql py_int matches = Some (verses, report)
         /\ verses ≡ₚ omap (store_verse py_int) matches
         /\ found report = Z.of_nat (length matches)
         /\ processed report = Z.of_nat (length verses)
         /\ found report - processed report
            = Z.of_nat (length (List.filter
                 (fun m => bool_decide (store_verse py_int m = None)) matches))).
Proof.
  split.
  { intros idx sura aya text H. unfold store_verse.
    destruct (py_int idx), (py_int sura), (py_int aya);
      try reflexivity; destruct H as [H|[H|H]]; discriminate. }
  split.
  { intros idx sura aya text i s a Hi Hs Ha. unfold store_verse.
    rewrite Hi, Hs, Ha. reflexivity. }
  intros matches Hne. destruct matches as [|m matches]; [congruence|].
  eexists _, _. split; [reflexivity|].
  split; [apply sort_verses_perm|].
  split; [reflexivity|]. split; [reflexivity|].
  cbn [found processed].
  rewrite (Permutation_length (sort_verses_perm _)).
  pose proof (omap_filter_length (store_verse py_int) (m :: matches)) as H.
  lia.
Qed.

Lemma store_verse_skips_unparsable_witness :
  int_of_str (lit "NULL") = None
  /\ store_verse int_of_str (lit "NULL", lit "1", lit "1", lit "text") = None.
Proof.
  split; [reflexivity|].
  apply (proj1 (store_verse_skips_unparsable int_of_str)).
  left. reflexivity.
Defined.

(** C4 fails for the empty text: the tuple (1, 1, 1, '') is matched by
    the first pattern, its text is empty after the quotes are resolved,
    and it is kept as a verse with an empty text. *)
Lemma empty_text_tuple_kept :
  strip (replace (lit "''") (lit "'") []) = []
  /\ store_verse int_of_str (lit "1", lit "1", lit "1", []) = Some (Verse 1 1 1 [])
  /\ parse_arabic_sql int_of_str [(lit "1", lit "1", lit "1", [])]
     = Some ([Verse 1 1 1 []], ParseReport 1 1 true).
Proof. repeat split; reflexivity. Qed.

End Rows.

Section Fallbacks.
Import PyStr Converter.

Lemma str_of_int_examples :
  str_of_int 0 = lit "0" /\ str_of_int 114 = lit "114" /\ str_of_int (-5) = lit "-5"
  /\ verse_key 2 255 = lit "2:255".
Proof. repeat split; reflexivity. Qed.

(** C10, as amended. The two text columns are filled from the parsed
    files when they have the key of the verse and from a fallback when
    they do not: the placeholder sentence, which is not empty and carries
    the two numbers, for the translation, and the Arabic text of the
    record for the text without diacritics. A value taken from a file, or
    the Arabic text itself, is stored as it is, empty or not. *)
Theorem make_row_text_fallbacks (urdu simple : gmap (list N) (list N)) (v : verse) :
  (urdu !! verse_key (v_surah v) (v_ayah v) = None ->
     urduTranslation (make_row urdu simple v) = placeholder (v_surah v) (v_ayah v)
     /\ urduTranslation (make_row urdu simple v) <> [])
  /\ (forall t, urdu !! verse_key (v_surah v) (v_ayah v) = Some t ->
       urduTranslation (make_row urdu simple v) = t)
  /\ (simple !! verse_key (v_surah v) (v_ayah v) = None ->
       withoutAerab (make_row urdu simple v) = v_arabic v)
  /\ (forall t, simple !! verse_key (v_surah v) (v_ayah v) = Some t ->
       withoutAerab (make_row urdu simple v) = t)
  /\ arabicText (make_row urdu simple v) = v_arabic v
  /\ (exists a b c,
       placeholder (v_surah v) (v_ayah v)
       = a ++ str_of_int (v_surah v) ++ b ++ str_of_int (v_ayah v) ++ c).
Proof.
  unfold make_row. cbn [urduTranslation withoutAerab arabicText].
  split.
  { intros ->. split; [reflexivity|]. discriminate. }
  split; [intros t ->; reflexivity|].
  split; [intros ->; reflexivity|].
  split; [intros t ->; reflexivity|].
  split; [reflexivity|].
  eexists _, _, _. unfold placeholder. reflexivity.
Qed.

Lemma make_row_text_fallbacks_witness :
  (∅ : gmap (list N) (list N)) !! verse_key 1 1 = None
  /\ urduTranslation (make_row ∅ ∅ (Verse 1 1 1 (lit "a"))) = placeholder 1 1.
Proof.
  split; [reflexivity|].
  apply (proj1 (make_row_text_fallbacks ∅ ∅ (Verse 1 1 1 (lit "a")))).
  reflexivity.
Defined.

(** C10 fails on the non-empty part. The verse parsed from the tuple
    (1, 1, 1, '') has an empty Arabic text, which becomes its
    [withoutAerab] when no plain text is known; and the translation line
    [1|1|] gives verse 1:1 an empty translation, which is stored. *)
Lemma empty_text_columns :
  store_verse int_of_str (lit "1", lit "1", lit "1", []) = Some (Verse 1 1 1 [])
  /\ withoutAerab (make_row ∅ ∅ (Verse 1 1 1 [])) = []
  /\ parse_lines int_of_str [lit "1|1|"] !! verse_key 1 1 = Some []
  /\ urduTranslation
       (make_row (parse_lines int_of_str [lit "1|1|"]) ∅ (Verse 1 1 1 (lit "a")))
     = [].
Proof. repeat split; vm_compute; reflexivity. Qed.

End Fallbacks.

Section Merges.
Import PyStr Converter Tafsir Positions.

(** A loop whose every step either leaves the table alone or writes one
    key overrides the table with a map that depends on the data only. *)
Lemma foldl_upsert_union {X K V : Type} `{Countable K}
    (step : gmap K V -> X -> gmap K V) :
  (forall x, (forall m, step m x = m) \/ (exists k v, forall m, step m x = <[k:=v]> m)) ->
  forall l, exists A : gmap K V, forall m, foldl step m l = A ∪ m.
Proof.
  intros Hstep l. induction l as [|x l (A & HA)].
  - exists ∅. intros m. cbn [foldl]. rewrite (left_id_L ∅ (∪)). reflexivity.
  - destruct (Hstep x) as [Hskip|(k & v & Hput)].
    + exists A. intros m. cbn [foldl]. rewrite Hskip. apply HA.
    + exists (A ∪ {[k := v]}). intros m. cbn [foldl].
      rewrite Hput, HA, insert_union_singleton_l, (assoc_L (∪)). reflexivity.
Qed.

Lemma foldl_upsert_twice {X K V : Type} `{Countable K}
    (step : gmap K V -> X -> gmap K V) :
  (forall x, (forall m, step m x = m) \/ (exists k v, forall m, step m x = <[k:=v]> m)) ->
  forall l m, foldl step (foldl step m l) l = foldl step m l.
Proof.
  intros Hstep l m. destruct (foldl_upsert_union step Hstep l) as (A & HA).
  rewrite !HA, (assoc_L (∪)), (idemp_L (∪)). reflexivity.
Qed.

(** The table a counting loop leaves does not depend on its counters. *)
Lemma transfer_table rows : forall tafsir n,
  (foldl transfer_row (tafsir, n) rows).1
  = foldl (fun m row => (transfer_row (m, 0) row).1) tafsir rows.
Proof.
  induction rows as [|row rows IH]; intros tafsir n; [reflexivity|].
  cbn [foldl]. destruct row as [[sura aya] col].
  unfold transfer_row at 2 4.
  destruct (truthy (clean_text _)); apply IH.
Qed.

Lemma transfer_twice tafsir rows :
  (transfer (transfer tafsir rows).1 rows).1 = (transfer tafsir rows).1.
Proof.
  unfold transfer. rewrite !transfer_table.
  apply foldl_upsert_twice. intros [[sura aya] col].
  unfold transfer_row. destruct (truthy (clean_text _)).
  - right. eexists _, _. intros m. reflexivity.
  - left. intros m. reflexivity.
Qed.

(** *** Loops that may raise *)

Lemma for_each_app {S X : Type} (body : S -> X -> result S) l1 : forall st l2,
  for_each body st (l1 ++ l2)
  = bind (for_each body st l1) (fun st' => for_each body st' l2).
Proof.
  induction l1 as [|x l1 IH]; intros st l2; [reflexivity|].
  cbn [app for_each]. destruct (body st x) as [st'|e]; cbn [bind]; [apply IH|reflexivity].
Qed.

(** A loop whose every step raises, leaves the table alone or writes one
    key, whatever the table, overrides the table with a map that depends
    on the data only. *)
Lemma for_each_upsert_union {X K V : Type} `{Countable K}
    (step : gmap K V -> X -> result (gmap K V)) l :
  (forall x, x ∈ l ->
     (exists e, forall m, step m x = Raise e)
     \/ (forall m, step m x = Ok m)
     \/ (exists k v, forall m, step m x = Ok (<[k:=v]> m))) ->
  forall m m', for_each step m l = Ok m' ->
    exists A : gmap K V, forall m2, for_each step m2 l = Ok (A ∪ m2).
Proof.
  induction l as [|x l IH]; intros Hstep m m' Hrun.
  - exists ∅. intros m2. cbn [for_each]. rewrite (left_id_L ∅ (∪)). reflexivity.
  - cbn [for_each] in Hrun.
    destruct (Hstep x ltac:(left)) as [(e & He)|[Hskip|(k & v & Hput)]].
    + rewrite He in Hrun. discriminate.
    + rewrite Hskip in Hrun. cbn [bind] in Hrun.
      destruct (IH (fun y Hy => Hstep y (list_elem_of_further _ _ _ Hy)) _ _ Hrun)
        as (A & HA).
      exists A. intros m2. cbn [for_each]. rewrite Hskip. apply HA.
    + rewrite Hput in Hrun. cbn [bind] in Hrun.
      destruct (IH (fun y Hy => Hstep y (list_elem_of_further _ _ _ Hy)) _ _ Hrun)
        as (A & HA).
      exists (A ∪ {[k := v]}). intros m2. cbn [for_each]. rewrite Hput. cbn [bind].
      rewrite HA, insert_union_singleton_l, (assoc_L (∪)). reflexivity.
Qed.

Ltac uniform_step :=
  first [ left; eexists; intros; reflexivity
        | right; left; intros; reflexivity
        | right; right; eexists _, _; intros; reflexivity ].

Lemma mrg_insert_ayah_uniform e :
  (exists err, forall m, mrg_insert_ayah m e = Raise err)
  \/ (forall m, mrg_insert_ayah m e = Ok m)
  \/ (exists k v, forall m, mrg_insert_ayah m e = Ok (<[k:=v]> m)).
Proof.
  unfold mrg_insert_ayah, bind_ayah, put_ayah.
  destruct (e_aya_id e) as [a|]; [|uniform_step].
  destruct (e_sura_id e) as [s|]; [|uniform_step].
  destruct (get_default (k_text e) []) as [t|]; [|uniform_step].
  destruct (truthy_int (Some a) && truthy_int (Some s) && truthy t); [|uniform_step].
  destruct (negb _); [uniform_step|].
  destruct (negb _); [uniform_step|].
  destruct (negb _); uniform_step.
Qed.

Lemma mrg_insert_ayahs_union ayahs data t :
  mrg_insert_ayahs ayahs data = Ok t ->
  exists A : gmap Z ayah_row, forall m, mrg_insert_ayahs m data = Ok (A ∪ m).
Proof.
  unfold mrg_insert_ayahs. apply for_each_upsert_union.
  intros e _. apply mrg_insert_ayah_uniform.
Qed.

Lemma mrg_insert_ayahs_twice ayahs data t :
  mrg_insert_ayahs ayahs data = Ok t -> mrg_insert_ayahs t data = Ok t.
Proof.
  intros Hrun. destruct (mrg_insert_ayahs_union _ _ _ Hrun) as (A & HA).
  rewrite HA in Hrun. injection Hrun as <-.
  rewrite HA, (assoc_L (∪)), (idemp_L (∪)). reflexivity.
Qed.

Lemma mrg_insert_ayahs_doubled ayahs data t :
  mrg_insert_ayahs ayahs data = Ok t -> mrg_insert_ayahs ayahs (data ++ data) = Ok t.
Proof.
  intros Hrun. unfold mrg_insert_ayahs. rewrite for_each_app.
  fold (mrg_insert_ayahs ayahs data). rewrite Hrun. cbn [bind].
  apply mrg_insert_ayahs_twice in Hrun. exact Hrun.
Qed.

(** *** The ayahs loop of database_manage.py *)

Section DmAyahs.
Variable random_rowid : gmap Z ayah_row -> option Z.

(** A record whose [aya_id] is not [null] is passed over or written
    under its own key, whatever the table and the counters. *)
Lemma dm_insert_ayah_uniform e m i s st' :
  (has (k_aya_id e) && has (k_sura_id e) && has (k_text e) = true ->
   k_aya_id e <> Null) ->
  dm_insert_ayah random_rowid (m, i, s) e = Ok st' ->
  (forall m2 i2 s2, dm_insert_ayah random_rowid (m2, i2, s2) e = Ok (m2, i2, s2 + 1))
  \/ (exists k v, forall m2 i2 s2,
        dm_insert_ayah random_rowid (m2, i2, s2) e = Ok (<[k:=v]> m2, i2 + 1, s2)).
Proof.
  destruct e as [fa fs fty ft fi]. unfold dm_insert_ayah, bind_ayah, put_ayah.
  cbn [k_aya_id k_sura_id k_type k_text k_id].
  destruct fa as [| |a]; cbn [has get negb orb andb];
    try (intros _ _; left; intros; reflexivity).
  - destruct fs; cbn [has negb orb andb]; try (intros _ _; left; intros; reflexivity);
      destruct ft; cbn [has negb]; try (intros _ _; left; intros; reflexivity);
      intros Hnull; exfalso; apply Hnull; reflexivity.
  - destruct fs as [| |sv]; cbn [has get negb orb andb];
      try (intros _ _; left; intros; reflexivity);
      destruct ft as [| |tv]; cbn [has get negb];
      try (intros _ _; left; intros; reflexivity); intros _;
      repeat (destruct (negb _); cbn [bind]; [discriminate|]);
      try discriminate.
    intros _. right. eexists _, _. intros m2 i2 s2. reflexivity.
Qed.

Lemma dm_insert_ayahs_union data :
  (forall e, e ∈ data ->
     has (k_aya_id e) && has (k_sura_id e) && has (k_text e) = true ->
     k_aya_id e <> Null) ->
  forall m i s st',
    for_each (dm_insert_ayah random_rowid) (m, i, s) data = Ok st' ->
    exists (A : gmap Z ayah_row) di ds,
      forall m2 i2 s2,
        for_each (dm_insert_ayah random_rowid) (m2, i2, s2) data
        = Ok (A ∪ m2, i2 + di, s2 + ds).
Proof.
  induction data as [|e data IH]; intros Hkeys m i s st' Hrun.
  - exists ∅, 0, 0. intros m2 i2 s2. cbn [for_each].
    rewrite (left_id_L ∅ (∪)), !Z.add_0_r. reflexivity.
  - cbn [for_each] in Hrun.
    destruct (dm_insert_ayah random_rowid (m, i, s) e) as [[[m1 i1] s1]|err] eqn:Hstep;
      [|discriminate].
    cbn [bind] in Hrun.
    destruct (IH (fun y Hy => Hkeys y (list_elem_of_further _ _ _ Hy)) _ _ _ _ Hrun)
      as (A & di & ds & HA).
    destruct (dm_insert_ayah_uniform e m i s _ (Hkeys e ltac:(left)) Hstep)
      as [Hskip|(k & v & Hput)].
    + exists A, di, (1 + ds). intros m2 i2 s2. cbn [for_each].
      rewrite Hskip. cbn [bind]. rewrite HA. f_equal. f_equal. lia.
    + exists (A ∪ {[k := v]}), (1 + di), ds. intros m2 i2 s2. cbn [for_each].
      rewrite Hput. cbn [bind]. rewrite HA.
      rewrite insert_union_singleton_l, (assoc_L (∪)). f_equal. f_equal. f_equal. lia.
Qed.

Lemma dm_insert_ayahs_doubled data t i s :
  (forall e, e ∈ data ->
     has (k_aya_id e) && has (k_sura_id e) && has (k_text e) = true ->
     k_aya_id e <> Null) ->
  dm_insert_ayahs random_rowid ∅ data = Ok (t, i, s) ->
  dm_insert_ayahs random_rowid ∅ (data ++ data) = Ok (t, i + i, s + s).
Proof.
  intros Hkeys Hrun. unfold dm_insert_ayahs in *.
  destruct (dm_insert_ayahs_union data Hkeys _ _ _ _ Hrun) as (A & di & ds & HA).
  rewrite HA in Hrun. injection Hrun as <- <- <-.
  rewrite for_each_app, HA. cbn [bind]. rewrite HA.
  rewrite (assoc_L (∪)), (idemp_L (∪)). reflexivity.
Qed.

(** The largest row id is the id of a row, and no row has a larger
    one. *)
Lemma max_rowid_spec {V : Type} (t : gmap Z V) :
  match max_rowid t with
  | None => t = ∅
  | Some m => is_Some (t !! m) /\ forall k, is_Some (t !! k) -> k <= m
  end.
Proof.
  unfold max_rowid.
  assert (Hl : forall l : list Z,
             match foldr (fun k acc => Some (match acc with
                                             | Some m => Z.max k m
                                             | None => k
                                             end)) None l with
             | None => l = []
             | Some m => m ∈ l /\ forall k, k ∈ l -> k <= m
             end).
  { induction l as [|k l IH]; [reflexivity|]. cbn [foldr].
    destruct (foldr _ None l) as [m|].
    - destruct IH as [Hm Hle]. split.
      + destruct (Z.max_spec k m) as [[_ ->]|[_ ->]]; [right; exact Hm|left].
      + intros k' [->|Hk']%elem_of_cons; [lia|]. specialize (Hle k' Hk'). lia.
    - subst l. split; [left|]. intros k' Hk'. apply list_elem_of_singleton in Hk'. lia. }
  specialize (Hl (map_to_list t).*1).
  destruct (foldr _ None (map_to_list t).*1) as [m|].
  - destruct Hl as [Hm Hle]. split.
    + apply list_elem_of_fmap in Hm as ([k v] & -> & Hkv).
      apply elem_of_map_to_list in Hkv. eauto.
    + intros k [v Hv]. apply Hle. apply list_elem_of_fmap.
      exists (k, v). split; [reflexivity|]. apply elem_of_map_to_list. exact Hv.
  - apply fmap_nil_inv in Hl. apply map_to_list_empty_iff. exact Hl.
Qed.

Lemma new_rowid_fresh t k :
  (forall t' k', random_rowid t' = Some k' -> t' !! k' = None) ->
  new_rowid random_rowid t = Ok k -> t !! k = None.
Proof.
  intros Hfresh. unfold new_rowid. pose proof (max_rowid_spec t) as Hmax.
  destruct (max_rowid t) as [m|].
  - destruct Hmax as [_ Hle]. destruct (m <? 9223372036854775807).
    + intros [= <-]. destruct (t !! (m + 1)) eqn:Hl; [|reflexivity].
      specialize (Hle (m + 1) ltac:(eauto)). lia.
    + destruct (random_rowid t) as [k'|] eqn:Hr; [|discriminate].
      intros [= <-]. apply Hfresh, Hr.
  - subst t. intros _. apply lookup_empty.
Qed.

(** A stored record whose [aya_id] is [null] gets a row of its own. *)
Lemma dm_insert_ayah_null e m i s m' i' s' :
  (forall t' k', random_rowid t' = Some k' -> t' !! k' = None) ->
  k_aya_id e = Null -> has (k_sura_id e) && has (k_text e) = true ->
  dm_insert_ayah random_rowid (m, i, s) e = Ok (m', i', s') ->
  i' = i + 1 /\ s' = s /\ size m' = S (size m)
  /\ forall k row, m !! k = Some row -> m' !! k = Some row.
Proof.
  intros Hfresh Hnull Hhas. unfold dm_insert_ayah. rewrite Hnull.
  apply andb_prop in Hhas as [Hs Ht]. rewrite Hs, Ht. cbn [has get negb orb].
  destruct (bind_ayah _ _ _ _ _); cbn [bind]; [|discriminate].
  destruct (new_rowid random_rowid m) as [rowid|] eqn:Hid; cbn [bind]; [|discriminate].
  unfold put_ayah. destruct (get (k_sura_id e)); [|discriminate].
  destruct (get (k_text e)); [|discriminate]. cbn [bind].
  intros [= <- <- <-]. pose proof (new_rowid_fresh _ _ Hfresh Hid) as Hnone.
  split; [reflexivity|]. split; [reflexivity|].
  split; [apply map_size_insert_None, Hnone|].
  intros k row Hk. rewrite lookup_insert_ne; [exact Hk|]. congruence.
Qed.

End DmAyahs.

Section Pages.
Context {J : Type} (json_dumps : J -> str).

Lemma dm_insert_pages_step pages idx e rest table :
  dm_insert_pages json_dumps pages idx (e :: rest) = Ok table ->
  exists s a,
    p_sura_id e = Some s /\ p_aya_id e = Some a
    /\ dm_insert_pages json_dumps
         (<[idx := PageRow s a (segs_json json_dumps e)]> pages) (idx + 1) rest
       = Ok table.
Proof.
  cbn [dm_insert_pages]. destruct (has _ && has _); [|discriminate].
  destruct (negb _); [discriminate|]. destruct (negb _); [discriminate|].
  destruct (p_sura_id e) as [s|]; [|discriminate].
  destruct (p_aya_id e) as [a|]; [|discriminate].
  intros Hrun. exists s, a. auto.
Qed.

Lemma dm_insert_pages_app l1 : forall pages idx l2,
  dm_insert_pages json_dumps pages idx (l1 ++ l2)
  = bind (dm_insert_pages json_dumps pages idx l1)
         (fun pages' =>
            dm_insert_pages json_dumps pages' (idx + Z.of_nat (length l1)) l2).
Proof.
  induction l1 as [|e l1 IH]; intros pages idx l2.
  - cbn [app dm_insert_pages bind length]. rewrite Z.add_0_r. reflexivity.
  - cbn [app dm_insert_pages]. destruct (has _ && has _); [|reflexivity].
    destruct (negb _); [reflexivity|]. destruct (negb _); [reflexivity|].
    destruct (p_sura_id e) as [s|]; [|reflexivity].
    destruct (p_aya_id e) as [a|]; [|reflexivity].
    rewrite IH. cbn [length].
    destruct (dm_insert_pages json_dumps _ (idx + 1) l1); cbn [bind]; [|reflexivity].
    f_equal. lia.
Qed.

Lemma dm_insert_pages_below data : forall pages idx table,
  dm_insert_pages json_dumps pages idx data = Ok table ->
  forall k, k < idx -> table !! k = pages !! k.
Proof.
  induction data as [|e data IH]; intros pages idx table Hrun k Hk.
  - cbn [dm_insert_pages] in Hrun. injection Hrun as <-. reflexivity.
  - apply dm_insert_pages_step in Hrun as (s & a & _ & _ & Hrun).
    rewrite (IH _ _ _ Hrun k) by lia. apply lookup_insert_ne. lia.
Qed.

(** The page record at position [i] of the data is stored under the
    page id [idx + i]. *)
Lemma dm_insert_pages_lookup data : forall pages idx table,
  dm_insert_pages json_dumps pages idx data = Ok table ->
  forall (i : nat) e, data !! i = Some e ->
    exists s a, p_sura_id e = Some s /\ p_aya_id e = Some a
      /\ table !! (idx + Z.of_nat i) = Some (PageRow s a (segs_json json_dumps e)).
Proof.
  induction data as [|e0 data IH]; intros pages idx table Hrun i e Hi; [inversion Hi|].
  apply dm_insert_pages_step in Hrun as (s & a & Hs & Ha & Hrun).
  destruct i as [|i].
  - injection Hi as <-. exists s, a. split; [exact Hs|]. split; [exact Ha|].
    rewrite (dm_insert_pages_below _ _ _ _ Hrun) by lia.
    rewrite Z.add_0_r. apply lookup_insert_eq.
  - cbn in Hi. destruct (IH _ _ _ Hrun i e Hi) as (s' & a' & Hs' & Ha' & Hlook).
    exists s', a'. split; [exact Hs'|]. split; [exact Ha'|].
    rewrite <- Hlook. f_equal. lia.
Qed.

(** Every record of a pass gets a row of its own. *)
Lemma dm_insert_pages_size data : forall pages idx table,
  dm_insert_pages json_dumps pages idx data = Ok table ->
  (forall k, idx <= k -> pages !! k = None) ->
  size table = (size pages + length data)%nat.
Proof.
  induction data as [|e data IH]; intros pages idx table Hrun Hfree.
  - cbn [dm_insert_pages] in Hrun. injection Hrun as <-. cbn [length]. lia.
  - apply dm_insert_pages_step in Hrun as (s & a & _ & _ & Hrun).
    rewrite (IH _ _ _ Hrun).
    + rewrite map_size_insert_None by (apply Hfree; lia). cbn [length]. lia.
    + intros k Hk. rewrite lookup_insert_ne by lia. apply Hfree. lia.
Qed.

(** The pages whose insert the loop of mrg_with_base_db.py reaches. *)
Lemma mrg_insert_pages_length pages : forall t,
  length (rows (mrg_insert_pages json_dumps t pages))
  = (length (rows t)
     + length (List.filter
         (fun p => truthy_int (p_aya_id p) && truthy_int (p_sura_id p)) pages))%nat.
Proof.
  induction pages as [|p pages IH]; intros t.
  - cbn [mrg_insert_pages foldl List.filter length]. lia.
  - unfold mrg_insert_pages in *. cbn [foldl List.filter].
    rewrite IH. unfold mrg_insert_page.
    destruct (p_aya_id p) as [a|]; [|cbn [truthy_int andb]; lia].
    destruct (p_sura_id p) as [s|]; [|cbn [truthy_int]; rewrite ?andb_false_r; lia].
    destruct (truthy_int (Some a) && truthy_int (Some s)); [|lia].
    cbn [rows length]. rewrite length_app. cbn [length]. lia.
Qed.

End Pages.

Lemma foldl_upsert_doubled {X K V : Type} `{Countable K}
    (step : gmap K V -> X -> gmap K V) :
  (forall x, (forall m, step m x = m) \/ (exists k v, forall m, step m x = <[k:=v]> m)) ->
  forall l m, foldl step m (l ++ l) = foldl step m l.
Proof. intros Hstep l m. rewrite foldl_app. apply foldl_upsert_twice, Hstep. Qed.

Lemma transfer_doubled tafsir rows :
  (transfer tafsir (rows ++ rows)).1 = (transfer tafsir rows).1.
Proof.
  unfold transfer. rewrite !transfer_table.
  apply foldl_upsert_doubled. intros [[sura aya] col].
  unfold transfer_row. destruct (truthy (clean_text _)).
  - right. eexists _, _. intros m. reflexivity.
  - left. intros m. reflexivity.
Qed.




(** What the merges do with the same content twice, on one record each:
    the ayahs loop of database_manage.py stores a record with a [null]
    id twice, its pages loop stores a page twice. *)
Lemma dm_merges_twice_examples :
  dm_insert_ayahs (fun _ => None) ∅
    [AyahEntry Null (Val 1) Absent (Val (lit "a")) Absent]
  = Ok ({[1 := AyahRow 1 (Some 0) (lit "a") None]}, 1, 0)
  /\ dm_insert_ayahs (fun _ => None) ∅
       [AyahEntry Null (Val 1) Absent (Val (lit "a")) Absent;
        AyahEntry Null (Val 1) Absent (Val (lit "a")) Absent]
     = Ok (<[2 := AyahRow 1 (Some 0) (lit "a") None]>
             {[1 := AyahRow 1 (Some 0) (lit "a") None]}, 2, 0)
  /\ dm_pages (fun _ : unit => lit "null") ∅
       [PageEntry (Val 5) (Val 2) None; PageEntry (Val 5) (Val 2) None]
     = Ok (<[2 := PageRow 2 5 (lit "[]")]> {[1 := PageRow 2 5 (lit "[]")]}).
Proof. repeat split; vm_compute; reflexivity. Qed.

(** C9, where database_manage.py goes wrong. A page record without
    [sura_id] or [aya_id] makes its pages loop raise [KeyError] when the
    loop comes to it: the record is not passed over and the batch stops,
    so that a batch with such a record never succeeds. The other three
    loops pass such a record over: the ayahs loop of the same script,
    counting it as skipped, and both loops of mrg_with_base_db.py. *)
Theorem dm_pages_missing_key_raises {J : Type} (json_dumps : J -> str)
    (random_rowid : gmap Z ayah_row -> option Z) :
  (forall pages before e after table,
     dm_pages json_dumps pages before = Ok table ->
     pk_sura_id e = Absent \/ pk_aya_id e = Absent ->
     dm_pages json_dumps pages (before ++ e :: after) = Raise KeyError)
  /\ (forall pages data,
       (exists e, e ∈ data /\ (pk_sura_id e = Absent \/ pk_aya_id e = Absent)) ->
       exists err, dm_pages json_dumps pages data = Raise err)
  /\ (forall ayahs inserted skipped e,
       k_aya_id e = Absent \/ k_sura_id e = Absent ->
       dm_insert_ayah random_rowid (ayahs, inserted, skipped) e
       = Ok (ayahs, inserted, skipped + 1))
  /\ (forall ayahs e,
       e_aya_id e = None \/ e_sura_id e = None -> mrg_insert_ayah ayahs e = Ok ayahs)
  /\ (forall t p,
       p_aya_id p = None \/ p_sura_id p = None ->
       mrg_insert_page json_dumps t p = t).
Proof.
  split.
  { intros pages before e after table Hrun Hmiss. unfold dm_pages in *.
    rewrite dm_insert_pages_app, Hrun. cbn [bind dm_insert_pages].
    destruct Hmiss as [-> | ->]; cbn [has andb]; [reflexivity|].
    rewrite andb_false_r. reflexivity. }
  split.
  { intros pages data (e & Hin & Hmiss). unfold dm_pages.
    destruct (dm_insert_pages json_dumps pages 1 data) as [table|err] eqn:Hrun; [|eauto].
    exfalso. apply list_elem_of_lookup in Hin as (i & Hi).
    destruct (dm_insert_pages_lookup json_dumps _ _ _ _ Hrun i e Hi)
      as (s & a & Hs & Ha & _).
    unfold p_sura_id, p_aya_id in Hs, Ha.
    destruct Hmiss as [H|H]; rewrite H in *; discriminate. }
  split.
  { intros ayahs inserted skipped e [H|H]; unfold dm_insert_ayah; rewrite H;
      cbn [has negb orb]; [reflexivity|]. rewrite orb_true_r. reflexivity. }
  split.
  { intros ayahs e [H|H]; unfold mrg_insert_ayah; rewrite H;
      [|destruct (e_aya_id e)]; reflexivity. }
  intros t p [H|H]; unfold mrg_insert_page; rewrite H;
    [|destruct (p_aya_id p)]; reflexivity.
Qed.

Lemma dm_pages_missing_key_raises_witness :
  dm_pages (fun _ : unit => lit "null") ∅
    [PageEntry (Val 1) (Val 1) None; PageEntry (Val 2) Absent None]
  = Raise KeyError.
Proof.
  apply (proj1 (dm_pages_missing_key_raises (fun _ : unit => lit "null") (fun _ => None))
           ∅ [PageEntry (Val 1) (Val 1) None] (PageEntry (Val 2) Absent None) []
           {[1 := PageRow 1 1 (lit "[]")]}).
  - reflexivity.
  - left. reflexivity.
Defined.

End Merges.

Section Substitution.
Import PyStr Tafsir.

Lemma re_sub_from_skip m r s : forall k,
  re_sub_from m r k s = re_sub m r (drop k s).
Proof.
  induction s as [|c s IH]; intros [|k]; try reflexivity.
  cbn [re_sub_from drop]. apply IH.
Qed.

Lemma re_sub_keep m r c s :
  m (c :: s) = None \/ m (c :: s) = Some O ->
  re_sub m r (c :: s) = c :: re_sub m r s.
Proof.
  intros H. unfold re_sub. cbn [re_sub_from].
  destruct H as [-> | ->]; reflexivity.
Qed.

Lemma re_sub_match m r c s n :
  m (c :: s) = Some (S n) ->
  re_sub m r (c :: s) = r ++ re_sub m r (drop n s).
Proof.
  intros H. unfold re_sub at 1. cbn [re_sub_from]. rewrite H.
  rewrite re_sub_from_skip. reflexivity.
Qed.

(** Reasoning on a substitution follows the scan: a character kept, or
    a match replaced and the scan resumed after it. *)
Lemma re_sub_rel m r (P : str -> str -> Prop) :
  P [] [] ->
  (forall c s t,
     m (c :: s) = None \/ m (c :: s) = Some O -> P s t -> P (c :: s) (c :: t)) ->
  (forall c s n t,
     m (c :: s) = Some (S n) -> P (drop n s) t -> P (c :: s) (r ++ t)) ->
  forall s, P s (re_sub m r s).
Proof.
  intros Hnil Hkeep Hmatch s.
  remember (length s) as len eqn:Hlen.
  revert s Hlen. induction len as [len IH] using lt_wf_ind. intros s Hlen.
  destruct s as [|c s]; [exact Hnil|].
  destruct (m (c :: s)) as [[|n]|] eqn:Hm.
  - rewrite re_sub_keep by (right; exact Hm).
    apply Hkeep; [right; exact Hm|].
    apply (IH (length s)); [simpl in Hlen; lia|reflexivity].
  - rewrite (re_sub_match _ _ _ _ _ Hm).
    apply (Hmatch _ _ _ _ Hm).
    apply (IH (length (drop n s))); [|reflexivity].
    rewrite length_drop. simpl in Hlen. lia.
  - rewrite re_sub_keep by (left; exact Hm).
    apply Hkeep; [left; exact Hm|].
    apply (IH (length s)); [simpl in Hlen; lia|reflexivity].
Qed.

(** A text in which every match is a copy of the replacement is left as
    it is. *)
Lemma re_sub_fixed m r s :
  (forall i n, m (drop i s) = Some (S n) -> take (S n) (drop i s) = r) ->
  re_sub m r s = s.
Proof.
  remember (length s) as len eqn:Hlen.
  revert s Hlen. induction len as [len IH] using lt_wf_ind. intros s Hlen Hfix.
  destruct s as [|c s]; [reflexivity|].
  destruct (m (c :: s)) as [[|n]|] eqn:Hm.
  - rewrite re_sub_keep by (right; exact Hm). f_equal.
    apply (IH (length s)); [simpl in Hlen; lia|reflexivity|].
    intros i k Hk. apply (Hfix (S i) k Hk).
  - rewrite (re_sub_match _ _ _ _ _ Hm).
    pose proof (Hfix O n Hm) as Hr. cbn [drop] in Hr.
    rewrite (IH (length (drop n s))); [|rewrite length_drop; simpl in Hlen; lia
                                      |reflexivity|].
    + rewrite <- Hr. change (drop n s) with (drop (S n) (c :: s)).
      apply take_drop.
    + intros i k Hk. rewrite drop_drop in Hk |- *.
      apply (Hfix (S (n + i)) k Hk).
  - rewrite re_sub_keep by (left; exact Hm). f_equal.
    apply (IH (length s)); [simpl in Hlen; lia|reflexivity|].
    intros i k Hk. apply (Hfix (S i) k Hk).
Qed.

(** *** Runs *)

Lemma run_bound p s : (run p s <= length s)%nat.
Proof. induction s as [|c s IH]; cbn [run length]; [lia|]. destruct (p c); lia. Qed.

Lemma after_last_nl_bound s j : after_last_nl s = Some j -> (1 <= j <= length s)%nat.
Proof.
  revert j. induction s as [|c s IH]; intros j; [discriminate|].
  cbn [after_last_nl length]. destruct (after_last_nl s) as [j'|].
  - intros [= <-]. specialize (IH j' eq_refl). lia.
  - destruct (is_nl c); [|discriminate]. intros [= <-]. lia.
Qed.

Lemma run_take p s : forallb p (take (run p s) s) = true.
Proof.
  induction s as [|c s IH]; [reflexivity|].
  cbn [run]. destruct (p c) eqn:Hc; [|reflexivity].
  cbn [take forallb]. rewrite Hc, IH. reflexivity.
Qed.

Lemma run_drop_head p s c t : drop (run p s) s = c :: t -> p c = false.
Proof.
  induction s as [|d s IH]; cbn [run]; [discriminate|].
  destruct (p d) eqn:Hd.
  - cbn [drop]. exact IH.
  - cbn [drop]. intros [= <- _]. exact Hd.
Qed.

Lemma run_all p s : forallb p s = true -> drop (run p s) s = [].
Proof.
  induction s as [|d s IH]; [reflexivity|].
  cbn [forallb run]. intros [Hd Hs]%andb_prop. rewrite Hd. cbn [drop]. auto.
Qed.

Lemma run_drop_nil p s : drop (run p s) s = [] -> forallb p s = true.
Proof.
  induction s as [|d s IH]; [reflexivity|].
  cbn [run forallb]. destruct (p d); cbn [drop]; [exact IH|discriminate].
Qed.

Lemma run_zero p s : run p s = O -> s = [] \/ exists c t, s = c :: t /\ p c = false.
Proof.
  destruct s as [|c t]; [left; reflexivity|].
  cbn [run]. destruct (p c) eqn:Hc; [discriminate|]. right. eauto.
Qed.

Lemma forallb_drop {A : Type} (p : A -> bool) n (s : list A) :
  forallb p s = true -> forallb p (drop n s) = true.
Proof.
  revert n. induction s as [|c s IH]; intros [|n]; try (intros; reflexivity || assumption).
  cbn [forallb drop]. intros [_ Hs]%andb_prop. apply IH. exact Hs.
Qed.

End Substitution.

Section Markup.
Import PyStr Tafsir Normal.

Lemma no_markup_drop n s : no_markup s = true -> no_markup (drop n s) = true.
Proof.
  revert n. induction s as [|c s IH]; intros [|n]; try (intros; reflexivity || assumption).
  cbn [no_markup drop]. intros [_ Hs]%andb_prop. apply IH. exact Hs.
Qed.

Lemma no_markup_app_l r t :
  forallb (fun c => negb (is_lt c)) r = true ->
  no_markup t = true -> no_markup (r ++ t) = true.
Proof.
  intros Hr Ht. induction r as [|c r IH]; [exact Ht|].
  cbn [forallb] in Hr. apply andb_prop in Hr as [Hc Hr].
  cbn [app no_markup]. rewrite Hc, (IH Hr). reflexivity.
Qed.

Lemma opens_no_tag_app a w : a <> [] -> opens_no_tag (a ++ w) = true -> opens_no_tag a = true.
Proof.
  destruct a as [|d a]; [congruence|]. intros _.
  cbn [app opens_no_tag]. intros [H|H]%orb_prop; [rewrite H; reflexivity|].
  change (d :: a ++ w) with ((d :: a) ++ w) in H.
  rewrite forallb_app in H. apply andb_prop in H as [H _].
  rewrite H. apply orb_true_r.
Qed.

Lemma no_markup_app_r a w : no_markup (a ++ w) = true -> no_markup a = true.
Proof.
  induction a as [|c a IH]; [reflexivity|].
  cbn [app no_markup]. intros [Hc Ha]%andb_prop. rewrite (IH Ha), andb_true_r.
  apply orb_prop in Hc as [Hc|Hc]; [rewrite Hc; reflexivity|].
  destruct a as [|d a]; [apply orb_true_r|].
  rewrite (opens_no_tag_app (d :: a) w); [apply orb_true_r|discriminate|exact Hc].
Qed.

Lemma follows_opens s t : follows s t -> opens_no_tag s = true -> opens_no_tag t = true.
Proof.
  intros (Hnil & Hhead & Hall) Hs.
  destruct s as [|d s]; [rewrite Hnil; reflexivity|].
  cbn [opens_no_tag] in Hs. apply orb_prop in Hs as [Hs|Hs].
  - specialize (Hhead Hs). destruct t as [|e t]; [discriminate|].
    cbn [head_is] in Hhead. cbn [opens_no_tag]. rewrite Hhead. reflexivity.
  - specialize (Hall Hs). destruct t as [|e t]; [reflexivity|].
    cbn [opens_no_tag]. rewrite Hall. apply orb_true_r.
Qed.

Lemma follows_keep c s t : follows s t -> follows (c :: s) (c :: t).
Proof.
  intros (Hnil & Hhead & Hall). split; [discriminate|]. split; [auto|].
  cbn [forallb]. intros [Hc Hs]%andb_prop. rewrite Hc, (Hall Hs). reflexivity.
Qed.

Lemma follows_match c s n r t :
  is_gt c = false -> forallb not_gt r = true ->
  follows (drop n s) t -> follows (c :: s) (r ++ t).
Proof.
  intros Hc Hr (Hnil & Hhead & Hall). split; [discriminate|].
  split; [cbn [head_is]; congruence|].
  cbn [forallb]. intros [_ Hs]%andb_prop. rewrite forallb_app, Hr.
  apply Hall, forallb_drop, Hs.
Qed.

Lemma m_tag_some c s n :
  m_tag (c :: s) = Some n ->
  is_lt c = true /\ forallb not_gt s = false /\ exists k, n = S k.
Proof.
  cbn [m_tag]. destruct (is_lt c); [|discriminate].
  destruct (run not_gt s) as [|k] eqn:Hk; [discriminate|].
  destruct (drop (S k) s) as [|g rest] eqn:Hd; [discriminate|].
  intros [= <-]. split; [reflexivity|]. split; [|eauto].
  destruct (forallb not_gt s) eqn:Hall; [|reflexivity].
  apply run_all in Hall. rewrite Hk, Hd in Hall. discriminate.
Qed.

Lemma m_tag_none c s :
  m_tag (c :: s) = None -> is_lt c = true -> opens_no_tag s = true.
Proof.
  cbn [m_tag]. intros H Hc. rewrite Hc in H.
  destruct (run not_gt s) as [|k] eqn:Hk.
  - apply run_zero in Hk as [->|(d & t & -> & Hd)]; [reflexivity|].
    cbn [opens_no_tag]. unfold not_gt in Hd. apply negb_false_iff in Hd.
    rewrite Hd. reflexivity.
  - destruct (drop (S k) s) as [|g rest] eqn:Hd; [|discriminate].
    rewrite <- Hk in Hd. apply run_drop_nil in Hd.
    destruct s as [|d s]; [reflexivity|].
    cbn [opens_no_tag]. rewrite Hd. apply orb_true_r.
Qed.

(** After the tag substitution no tag is left. *)
Lemma no_markup_sub_tag s : no_markup (re_sub m_tag [] s) = true.
Proof.
  enough (H : no_markup (re_sub m_tag [] s) = true /\ follows s (re_sub m_tag [] s))
    by apply H.
  apply (re_sub_rel m_tag [] (fun s t => no_markup t = true /\ follows s t)).
  - split; [reflexivity|]. repeat split; auto.
  - intros c s' t Hm [Ht Hf]. split; [|apply follows_keep, Hf].
    cbn [no_markup]. rewrite Ht, andb_true_r.
    destruct (is_lt c) eqn:Hc; [|reflexivity]. cbn [negb orb].
    apply (follows_opens s' t Hf).
    destruct Hm as [Hm|Hm].
    + apply (m_tag_none c s' Hm Hc).
    + apply m_tag_some in Hm as (_ & _ & k & Hk). discriminate.
  - intros c s' n t Hm [Ht Hf]. split; [exact Ht|].
    apply m_tag_some in Hm as (Hc & Hgt & _).
    cbn [app]. split; [discriminate|]. split.
    + cbn [head_is]. unfold is_lt in Hc. unfold is_gt.
      apply N.eqb_eq in Hc. subst c. discriminate.
    + cbn [forallb]. rewrite Hgt, andb_false_r. discriminate.
Qed.

(** A substitution that never starts a match at a [>] and writes
    neither [<] nor [>] brings no tag in. *)
Lemma no_markup_sub m r :
  (forall c s n, m (c :: s) = Some (S n) -> is_gt c = false) ->
  forallb (fun c => negb (is_lt c)) r = true ->
  forallb not_gt r = true ->
  forall s, no_markup s = true -> no_markup (re_sub m r s) = true.
Proof.
  intros Hm Hlt Hgt s.
  enough (H : (no_markup s = true -> no_markup (re_sub m r s) = true)
              /\ follows s (re_sub m r s)) by apply H.
  apply (re_sub_rel m r (fun s t => (no_markup s = true -> no_markup t = true)
                                    /\ follows s t)).
  - split; [auto|]. repeat split; auto.
  - intros c s' t _ [Ht Hf]. split; [|apply follows_keep, Hf].
    cbn [no_markup]. intros [Hc Hs]%andb_prop. rewrite (Ht Hs), andb_true_r.
    apply orb_prop in Hc as [Hc|Hc]; [rewrite Hc; reflexivity|].
    rewrite (follows_opens s' t Hf Hc). apply orb_true_r.
  - intros c s' n t Hmatch [Ht Hf]. split.
    + intros Hs. apply no_markup_app_l; [exact Hlt|]. apply Ht.
      apply (no_markup_drop (S n) (c :: s') Hs).
    + apply (follows_match c s' n); [exact (Hm _ _ _ Hmatch)|exact Hgt|exact Hf].
Qed.

End Markup.

Section Strip.
Import PyStr Tafsir Normal.

Lemma lstrip_drop s : lstrip s = drop (run isspace s) s.
Proof.
  induction s as [|c s IH]; [reflexivity|].
  cbn [lstrip run]. destruct (isspace c); [exact IH|reflexivity].
Qed.

Lemma lstrip_head s : head_is isspace (lstrip s) = false.
Proof.
  induction s as [|c s IH]; [reflexivity|].
  cbn [lstrip]. destruct (isspace c) eqn:Hc; [exact IH|].
  cbn [head_is]. exact Hc.
Qed.

Lemma lstrip_fixed s : head_is isspace s = false -> lstrip s = s.
Proof. destruct s as [|c s]; [reflexivity|]. cbn [head_is lstrip]. intros ->. reflexivity. Qed.

Lemma lstrip_split s :
  exists w, s = w ++ lstrip s /\ forallb isspace w = true.
Proof.
  exists (take (run isspace s) s). split.
  - rewrite lstrip_drop. symmetry. apply take_drop.
  - apply run_take.
Qed.

Lemma rstrip_split s :
  exists w, s = rstrip s ++ w /\ forallb isspace w = true.
Proof.
  destruct (lstrip_split (rev s)) as (w & Hw & Hall).
  exists (rev w). split.
  - unfold rstrip. rewrite <- rev_app_distr, <- Hw, rev_involutive. reflexivity.
  - rewrite forallb_forall in Hall |- *. intros x Hx. apply Hall.
    apply in_rev. exact Hx.
Qed.

Lemma lstrip_nil s : forallb isspace s = true -> lstrip s = [].
Proof. intros H. rewrite lstrip_drop. apply run_all, H. Qed.

Lemma rstrip_idem s : rstrip (rstrip s) = rstrip s.
Proof.
  unfold rstrip. rewrite rev_involutive.
  rewrite (lstrip_fixed (lstrip (rev s))) by apply lstrip_head. reflexivity.
Qed.

Lemma rstrip_head s : head_is isspace s = false -> head_is isspace (rstrip s) = false.
Proof.
  intros Hs. destruct (rstrip_split s) as (w & Hw & _).
  destruct (rstrip s) as [|c a]; [reflexivity|].
  rewrite Hw in Hs. exact Hs.
Qed.

Lemma strip_idem s : strip (strip s) = strip s.
Proof.
  unfold strip.
  rewrite (lstrip_fixed (rstrip (lstrip s))) by apply rstrip_head, lstrip_head.
  apply rstrip_idem.
Qed.

Lemma strip_head s : head_is isspace (strip s) = false.
Proof. apply rstrip_head, lstrip_head. Qed.

Lemma strip_last s : head_is isspace (rev (strip s)) = false.
Proof. unfold strip, rstrip. rewrite rev_involutive. apply lstrip_head. Qed.

(** The text that [strip] empties is the text made of whitespace. *)
Lemma strip_nil s : strip s = [] <-> forallb isspace s = true.
Proof.
  split.
  - intros H. destruct (lstrip_split s) as (w & Hw & Hall).
    destruct (rstrip_split (lstrip s)) as (w' & Hw' & Hall').
    unfold strip in H. rewrite H in Hw'. cbn [app] in Hw'.
    rewrite Hw, Hw', forallb_app, Hall, Hall'. reflexivity.
  - intros H. unfold strip. rewrite (lstrip_nil s H). reflexivity.
Qed.

(** [strip] cuts a text out of the middle of its argument. *)
Lemma strip_split s : exists w w', s = w ++ strip s ++ w'.
Proof.
  destruct (lstrip_split s) as (w & Hw & _).
  destruct (rstrip_split (lstrip s)) as (w' & Hw' & _).
  exists w, w'. unfold strip. rewrite <- Hw'. exact Hw.
Qed.

End Strip.

Section Spaces.
Import PyStr Tafsir Normal.

Lemma m_hspace_some c s n :
  m_hspace (c :: s) = Some n ->
  exists k, n = S k /\ is_hspace c = true
            /\ forallb is_hspace (take k s) = true
            /\ head_is is_hspace (drop k s) = false.
Proof.
  unfold m_hspace. cbn [run]. destruct (is_hspace c) eqn:Hc; [|discriminate].
  intros [= <-]. exists (run is_hspace s). split; [reflexivity|].
  split; [reflexivity|]. split; [apply run_take|].
  destruct (drop (run is_hspace s) s) as [|d t] eqn:Hd; [reflexivity|].
  cbn [head_is]. apply (run_drop_head _ _ _ _ Hd).
Qed.

Lemma m_hspace_none c s : m_hspace (c :: s) = None -> is_hspace c = false.
Proof.
  unfold m_hspace. cbn [run]. destruct (is_hspace c); [discriminate|reflexivity].
Qed.

Lemma is_hspace_false c : is_hspace c = false -> (c =? 32)%N = false /\ (c =? 9)%N = false.
Proof. unfold is_hspace. intros H. apply orb_false_elim in H. exact H. Qed.

(** After the substitution of horizontal whitespace, it is single
    spaces. *)
Lemma single_spaces_sub s : single_spaces (re_sub m_hspace [32%N] s) = true.
Proof.
  enough (H : single_spaces (re_sub m_hspace [32%N] s) = true
              /\ (head_is is_hspace s = false ->
                  head_is is_hspace (re_sub m_hspace [32%N] s) = false))
    by apply H.
  apply (re_sub_rel m_hspace [32%N]
           (fun s t => single_spaces t = true
                       /\ (head_is is_hspace s = false -> head_is is_hspace t = false))).
  - split; reflexivity.
  - intros c s' t Hm [Ht Hh].
    assert (Hc : is_hspace c = false).
    { destruct Hm as [Hm|Hm]; [exact (m_hspace_none c s' Hm)|].
      apply m_hspace_some in Hm as (k & Hk & _). discriminate. }
    split; [|intros _; exact Hc].
    destruct (is_hspace_false c Hc) as [H32 H9].
    cbn [single_spaces]. rewrite H32, H9, Ht. reflexivity.
  - intros c s' n t Hm [Ht Hh].
    apply m_hspace_some in Hm as (k & [= <-] & Hc & _ & Hd).
    split; [|cbn [head_is]; congruence].
    specialize (Hh Hd). cbn [app single_spaces]. rewrite Ht.
    destruct t as [|d t]; [reflexivity|].
    cbn [head_is] in Hh |- *. destruct (is_hspace_false d Hh) as [H32 _].
    rewrite H32. reflexivity.
Qed.

Lemma single_spaces_drop n s : single_spaces s = true -> single_spaces (drop n s) = true.
Proof.
  revert n. induction s as [|c s IH]; intros [|n]; try (intros; reflexivity || assumption).
  cbn [single_spaces drop]. intros [_ Hs]%andb_prop. apply IH. exact Hs.
Qed.

Lemma single_spaces_app_r a w : single_spaces (a ++ w) = true -> single_spaces a = true.
Proof.
  induction a as [|c a IH]; [reflexivity|].
  cbn [app single_spaces]. intros [Hc Ha]%andb_prop. rewrite (IH Ha), andb_true_r.
  apply andb_prop in Hc as [H9 H32]. rewrite H9. cbn [andb].
  destruct a as [|d a]; [cbn [head_is]; rewrite andb_false_r; reflexivity|exact H32].
Qed.

(** In a text of single spaces, the pattern of horizontal whitespace
    matches single spaces only. *)
Lemma single_spaces_match s n :
  single_spaces s = true -> m_hspace s = Some n -> take n s = [32%N].
Proof.
  destruct s as [|c s]; [discriminate|].
  cbn [single_spaces]. intros [[H9 H32]%andb_prop Hs]%andb_prop Hm.
  unfold m_hspace in Hm. cbn [run] in Hm.
  destruct (is_hspace c) eqn:Hc; [|discriminate].
  apply negb_true_iff in H9. unfold is_hspace in Hc. rewrite H9, orb_false_r in Hc.
  apply N.eqb_eq in Hc. subst c. cbn [N.eqb Pos.eqb andb] in H32.
  assert (Hrun : run is_hspace s = O).
  { destruct s as [|d s]; [reflexivity|]. cbn [run head_is] in H32 |- *.
    cbn [single_spaces] in Hs. apply andb_prop in Hs as [[Hd9 _]%andb_prop _].
    apply negb_true_iff in H32, Hd9. unfold is_hspace. rewrite H32, Hd9. reflexivity. }
  rewrite Hrun in Hm. injection Hm as <-. reflexivity.
Qed.

End Spaces.

Section BlankLines.
Import PyStr Tafsir Normal.

Lemma is_nl_isspace c : is_nl c = true -> isspace c = true.
Proof. unfold is_nl. intros ->%N.eqb_eq. reflexivity. Qed.

Lemma is_hspace_isspace c : is_hspace c = true -> isspace c = true /\ is_nl c = false.
Proof.
  unfold is_hspace. intros [->%N.eqb_eq| ->%N.eqb_eq]%orb_prop; split; reflexivity.
Qed.

Lemma after_last_nl_leading s :
  after_last_nl (take (run isspace s) s) = None <-> leading_nl s = false.
Proof.
  induction s as [|c s IH]; [split; reflexivity|].
  cbn [run leading_nl]. destruct (isspace c) eqn:Hc; [|split; reflexivity].
  cbn [take after_last_nl andb].
  destruct (after_last_nl (take (run isspace s) s)) as [j|].
  - split; [discriminate|]. intros H. apply orb_false_elim in H as [_ H].
    apply IH in H. discriminate.
  - destruct IH as [IH _]. rewrite (IH eq_refl), orb_false_r.
    destruct (is_nl c); split; congruence.
Qed.

Lemma after_last_nl_drop s j :
  after_last_nl (take (run isspace s) s) = Some j -> leading_nl (drop j s) = false.
Proof.
  revert j. induction s as [|c s IH]; intros j; [discriminate|].
  cbn [run]. destruct (isspace c) eqn:Hc; [|discriminate].
  cbn [take after_last_nl].
  destruct (after_last_nl (take (run isspace s) s)) as [j'|] eqn:Hj.
  - intros [= <-]. cbn [drop]. apply IH. reflexivity.
  - destruct (is_nl c); [|discriminate]. intros [= <-]. cbn [drop].
    apply after_last_nl_leading. exact Hj.
Qed.

Lemma m_blank_some c s n :
  m_blank (c :: s) = Some n ->
  exists j, n = S j /\ is_nl c = true
            /\ after_last_nl (take (run isspace s) s) = Some j.
Proof.
  cbn [m_blank]. destruct (is_nl c); [|discriminate].
  destruct (after_last_nl _) as [j|]; [|discriminate].
  intros [= <-]. exists j. repeat split.
Qed.

Lemma m_blank_none c s :
  m_blank (c :: s) = None -> is_nl c = true -> leading_nl s = false.
Proof.
  cbn [m_blank]. intros H Hc. rewrite Hc in H.
  apply after_last_nl_leading.
  destruct (after_last_nl _); [discriminate|reflexivity].
Qed.

(** After the substitution of blank lines, no run of whitespace holds
    more than one blank line. *)
Lemma blank_lines_sub s : blank_lines_ok NoNl (re_sub m_blank [10%N; 10%N] s) = true.
Proof.
  enough (H : blank_lines_ok NoNl (re_sub m_blank [10%N; 10%N] s) = true
              /\ (leading_nl s = false ->
                  forall q, blank_lines_ok q (re_sub m_blank [10%N; 10%N] s) = true))
    by apply (proj1 H).
  apply (re_sub_rel m_blank [10%N; 10%N]
           (fun s t => blank_lines_ok NoNl t = true
                       /\ (leading_nl s = false -> forall q, blank_lines_ok q t = true))).
  - split; reflexivity.
  - intros c s' t Hm [Ht Hl].
    assert (Hnone : m_blank (c :: s') = None).
    { destruct Hm as [Hm|Hm]; [exact Hm|].
      apply m_blank_some in Hm as (j & Hj & _). discriminate. }
    split.
    + cbn [blank_lines_ok]. destruct (is_nl c) eqn:Hc.
      * apply Hl. apply (m_blank_none c s' Hnone Hc).
      * destruct (isspace c); exact Ht.
    + cbn [leading_nl]. intros Hlead q. cbn [blank_lines_ok].
      destruct (is_nl c) eqn:Hc.
      * rewrite (is_nl_isspace c Hc) in Hlead. discriminate.
      * destruct (isspace c); [|exact Ht]. cbn [andb orb] in Hlead.
        apply Hl. exact Hlead.
  - intros c s' n t Hm [Ht Hl].
    apply m_blank_some in Hm as (j & [= <-] & Hc & Hj).
    split.
    + cbn [app blank_lines_ok is_nl N.eqb Pos.eqb].
      apply Hl. apply after_last_nl_drop. exact Hj.
    + cbn [leading_nl]. rewrite Hc, (is_nl_isspace c Hc). discriminate.
Qed.

Lemma blank_lines_two_one s :
  blank_lines_ok TwoNl s = true -> blank_lines_ok OneNl s = true.
Proof.
  destruct s as [|c s]; [reflexivity|]. cbn [blank_lines_ok].
  destruct (is_nl c); [discriminate|]. auto.
Qed.

(** The state before any newline accepts whatever another state
    accepts. *)
Lemma blank_lines_weaken s : forall q,
  blank_lines_ok q s = true -> blank_lines_ok NoNl s = true.
Proof.
  induction s as [|c s IH]; intros q; [reflexivity|].
  cbn [blank_lines_ok]. destruct (is_nl c).
  - destruct q; try discriminate; [auto|]. apply blank_lines_two_one.
  - destruct (isspace c); [|auto]. apply IH.
Qed.

Lemma blank_lines_drop n s : forall q,
  blank_lines_ok q s = true -> blank_lines_ok NoNl (drop n s) = true.
Proof.
  revert s. induction n as [|n IH]; intros s q; [apply blank_lines_weaken|].
  destruct s as [|c s]; [reflexivity|].
  cbn [drop blank_lines_ok]. destruct (is_nl c).
  - destruct q; try discriminate; apply IH.
  - destruct (isspace c); apply IH.
Qed.

Lemma blank_lines_app_r a w : forall q,
  blank_lines_ok q (a ++ w) = true -> blank_lines_ok q a = true.
Proof.
  induction a as [|c a IH]; intros q; [reflexivity|].
  cbn [app blank_lines_ok]. destruct (is_nl c).
  - destruct q; try discriminate; apply IH.
  - destruct (isspace c); apply IH.
Qed.

(** Horizontal whitespace moves the scan to the state that other
    whitespace leads to, however long it is. *)
Lemma blank_lines_hspace w s : forall q,
  w <> [] -> forallb is_hspace w = true ->
  blank_lines_ok q (w ++ s)
  = blank_lines_ok (match q with NoNl => NoNl | _ => AfterNl end) s.
Proof.
  induction w as [|c w IH]; intros q Hne Hall; [congruence|].
  cbn [forallb] in Hall. apply andb_prop in Hall as [Hc Hw].
  destruct (is_hspace_isspace c Hc) as [Hsp Hnl].
  cbn [app blank_lines_ok]. rewrite Hnl, Hsp.
  destruct w as [|d w]; [reflexivity|].
  rewrite IH by (discriminate || exact Hw). destruct q; reflexivity.
Qed.

(** The substitution of horizontal whitespace keeps the blank lines as
    they are. *)
Lemma blank_lines_sub_hspace s : forall q,
  blank_lines_ok q s = true -> blank_lines_ok q (re_sub m_hspace [32%N] s) = true.
Proof.
  apply (re_sub_rel m_hspace [32%N]
           (fun s t => forall q, blank_lines_ok q s = true -> blank_lines_ok q t = true)).
  - auto.
  - intros c s' t _ IH q. cbn [blank_lines_ok]. destruct (is_nl c).
    + destruct q; try discriminate; apply IH.
    + destruct (isspace c); apply IH.
  - intros c s' n t Hm IH q Hq.
    apply m_hspace_some in Hm as (k & [= <-] & Hc & Hall & _).
    rewrite <- (take_drop n s') in Hq.
    change (c :: take n s' ++ drop n s') with ((c :: take n s') ++ drop n s') in Hq.
    rewrite blank_lines_hspace in Hq
      by (discriminate || (cbn [forallb]; rewrite Hc, Hall; reflexivity)).
    rewrite (blank_lines_hspace [32%N] t q) by (discriminate || reflexivity).
    apply IH. exact Hq.
Qed.

Lemma blank_lines_no_more s : forall q,
  q = TwoNl \/ q = AfterNl ->
  blank_lines_ok q s = true -> after_last_nl (take (run isspace s) s) = None.
Proof.
  induction s as [|c s IH]; intros q Hq; [reflexivity|].
  cbn [blank_lines_ok run]. destruct (isspace c) eqn:Hsp.
  - destruct (is_nl c) eqn:Hnl; [destruct Hq as [-> | ->]; discriminate|].
    intros H. cbn [take after_last_nl]. rewrite Hnl.
    rewrite (IH AfterNl); [reflexivity|right; reflexivity|].
    destruct Hq as [-> | ->]; exact H.
  - reflexivity.
Qed.

(** In a text with at most one blank line per run, the pattern of blank
    lines matches two newlines only. *)
Lemma blank_lines_match s n q :
  blank_lines_ok q s = true -> m_blank s = Some n -> take n s = [10%N; 10%N].
Proof.
  destruct s as [|c s]; [discriminate|].
  intros Hq Hm. apply m_blank_some in Hm as (j & -> & Hc & Hj).
  cbn [blank_lines_ok] in Hq. rewrite Hc in Hq.
  assert (H1 : blank_lines_ok OneNl s = true).
  { destruct q; try discriminate; [exact Hq|apply blank_lines_two_one, Hq]. }
  clear Hq. apply N.eqb_eq in Hc. subst c.
  destruct s as [|d s]; [discriminate|].
  cbn [run] in Hj. destruct (isspace d) eqn:Hsp; [|discriminate].
  cbn [take after_last_nl] in Hj. cbn [blank_lines_ok] in H1.
  destruct (is_nl d) eqn:Hnl.
  - rewrite (blank_lines_no_more s TwoNl) in Hj by (auto || exact H1).
    injection Hj as <-. apply N.eqb_eq in Hnl. subst d. reflexivity.
  - rewrite Hsp in H1.
    rewrite (blank_lines_no_more s AfterNl) in Hj by (auto || exact H1).
    discriminate.
Qed.

End BlankLines.

Section CleanText.
Import PyStr Tafsir Normal Normalization.

Lemma no_markup_no_tag s : no_markup s = true -> m_tag s = None.
Proof.
  destruct s as [|c s]; [reflexivity|].
  intros H. cbn [no_markup] in H. apply andb_prop in H as [Hc _].
  unfold m_tag. destruct (is_lt c); [|reflexivity]. cbn [negb orb] in Hc.
  cbv zeta. destruct s as [|d s]; [reflexivity|]. cbn [opens_no_tag] in Hc.
  apply orb_prop in Hc as [Hd|Hall].
  - cbn [run]. unfold not_gt at 1. rewrite Hd. reflexivity.
  - pose proof (run_all _ _ Hall) as Hr.
    destruct (run not_gt (d :: s)) as [|n] eqn:Hk; [reflexivity|].
    rewrite Hr. reflexivity.
Qed.

Lemma no_markup_no_br s : no_markup s = true -> m_br s = None.
Proof.
  destruct s as [|c0 [|c1 [|c2 s]]]; try reflexivity.
  cbn [no_markup m_br]. intros [Hc _]%andb_prop.
  destruct (is_lt c0); [|reflexivity]. cbn [negb orb andb] in Hc |- *.
  destruct (is_b c1) eqn:Hb; [|reflexivity].
  destruct (is_r c2) eqn:Hr; [|reflexivity]. cbn [andb].
  cbn [opens_no_tag] in Hc.
  assert (Hgt : is_gt c1 = false).
  { unfold is_b in Hb. unfold is_gt.
    apply orb_prop in Hb as [->%N.eqb_eq| ->%N.eqb_eq]; reflexivity. }
  rewrite Hgt in Hc. cbn [orb forallb] in Hc.
  apply andb_prop in Hc as [_ [_ Hs]%andb_prop].
  apply (forallb_drop _ (run isspace s)) in Hs.
  destruct (drop (run isspace s) s) as [|d0 rest]; [reflexivity|].
  cbn [forallb] in Hs. apply andb_prop in Hs as [Hd0 Hrest].
  unfold not_gt in Hd0. apply negb_true_iff in Hd0. rewrite Hd0.
  destruct (is_slash d0); [|reflexivity].
  destruct rest as [|d1 rest]; [reflexivity|].
  cbn [forallb] in Hrest. apply andb_prop in Hrest as [Hd1 _].
  unfold not_gt in Hd1. apply negb_true_iff in Hd1. rewrite Hd1. reflexivity.
Qed.

Lemma m_blank_head c s n : m_blank (c :: s) = Some (S n) -> is_gt c = false.
Proof.
  intros Hm. apply m_blank_some in Hm as (_ & _ & Hc & _).
  apply N.eqb_eq in Hc. subst c. reflexivity.
Qed.

Lemma m_hspace_head c s n : m_hspace (c :: s) = Some (S n) -> is_gt c = false.
Proof.
  intros Hm. apply m_hspace_some in Hm as (_ & _ & Hc & _).
  unfold is_hspace in Hc.
  apply orb_prop in Hc as [->%N.eqb_eq| ->%N.eqb_eq]; reflexivity.
Qed.

Lemma clean_text_no_markup raw : no_markup (clean_text raw) = true.
Proof.
  unfold clean_text. destruct (truthy raw); [|reflexivity].
  set (t := re_sub m_hspace _ _).
  assert (Ht : no_markup t = true).
  { apply (no_markup_sub m_hspace); [exact m_hspace_head|reflexivity|reflexivity|].
    apply (no_markup_sub m_blank); [exact m_blank_head|reflexivity|reflexivity|].
    apply no_markup_sub_tag. }
  destruct (strip_split t) as (w & w' & Hsplit).
  rewrite Hsplit in Ht.
  apply (no_markup_drop (length w)) in Ht. rewrite drop_app_length in Ht.
  apply no_markup_app_r in Ht. exact Ht.
Qed.

Lemma clean_text_single_spaces raw : single_spaces (clean_text raw) = true.
Proof.
  unfold clean_text. destruct (truthy raw); [|reflexivity].
  set (t := re_sub m_hspace _ _).
  assert (Ht : single_spaces t = true) by apply single_spaces_sub.
  destruct (strip_split t) as (w & w' & Hsplit).
  rewrite Hsplit in Ht.
  apply (single_spaces_drop (length w)) in Ht. rewrite drop_app_length in Ht.
  apply single_spaces_app_r in Ht. exact Ht.
Qed.

Lemma clean_text_blank_lines raw : blank_lines_ok NoNl (clean_text raw) = true.
Proof.
  unfold clean_text. destruct (truthy raw); [|reflexivity].
  set (t := re_sub m_hspace _ _).
  assert (Ht : blank_lines_ok NoNl t = true)
    by apply blank_lines_sub_hspace, blank_lines_sub.
  destruct (strip_split t) as (w & w' & Hsplit).
  rewrite Hsplit in Ht.
  apply (blank_lines_drop (length w)) in Ht. rewrite drop_app_length in Ht.
  apply blank_lines_app_r in Ht. exact Ht.
Qed.

Lemma clean_text_strip raw : strip (clean_text raw) = clean_text raw.
Proof.
  unfold clean_text. destruct (truthy raw); [|reflexivity]. apply strip_idem.
Qed.

(** What the four patterns find in a cleaned text. *)
Lemma clean_text_matches raw i :
  m_br (drop i (clean_text raw)) = None
  /\ m_tag (drop i (clean_text raw)) = None
  /\ (forall n, m_blank (drop i (clean_text raw)) = Some n ->
        take n (drop i (clean_text raw)) = [10%N; 10%N])
  /\ (forall n, m_hspace (drop i (clean_text raw)) = Some n ->
        take n (drop i (clean_text raw)) = [32%N]).
Proof.
  pose proof (no_markup_drop i _ (clean_text_no_markup raw)) as Hm.
  split; [apply no_markup_no_br, Hm|].
  split; [apply no_markup_no_tag, Hm|].
  split.
  - intros n. apply (blank_lines_match _ _ NoNl).
    apply (blank_lines_drop i _ NoNl), clean_text_blank_lines.
  - intros n. apply single_spaces_match.
    apply single_spaces_drop, clean_text_single_spaces.
Qed.

(** Cleaning a cleaned text changes nothing. *)
Lemma clean_text_idem raw : clean_text (clean_text raw) = clean_text raw.
Proof.
  set (out := clean_text raw).
  assert (Hm : forall i, _) by (intros i; exact (clean_text_matches raw i)).
  fold out in Hm.
  unfold clean_text at 1.
  destruct (truthy out) eqn:Ht; [|destruct out; [reflexivity|discriminate]].
  rewrite (re_sub_fixed m_br [10%N] out).
    2:{ intros i n H. destruct (Hm i) as (Hbr & _). congruence. }
    rewrite (re_sub_fixed m_tag [] out).
    2:{ intros i n H. destruct (Hm i) as (_ & Htag & _). congruence. }
    rewrite (re_sub_fixed m_blank [10%N; 10%N] out).
    2:{ intros i n H. destruct (Hm i) as (_ & _ & Hb & _). apply Hb, H. }
    rewrite (re_sub_fixed m_hspace [32%N] out).
    2:{ intros i n H. destruct (Hm i) as (_ & _ & _ & Hh). apply Hh, H. }
  apply clean_text_strip.
Qed.

Lemma transfer_snoc tafsir rows row :
  transfer tafsir (rows ++ [row]) = transfer_row (transfer tafsir rows) row.
Proof. unfold transfer. apply foldl_snoc. Qed.

Lemma occurs_unique kind m1 m2 s : occurs kind m1 s -> occurs kind m2 s -> m1 = m2.
Proof.
  intros (K1 & _ & [r1 P1] & L1) (K2 & _ & [r2 P2] & L2).
  assert (Hlen : length m1 = length m2).
  { apply Nat.le_antisymm; [apply L2|apply L1]; try assumption; eexists; eassumption. }
  rewrite P1 in P2. apply app_inj_1 in P2; [apply P2|exact Hlen].
Qed.

(** What [replaced] relates a text to is determined by the text. *)
Lemma replaced_fun kind repl s o1 :
  replaced kind repl s o1 -> forall o2, replaced kind repl s o2 -> o1 = o2.
Proof.
  induction 1 as [|m rest out Hocc Hrest IH|c rest out Hnone Hrest IH]; intros o2 H2.
  - inversion H2 as [|m' rest' out' Hocc' Hrest' Heq|]; [reflexivity|].
    destruct Hocc' as (_ & Hne & _). destruct m'; [congruence|discriminate].
  - remember (m ++ rest) as s eqn:Hs.
    destruct H2 as [|m' rest' out' Hocc' Hrest'|c' rest' out' Hnone' Hrest'].
    + destruct Hocc as (_ & Hne & _). destruct m; [congruence|discriminate].
    + pose proof (occurs_unique _ _ _ _ Hocc Hocc') as <-.
      apply app_inv_head in Hs. subst rest'. f_equal. apply IH, Hrest'.
    + exfalso. exact (Hnone' m Hocc).
  - remember (c :: rest) as s eqn:Hs.
    destruct H2 as [|m' rest' out' Hocc' Hrest'|c' rest' out' Hnone' Hrest'].
    + discriminate.
    + exfalso. exact (Hnone m' Hocc').
    + injection Hs as -> ->. f_equal. apply IH, Hrest'.
Qed.

(** A substitution replaces the occurrences of a kind when its matcher
    finds them. *)
Lemma re_sub_replaced (kind : str -> Prop) (m : str -> option nat) repl :
  (forall s n, m s = Some (S n) -> occurs kind (take (S n) s) s) ->
  (forall s, m s = None \/ m s = Some O -> forall x, ~ occurs kind x s) ->
  forall s, replaced kind repl s (re_sub m repl s).
Proof.
  intros Hsome Hnone. apply re_sub_rel.
  - constructor.
  - intros c s t Hm Ht. apply replaced_next; [apply Hnone, Hm|exact Ht].
  - intros c s n t Hm Ht.
    pose proof (Hsome _ _ Hm) as Hocc.
    rewrite <- (take_drop (S n) (c :: s)) at 1.
    apply replaced_here; [rewrite take_drop; exact Hocc|exact Ht].
Qed.

(** *** Runs and prefixes *)

Lemma run_prefix p x s :
  forallb p x = true -> x `prefix_of` s -> (length x <= run p s)%nat.
Proof.
  revert s. induction x as [|c x IH]; intros s Hall [r ->]; [cbn; lia|].
  cbn [forallb] in Hall. apply andb_prop in Hall as [Hc Hx].
  cbn [app run length]. rewrite Hc. apply le_n_S, IH; [exact Hx|eexists; reflexivity].
Qed.

Lemma run_app_stop p x g rest :
  forallb p x = true -> p g = false -> run p (x ++ g :: rest) = length x.
Proof.
  intros Hall Hg. induction x as [|c x IH]; cbn [app run length]; [rewrite Hg; reflexivity|].
  cbn [forallb] in Hall. apply andb_prop in Hall as [Hc Hx]. rewrite Hc, IH by exact Hx.
  reflexivity.
Qed.

Lemma take_snoc_drop {A : Type} (s : list A) k g rest :
  drop k s = g :: rest -> take (S k) s = take k s ++ [g].
Proof.
  revert s. induction k as [|k IH]; intros s H.
  - rewrite drop_0 in H. rewrite H. reflexivity.
  - destruct s as [|c s]; [discriminate|]. rewrite skipn_cons in H.
    cbn [take app]. f_equal. apply IH, H.
Qed.

Lemma Forall_forallb {A : Type} (p : A -> bool) l :
  Forall (fun c => p c = true) l <-> forallb p l = true.
Proof.
  rewrite forallb_forall, Forall_forall. split; intros H x Hx; apply H.
  - apply list_elem_of_In. exact Hx.
  - apply list_elem_of_In. exact Hx.
Qed.

(** *** Horizontal whitespace *)

Lemma horizontal_hspace x : horizontal x <-> forallb is_hspace x = true.
Proof.
  unfold horizontal. rewrite <- Forall_forallb. apply Forall_iff. intros c.
  unfold is_hspace. rewrite orb_true_iff, !N.eqb_eq. reflexivity.
Qed.

Lemma m_hspace_occurs s n :
  m_hspace s = Some (S n) -> occurs horizontal (take (S n) s) s.
Proof.
  unfold m_hspace. destruct (run is_hspace s) as [|k] eqn:Hk; [discriminate|].
  intros [= <-]. rewrite <- Hk. split; [|split; [|split]].
  - apply horizontal_hspace, run_take.
  - destruct s as [|c s]; [discriminate|]. rewrite Hk. discriminate.
  - exists (drop (run is_hspace s) s). symmetry. apply take_drop.
  - intros x Hx Hpre. apply horizontal_hspace in Hx.
    pose proof (run_prefix _ _ _ Hx Hpre) as Hle.
    rewrite length_take. pose proof (run_bound is_hspace s). lia.
Qed.

Lemma m_hspace_no_occurs s :
  m_hspace s = None \/ m_hspace s = Some O -> forall x, ~ occurs horizontal x s.
Proof.
  unfold m_hspace. destruct (run is_hspace s) as [|k] eqn:Hk.
  - intros _ x (Hx & Hne & Hpre & _). apply horizontal_hspace in Hx.
    pose proof (run_prefix _ _ _ Hx Hpre) as Hle. rewrite Hk in Hle.
    destruct x; [congruence|cbn in Hle; lia].
  - intros [H|H]; discriminate.
Qed.

(** *** Tags *)

Lemma not_gt_spec c : not_gt c = true <-> c <> 62%N.
Proof. unfold not_gt, is_gt. rewrite negb_true_iff, N.eqb_neq. reflexivity. Qed.

Lemma tag_body body : Forall (fun c => c <> 62%N) body <-> forallb not_gt body = true.
Proof.
  rewrite <- Forall_forallb. apply Forall_iff. intros c. symmetry. apply not_gt_spec.
Qed.

Lemma m_tag_occurs s n : m_tag s = Some (S n) -> occurs tag (take (S n) s) s.
Proof.
  destruct s as [|c0 s1]; [discriminate|]. cbn [m_tag].
  destruct (is_lt c0) eqn:Hc0; [|discriminate].
  apply N.eqb_eq in Hc0. subst c0.
  destruct (run not_gt s1) as [|k] eqn:Hk; [discriminate|].
  destruct (drop (S k) s1) as [|g rest] eqn:Hd; [discriminate|].
  intros [= <-].
  assert (Hg : g = 62%N).
  { pose proof Hd as Hd'. rewrite <- Hk in Hd'. apply run_drop_head in Hd'.
    destruct (N.eq_dec g 62%N) as [->|Hne]; [reflexivity|].
    apply not_gt_spec in Hne. congruence. }
  subst g.
  assert (Htake : take (S (S (k + 1))) (60%N :: s1) = 60%N :: take (S k) s1 ++ [62%N]).
  { cbn [take]. f_equal. replace (S (k + 1))%nat with (S (S k)) by lia.
    apply take_snoc_drop with rest. exact Hd. }
  rewrite Htake. split; [|split; [|split]].
  - exists (take (S k) s1). split; [reflexivity|]. split.
    + destruct s1; [discriminate|]. discriminate.
    + apply tag_body. rewrite <- Hk. apply run_take.
  - discriminate.
  - exists rest. rewrite <- (take_drop (S k) s1) at 1. rewrite Hd.
    cbn [app]. rewrite <- app_assoc. reflexivity.
  - intros x (body & -> & _ & Hbody) [r Hr].
    cbn [app] in Hr. injection Hr as Hr. apply tag_body in Hbody.
    assert (Hpre : body `prefix_of` s1).
    { exists ([62%N] ++ r). rewrite Hr, <- app_assoc. reflexivity. }
    pose proof (run_prefix _ _ _ Hbody Hpre) as Hle. rewrite Hk in Hle.
    cbn [length]. rewrite !length_app, length_take. cbn [length].
    assert (S k <= length s1)%nat by (rewrite <- Hk; apply run_bound). lia.
Qed.

Lemma m_tag_no_occurs s :
  m_tag s = None \/ m_tag s = Some O -> forall x, ~ occurs tag x s.
Proof.
  intros Hm x ((body & -> & Hne & Hbody) & _ & [r Hr] & _).
  cbn [app] in Hr. subst s. cbn [m_tag] in Hm.
  apply tag_body in Hbody. rewrite <- app_assoc in Hm. cbn [app] in Hm.
  change (is_lt 60) with true in Hm. cbv iota in Hm.
  rewrite (run_app_stop not_gt body 62%N r Hbody eq_refl) in Hm.
  destruct body as [|c body]; [congruence|]. cbn [length] in Hm.
  change (c :: body) with ([c] ++ body) in Hm.
  destruct (drop (S (length body)) (([c] ++ body) ++ 62%N :: r)) eqn:Hd.
  - apply (f_equal length) in Hd. rewrite length_drop, !length_app in Hd.
    cbn [length] in Hd. lia.
  - destruct Hm as [Hm|Hm]; discriminate.
Qed.

(** *** Line breaks *)

Lemma m_br_occurs s n : m_br s = Some (S n) -> occurs line_break (take (S n) s) s.
Proof.
  destruct s as [|c0 [|c1 [|c2 s1]]]; try discriminate. cbn [m_br].
  destruct (is_lt c0) eqn:Hc0; [|discriminate].
  destruct (is_b c1) eqn:Hc1; [|discriminate].
  destruct (is_r c2) eqn:Hc2; [|discriminate]. cbn [andb].
  apply N.eqb_eq in Hc0. subst c0.
  assert (Hb : c1 = 98%N \/ c1 = 66%N).
  { unfold is_b in Hc1. apply orb_prop in Hc1 as [H|H]; apply N.eqb_eq in H; auto. }
  assert (Hr : c2 = 114%N \/ c2 = 82%N).
  { unfold is_r in Hc2. apply orb_prop in Hc2 as [H|H]; apply N.eqb_eq in H; auto. }
  set (k := run isspace s1).
  assert (Hws : Forall (fun c => isspace c = true) (take k s1))
    by (apply Forall_forallb, run_take).
  assert (Hlong : forall x, line_break x -> x `prefix_of` 60%N :: c1 :: c2 :: s1 ->
            exists close, (close = [62%N] \/ close = [47%N; 62%N])
              /\ close `prefix_of` drop k s1
              /\ length x = (3 + k + length close)%nat).
  { intros x (b & r & ws & close & -> & _ & _ & Hall & Hclose) [rest Hrest].
    cbn [app] in Hrest. injection Hrest as _ _ Hrest.
    apply Forall_forallb in Hall.
    assert (Hk : k = length ws).
    { unfold k. rewrite Hrest, <- app_assoc.
      destruct Hclose as [-> | ->]; cbn [app]; apply run_app_stop; auto. }
    exists close. split; [exact Hclose|]. split.
    - exists rest. rewrite Hrest, Hk, <- app_assoc, drop_app_length. reflexivity.
    - cbn [length]. rewrite length_app. lia. }
  destruct (drop k s1) as [|d0 rest] eqn:Hd; [discriminate|].
  destruct (is_gt d0) eqn:Hgt.
  - intros [= Hn]. apply N.eqb_eq in Hgt. subst d0.
    assert (Htake : take (S (S (S (S k)))) (60%N :: c1 :: c2 :: s1)
                    = 60%N :: c1 :: c2 :: take k s1 ++ [62%N]).
    { cbn [take]. do 3 f_equal. apply take_snoc_drop with rest. exact Hd. }
    replace (S n) with (S (S (S (S k)))) by lia. rewrite Htake.
    split; [|split; [|split]].
    + exists c1, c2, (take k s1), [62%N]. auto 10.
    + discriminate.
    + exists rest. cbn [app]. do 3 f_equal.
      rewrite <- (take_drop k s1) at 1. rewrite Hd, <- app_assoc. reflexivity.
    + intros x Hx Hpre. destruct (Hlong x Hx Hpre) as (close & Hclose & [r' Hr'] & ->).
      cbn [length]. rewrite length_app, length_take. cbn [length].
      assert (k <= length s1)%nat by apply run_bound.
      destruct Hclose as [-> | ->]; [cbn [length]; lia|discriminate Hr'].
  - destruct (is_slash d0) eqn:Hsl; [|discriminate].
    destruct rest as [|d1 rest]; [discriminate|].
    destruct (is_gt d1) eqn:Hgt1; [|discriminate].
    intros [= Hn]. apply N.eqb_eq in Hsl, Hgt1. subst d0 d1.
    assert (Htake : take (S (S (S (S (S k))))) (60%N :: c1 :: c2 :: s1)
                    = 60%N :: c1 :: c2 :: take k s1 ++ [47%N; 62%N]).
    { cbn [take]. do 3 f_equal.
      rewrite (take_snoc_drop s1 (S k) 62%N rest).
      - rewrite (take_snoc_drop s1 k 47%N (62%N :: rest) Hd), <- app_assoc. reflexivity.
      - replace (S k) with (k + 1)%nat by lia. rewrite <- drop_drop, Hd. reflexivity. }
    replace (S n) with (S (S (S (S (S k))))) by lia.
    rewrite Htake. split; [|split; [|split]].
    + exists c1, c2, (take k s1), [47%N; 62%N]. auto 10.
    + discriminate.
    + exists rest. cbn [app]. do 3 f_equal.
      rewrite <- (take_drop k s1) at 1. rewrite Hd, <- app_assoc. reflexivity.
    + intros x Hx Hpre. destruct (Hlong x Hx Hpre) as (close & Hclose & [r' Hr'] & ->).
      cbn [length]. rewrite length_app, length_take. cbn [length].
      assert (k <= length s1)%nat by apply run_bound.
      destruct Hclose as [-> | ->]; cbn [length]; lia.
Qed.

Lemma m_br_no_occurs s :
  m_br s = None \/ m_br s = Some O -> forall x, ~ occurs line_break x s.
Proof.
  intros Hm x ((b & r & ws & close & -> & Hb & Hr & Hall & Hclose) & _ & [rest Hrest] & _).
  subst s. cbn [app m_br] in Hm.
  assert (Hcb : is_b b = true)
    by (destruct Hb as [-> | ->]; reflexivity).
  assert (Hcr : is_r r = true)
    by (destruct Hr as [-> | ->]; reflexivity).
  change (is_lt 60) with true in Hm. rewrite Hcb, Hcr in Hm. cbn [andb] in Hm.
  apply Forall_forallb in Hall. rewrite <- app_assoc in Hm.
  destruct Hclose as [-> | ->]; cbn [app] in Hm.
  - rewrite (run_app_stop isspace ws 62%N rest Hall eq_refl), drop_app_length in Hm.
    cbn in Hm. destruct Hm as [Hm|Hm]; discriminate.
  - rewrite (run_app_stop isspace ws 47%N (62%N :: rest) Hall eq_refl),
      drop_app_length in Hm.
    cbn in Hm. destruct Hm as [Hm|Hm]; discriminate.
Qed.

(** *** Blank lines *)

Lemma after_last_nl_none w i : after_last_nl w = None -> w !! i = Some 10%N -> False.
Proof.
  revert i. induction w as [|c w IH]; intros i; [discriminate 2|].
  cbn [after_last_nl]. destruct (after_last_nl w) as [j|]; [discriminate|].
  destruct (is_nl c) eqn:Hc; [discriminate|]. intros _.
  destruct i as [|i]; cbn; [intros [= ->]; discriminate Hc|apply IH; reflexivity].
Qed.

Lemma after_last_nl_last w : forall j i,
  after_last_nl w = Some j -> w !! i = Some 10%N -> (i < j)%nat.
Proof.
  induction w as [|c w IH]; intros j i; [discriminate|].
  cbn [after_last_nl]. destruct (after_last_nl w) as [j'|] eqn:Hj.
  - intros [= <-]. destruct i as [|i]; [lia|]. cbn. intros Hi.
    specialize (IH j' i eq_refl Hi). lia.
  - destruct (is_nl c); [|discriminate]. intros [= <-].
    destruct i as [|i]; [lia|]. cbn. intros Hi.
    destruct (after_last_nl_none w i Hj Hi).
Qed.

Lemma after_last_nl_take w : forall j,
  after_last_nl w = Some j -> exists pre, take j w = pre ++ [10%N].
Proof.
  induction w as [|c w IH]; intros j; [discriminate|].
  cbn [after_last_nl]. destruct (after_last_nl w) as [j'|] eqn:Hj.
  - intros [= <-]. destruct (IH j' eq_refl) as (pre & Hpre).
    exists (c :: pre). cbn [take app]. rewrite Hpre. reflexivity.
  - destruct (is_nl c) eqn:Hc; [|discriminate]. intros [= <-].
    apply N.eqb_eq in Hc. subst c. exists []. reflexivity.
Qed.

Lemma blank_lines_prefix ws s1 :
  Forall (fun c => isspace c = true) ws -> (ws ++ [10%N]) `prefix_of` s1 ->
  (length ws < run isspace s1)%nat
  /\ take (run isspace s1) s1 !! length ws = Some 10%N.
Proof.
  intros Hws Hpre.
  assert (Hall : forallb isspace (ws ++ [10%N]) = true).
  { apply Forall_forallb, Forall_app. split; [exact Hws|]. repeat constructor. }
  pose proof (run_prefix _ _ _ Hall Hpre) as Hle. rewrite length_app in Hle.
  cbn [length] in Hle. split; [lia|].
  rewrite lookup_take_lt by lia. destruct Hpre as [r ->].
  rewrite <- app_assoc. apply list_lookup_middle. reflexivity.
Qed.

Lemma m_blank_occurs s n : m_blank s = Some (S n) -> occurs blank_lines (take (S n) s) s.
Proof.
  destruct s as [|c0 s1]; [discriminate|]. cbn [m_blank].
  destruct (is_nl c0) eqn:Hc0; [|discriminate]. apply N.eqb_eq in Hc0. subst c0.
  set (k := run isspace s1).
  destruct (after_last_nl (take k s1)) as [j|] eqn:Hj; [|discriminate].
  intros [= <-].
  pose proof (after_last_nl_bound _ _ Hj) as Hjb. rewrite length_take in Hjb.
  assert (Hk : (k <= length s1)%nat) by apply run_bound.
  destruct (after_last_nl_take _ _ Hj) as (pre & Hpre).
  rewrite take_take in Hpre. replace (j `min` k)%nat with j in Hpre by lia.
  cbn [take]. split; [|split; [|split]].
  - exists pre. split; [rewrite Hpre; reflexivity|].
    assert (Hall : Forall (fun c => isspace c = true) (take j (take k s1)))
      by (apply Forall_take, Forall_forallb, run_take).
    rewrite take_take in Hall. replace (j `min` k)%nat with j in Hall by lia.
    rewrite Hpre in Hall. apply Forall_app in Hall. apply Hall.
  - discriminate.
  - exists (drop j s1). cbn [app]. rewrite take_drop. reflexivity.
  - intros x (ws & -> & Hws) [r Hr]. cbn [app] in Hr. injection Hr as Hr.
    assert (Hp : (ws ++ [10%N]) `prefix_of` s1) by (exists r; exact Hr).
    destruct (blank_lines_prefix ws s1 Hws Hp) as [_ Hnl]. fold k in Hnl.
    pose proof (after_last_nl_last _ _ _ Hj Hnl) as Hlt.
    cbn [length]. rewrite length_app, length_take. cbn [length]. lia.
Qed.

Lemma m_blank_no_occurs s :
  m_blank s = None \/ m_blank s = Some O -> forall x, ~ occurs blank_lines x s.
Proof.
  intros Hm x ((ws & -> & Hws) & _ & [r Hr] & _). cbn [app] in Hr. subst s.
  cbn [m_blank] in Hm. change (is_nl 10) with true in Hm. cbv iota in Hm.
  assert (Hp : (ws ++ [10%N]) `prefix_of` ((ws ++ [10%N]) ++ r)) by (exists r; reflexivity).
  destruct (blank_lines_prefix ws _ Hws Hp) as [_ Hnl].
  destruct (after_last_nl _) as [j|] eqn:Hj.
  - destruct Hm as [Hm|Hm]; discriminate.
  - exact (after_last_nl_none _ _ Hj Hnl).
Qed.

(** *** Trimming *)

Lemma lstrip_app_space w x : forallb isspace w = true -> lstrip (w ++ x) = lstrip x.
Proof.
  induction w as [|c w IH]; [reflexivity|]. cbn [forallb app lstrip].
  intros [Hc Hw]%andb_prop. rewrite Hc. apply IH, Hw.
Qed.

Lemma strip_trimmed s : trimmed s (strip s).
Proof.
  destruct (lstrip_split s) as (w & Hw & Hall).
  destruct (rstrip_split (lstrip s)) as (w' & Hw' & Hall').
  exists w, w'. split; [unfold strip; rewrite <- Hw'; exact Hw|].
  split; [apply Forall_forallb, Hall|]. split; [apply Forall_forallb, Hall'|].
  split.
  - intros c t Heq. pose proof (strip_head s) as H. rewrite Heq in H. exact H.
  - intros t c Heq. pose proof (strip_last s) as H. rewrite Heq, rev_app_distr in H.
    exact H.
Qed.

Lemma trimmed_strip s out : trimmed s out -> out = strip s.
Proof.
  intros (w & w' & -> & Hw & Hw' & Hhead & Hlast).
  apply Forall_forallb in Hw, Hw'. unfold strip. rewrite (lstrip_app_space w _ Hw).
  destruct out as [|c t].
  - cbn [app]. rewrite (lstrip_nil w' Hw'). reflexivity.
  - rewrite lstrip_fixed by (cbn [app head_is]; apply (Hhead c t eq_refl)).
    unfold rstrip. rewrite rev_app_distr, lstrip_app_space.
    + destruct (rev (c :: t)) as [|c' t'] eqn:Hrev.
      * apply (f_equal (@rev N)) in Hrev. rewrite rev_involutive in Hrev. discriminate.
      * rewrite lstrip_fixed.
        -- rewrite <- Hrev. symmetry. apply rev_involutive.
        -- cbn [head_is]. apply (Hlast (rev t') c').
           rewrite <- (rev_involutive (c :: t)), Hrev. reflexivity.
    + rewrite forallb_forall in Hw' |- *. intros y Hy. apply Hw', in_rev, Hy.
Qed.

(** *** The cleaned text is the normalization *)

Lemma clean_text_stages raw :
  clean_text raw
  = strip (re_sub m_hspace [32%N] (re_sub m_blank [10%N; 10%N]
             (re_sub m_tag [] (re_sub m_br [10%N] raw)))).
Proof. destruct raw; reflexivity. Qed.

Lemma clean_text_normalizes raw : normalizes raw (clean_text raw).
Proof.
  rewrite clean_text_stages. eexists _, _, _, _.
  split; [apply (re_sub_replaced line_break m_br); [exact m_br_occurs|exact m_br_no_occurs]|].
  split; [apply (re_sub_replaced tag m_tag); [exact m_tag_occurs|exact m_tag_no_occurs]|].
  split; [apply (re_sub_replaced blank_lines m_blank);
            [exact m_blank_occurs|exact m_blank_no_occurs]|].
  split; [apply (re_sub_replaced horizontal m_hspace);
            [exact m_hspace_occurs|exact m_hspace_no_occurs]|].
  apply strip_trimmed.
Qed.

Lemma normalizes_clean_text raw out : normalizes raw out -> out = clean_text raw.
Proof.
  intros (t1 & t2 & t3 & t4 & H1 & H2 & H3 & H4 & H5).
  rewrite clean_text_stages.
  rewrite <- (replaced_fun _ _ _ _ H1 _
                (re_sub_replaced line_break m_br [10%N] m_br_occurs m_br_no_occurs raw)).
  rewrite <- (replaced_fun _ _ _ _ H2 _
                (re_sub_replaced tag m_tag [] m_tag_occurs m_tag_no_occurs t1)).
  rewrite <- (replaced_fun _ _ _ _ H3 _
                (re_sub_replaced blank_lines m_blank [10%N; 10%N]
                   m_blank_occurs m_blank_no_occurs t2)).
  rewrite <- (replaced_fun _ _ _ _ H4 _
                (re_sub_replaced horizontal m_hspace [32%N]
                   m_hspace_occurs m_hspace_no_occurs t3)).
  apply trimmed_strip, H5.
Qed.



Lemma clean_text_examples :
  clean_text (lit "<p>a   b<br/>c</p>") = [97; 32; 98; 10; 99]%N
  /\ clean_text [120; 60; 66; 82; 32; 62; 121; 60; 66; 114; 9; 47; 62; 122]%N
     = [120; 10; 121; 10; 122]%N
  /\ clean_text [97; 10; 32; 10; 9; 10; 98]%N = [97; 10; 10; 98]%N
  /\ clean_text [32; 60; 100; 105; 118; 62; 32; 9; 32; 60; 47; 100; 105; 118; 62; 32]%N = []
  /\ clean_text (lit "a < b") = lit "a < b"
  /\ clean_text (lit "<>") = lit "<>".
Proof. repeat split; vm_compute; reflexivity. Qed.

End CleanText.

(** * Further properties of the classifiers *)

Section Parts.
Import Main Structure Converter.

Lemma juz_loop_range surah ayah bs : forall n j,
  juz_loop surah ayah n bs = Some j -> n <= j < n + Z.of_nat (length bs).
Proof.
  induction bs as [|b bs IH]; intros n j; [discriminate|].
  cbn [juz_loop length]. destruct (juz_returns surah ayah b).
  - intros [= <-]. lia.
  - intros H. apply IH in H. lia.
Qed.

Lemma get_juz_for_verse_range surah ayah : 1 <= get_juz_for_verse surah ayah <= 30.
Proof.
  unfold get_juz_for_verse.
  destruct (juz_loop surah ayah 1 get_juz_boundaries) as [j|] eqn:Hj; [|lia].
  apply juz_loop_range in Hj. cbn [length get_juz_boundaries] in Hj. lia.
Qed.

Lemma get_manzil_range p : 1 <= get_manzil p <= 7.
Proof. unfold get_manzil. repeat case_match; lia. Qed.

Lemma pair_in_In p l : pair_in p l = true <-> In p l.
Proof.
  unfold pair_in. rewrite existsb_exists. split.
  - intros (q & Hq & Heq). apply andb_prop in Heq as [H1 H2].
    apply Z.eqb_eq in H1, H2. destruct p, q. cbn in *. subst. exact Hq.
  - intros Hp. exists p. split; [exact Hp|]. rewrite !Z.eqb_refl. reflexivity.
Qed.

(** X1. Whatever the verse record, valid or not, the derived columns of
    its row are in range: the part from 1 to 30, the grouping from 1 to 7
    and that of the part, the prostration flag 0 or 1 and 1 exactly for the
    listed pairs, the two subsection columns equal. *)
Theorem make_row_ranges urdu simple (v : verse) :
  1 <= paraId (make_row urdu simple v) <= 30
  /\ 1 <= manzilNo (make_row urdu simple v) <= 7
  /\ manzilNo (make_row urdu simple v) = get_manzil (paraId (make_row urdu simple v))
  /\ (ayatSajda (make_row urdu simple v) = 1
      <-> In (v_surah v, v_ayah v) get_sajda_verses)
  /\ (ayatSajda (make_row urdu simple v) = 0
      <-> ~ In (v_surah v, v_ayah v) get_sajda_verses)
  /\ paraRuku (make_row urdu simple v) = surahRuku (make_row urdu simple v)
  /\ surahId (make_row urdu simple v) = v_surah v
  /\ ayatNumber (make_row urdu simple v) = v_ayah v.
Proof.
  unfold make_row. cbn [paraId manzilNo ayatSajda paraRuku surahRuku surahId ayatNumber].
  split; [apply get_juz_for_verse_range|].
  split; [apply get_manzil_range|].
  split; [reflexivity|].
  pose proof (pair_in_In (v_surah v, v_ayah v) get_sajda_verses) as Hin.
  destruct (pair_in (v_surah v, v_ayah v) get_sajda_verses).
  - split; [split; [intros _; apply Hin; reflexivity|reflexivity]|].
    split; [split; [discriminate|]|repeat split].
    intros Hn. exfalso. apply Hn, Hin. reflexivity.
  - split; [split; [discriminate|]|].
    + intros H. apply Hin in H. discriminate.
    + split; [split; [|reflexivity]|repeat split].
      intros _ H. apply Hin in H. discriminate.
Qed.

(** X2. The 30 intervals partition the valid pairs: exactly one interval
    contains a valid pair, the one whose number [get_juz_for_verse]
    returns. *)
Theorem juz_intervals_partition surah ayah :
  valid_verse surah ayah ->
  exists b,
    get_juz_boundaries !! Z.to_nat (get_juz_for_verse surah ayah - 1) = Some b
    /\ in_interval surah ayah b = true
    /\ forall (i : nat) b',
         get_juz_boundaries !! i = Some b' -> in_interval surah ayah b' = true ->
         Z.of_nat i + 1 = get_juz_for_verse surah ayah.
Proof.
  intros Hv.
  pose (f := fun s a =>
    match get_juz_boundaries !! Z.to_nat (get_juz_for_verse s a - 1) with
    | Some b => in_interval s a b
    | None => false
    end
    && forallb (fun i =>
         match get_juz_boundaries !! i with
         | Some b' => negb (in_interval s a b') || (Z.of_nat i + 1 =? get_juz_for_verse s a)
         | None => true
         end) (seq 0 30)).
  assert (Hf : f surah ayah = true).
  { apply valid_verse_check; [|exact Hv]. vm_compute. reflexivity. }
  unfold f in Hf. apply andb_prop in Hf as [H1 H2].
  destruct (get_juz_boundaries !! Z.to_nat (get_juz_for_verse surah ayah - 1))
    as [b|]; [|discriminate].
  exists b. split; [reflexivity|]. split; [exact H1|].
  intros i b' Hi Hb'. rewrite forallb_forall in H2.
  assert (Hin : In i (seq 0 30)).
  { apply in_seq. apply lookup_lt_Some in Hi. cbn in Hi. lia. }
  specialize (H2 i Hin). rewrite Hi, Hb' in H2. cbn in H2. lia.
Qed.

Lemma juz_intervals_partition_witness :
  valid_verse 2 253
  /\ exists b,
       get_juz_boundaries !! Z.to_nat (get_juz_for_verse 2 253 - 1) = Some b
       /\ in_interval 2 253 b = true
       /\ forall (i : nat) b',
            get_juz_boundaries !! i = Some b' -> in_interval 2 253 b' = true ->
            Z.of_nat i + 1 = get_juz_for_verse 2 253.
Proof.
  split; [exact valid_2_253|]. apply juz_intervals_partition. exact valid_2_253.
Defined.

End Parts.

Section Order.
Import Main Structure.

Lemma verse_le_trans a b c :
  verse_le a b = true -> verse_le b c = true -> verse_le a c = true.
Proof.
  unfold verse_le. rewrite !orb_true_iff, !andb_true_iff, !Z.ltb_lt, !Z.eqb_eq, !Z.leb_le.
  lia.
Qed.

Lemma get_juz_for_verse_interval surah ayah :
  valid_verse surah ayah ->
  exists b,
    get_juz_boundaries !! Z.to_nat (get_juz_for_verse surah ayah - 1) = Some b
    /\ in_interval surah ayah b = true.
Proof.
  intros Hv.
  pose (f := fun s a =>
    match get_juz_boundaries !! Z.to_nat (get_juz_for_verse s a - 1) with
    | Some b => in_interval s a b
    | None => false
    end).
  assert (Hf : f surah ayah = true).
  { apply valid_verse_check; [|exact Hv]. vm_compute. reflexivity. }
  unfold f in Hf.
  destruct (get_juz_boundaries !! Z.to_nat (get_juz_for_verse surah ayah - 1))
    as [b|]; [|discriminate].
  exists b. split; [reflexivity|exact Hf].
Qed.

(** A later interval starts after the end of an earlier one. *)
Lemma juz_boundaries_ordered (i j : nat) bi bj :
  (i < j)%nat ->
  get_juz_boundaries !! i = Some bi -> get_juz_boundaries !! j = Some bj ->
  verse_le (bj.1.1.1, bj.1.1.2) (bi.1.2, bi.2) = false.
Proof.
  intros Hij Hi Hj.
  assert (H : forallb (fun i => forallb (fun j =>
                match get_juz_boundaries !! i, get_juz_boundaries !! j with
                | Some bi, Some bj =>
                    negb (i <? j)%nat
                    || negb (verse_le (bj.1.1.1, bj.1.1.2) (bi.1.2, bi.2))
                | _, _ => true
                end) (seq 0 30)) (seq 0 30) = true) by (vm_compute; reflexivity).
  rewrite forallb_forall in H.
  assert (Hjn : (j < 30)%nat) by (apply lookup_lt_Some in Hj; cbn in Hj; lia).
  specialize (H i). rewrite forallb_forall in H.
  specialize (H ltac:(apply in_seq; lia) j ltac:(apply in_seq; lia)).
  rewrite Hi, Hj in H.
  assert (Hlt : (i <? j)%nat = true) by (apply Nat.ltb_lt; exact Hij).
  rewrite Hlt in H. cbn [negb orb] in H. apply negb_true_iff in H. exact H.
Qed.

(** X3. Parts follow the reading order: of two valid verses, the one
    that comes later in the corpus is in the same part or in a later
    one. *)
Theorem get_juz_for_verse_monotone s1 a1 s2 a2 :
  valid_verse s1 a1 -> valid_verse s2 a2 ->
  verse_le (s1, a1) (s2, a2) = true ->
  get_juz_for_verse s1 a1 <= get_juz_for_verse s2 a2.
Proof.
  intros H1 H2 Hle.
  destruct (get_juz_for_verse_interval s1 a1 H1) as (b1 & Hb1 & Hin1).
  destruct (get_juz_for_verse_interval s2 a2 H2) as (b2 & Hb2 & Hin2).
  pose proof (get_juz_for_verse_range s1 a1) as Hr1.
  pose proof (get_juz_for_verse_range s2 a2) as Hr2.
  destruct (Z.le_gt_cases (get_juz_for_verse s1 a1) (get_juz_for_verse s2 a2))
    as [Hok|Hgt]; [exact Hok|exfalso].
  assert (Hord := juz_boundaries_ordered
                    (Z.to_nat (get_juz_for_verse s2 a2 - 1))
                    (Z.to_nat (get_juz_for_verse s1 a1 - 1)) b2 b1
                    ltac:(lia) Hb2 Hb1).
  destruct b1 as [[[s_start1 v_start1] s_end1] v_end1].
  destruct b2 as [[[s_start2 v_start2] s_end2] v_end2].
  cbn [fst snd] in Hord. cbn [in_interval] in Hin1, Hin2.
  apply andb_prop in Hin1 as [Hs1 _]. apply andb_prop in Hin2 as [_ He2].
  rewrite (verse_le_trans _ _ _ Hs1 (verse_le_trans _ _ _ Hle He2)) in Hord.
  discriminate.
Qed.

Lemma get_juz_for_verse_monotone_witness :
  valid_verse 2 253 /\ valid_verse 78 1 /\ verse_le (2, 253) (78, 1) = true
  /\ get_juz_for_verse 2 253 <= get_juz_for_verse 78 1.
Proof.
  split; [exact valid_2_253|]. split; [exact valid_78_1|]. split; [reflexivity|].
  apply get_juz_for_verse_monotone;
    [exact valid_2_253|exact valid_78_1|reflexivity].
Defined.

Lemma ruku_loop_range ayah bs : forall i r,
  ruku_loop ayah i bs = Some r -> i + 1 <= r <= i + Z.of_nat (length bs).
Proof.
  induction bs as [|b bs IH]; intros i r; [discriminate|].
  cbn [ruku_loop length]. destruct (ayah <=? b).
  - intros [= <-]. lia.
  - intros H. apply IH in H. lia.
Qed.

Lemma ruku_loop_monotone a1 a2 top bs : forall i,
  a1 <= a2 -> i + Z.of_nat (length bs) <= top ->
  default top (ruku_loop a1 i bs) <= default top (ruku_loop a2 i bs).
Proof.
  induction bs as [|b bs IH]; intros i Hle Htop; [cbn; lia|].
  cbn [ruku_loop length] in *.
  destruct (Z.leb_spec a2 b) as [H2|H2].
  - destruct (Z.leb_spec a1 b); [cbn; lia|lia].
  - destruct (Z.leb_spec a1 b) as [H1|H1]; [|apply IH; lia].
    destruct (ruku_loop a2 (i + 1) bs) as [r|] eqn:Hr; cbn.
    + apply ruku_loop_range in Hr. lia.
    + lia.
Qed.

(** X4. The subsection number grows with the verse number inside a
    chapter, and it is at least 1 from verse 1 on. In chapter 2 it stays
    from 1 to 19 up to verse 286, the last cutoff, and is 40 beyond. *)
Theorem calculate_ruku_monotone surah a1 a2 :
  a1 <= a2 ->
  calculate_ruku surah a1 <= calculate_ruku surah a2
  /\ (1 <= a1 -> 1 <= calculate_ruku surah a1)
  /\ (a1 <= 286 -> 1 <= calculate_ruku 2 a1 <= 19)
  /\ (286 < a1 -> calculate_ruku 2 a1 = 40).
Proof.
  intros Hle. split; [|split; [|split]].
  - unfold calculate_ruku. destruct (surah =? 1); [lia|].
    destruct (surah =? 2).
    + apply (ruku_loop_monotone a1 a2 40 ruku_boundaries 0 Hle). cbn. lia.
    + pose proof (Z.div_le_mono (a1 - 1) (a2 - 1) 10). lia.
  - intros H1. unfold calculate_ruku. destruct (surah =? 1); [lia|].
    destruct (surah =? 2).
    + destruct (ruku_loop a1 0 ruku_boundaries) as [r|] eqn:Hr; [|lia].
      apply ruku_loop_range in Hr. lia.
    + pose proof (Z.div_pos (a1 - 1) 10). lia.
  - intros H. unfold calculate_ruku. cbn [Z.eqb Pos.eqb].
    destruct (ruku_loop a1 0 ruku_boundaries) as [r|] eqn:Hr.
    + apply ruku_loop_range in Hr. cbn in Hr. lia.
    + exfalso. unfold ruku_boundaries in Hr. cbn [ruku_loop] in Hr.
      repeat (match type of Hr with
              | context [?a <=? ?b] => destruct (Z.leb_spec a b); [discriminate|]
              end). lia.
  - intros H. unfold calculate_ruku. cbn [Z.eqb Pos.eqb].
    unfold ruku_boundaries. cbn [ruku_loop].
    repeat (match goal with
            | |- context [?a <=? ?b] => destruct (Z.leb_spec a b); [lia|]
            end). reflexivity.
Qed.

Lemma calculate_ruku_monotone_witness :
  26 <= 27 /\ calculate_ruku 2 26 <= calculate_ruku 2 27.
Proof.
  split; [lia|]. apply (proj1 (calculate_ruku_monotone 2 26 27 ltac:(lia))).
Defined.

(** X5. On the valid pairs, the part that db_manager.py stores is the
    part that main.py stores except from verse 253 of chapter 2 and from
    verse 148 of chapter 4 to the ends of these chapters, where it is the
    part before. *)
Theorem db_manager_juz_differs surah ayah :
  valid_verse surah ayah ->
  (~ (surah = 2 /\ 253 <= ayah \/ surah = 4 /\ 148 <= ayah) ->
   DbManager.juz surah ayah = get_juz_for_verse surah ayah)
  /\ (surah = 2 /\ 253 <= ayah \/ surah = 4 /\ 148 <= ayah ->
      DbManager.juz surah ayah = get_juz_for_verse surah ayah - 1).
Proof.
  intros Hv.
  pose (f := fun s a =>
    if (s =? 2) && (253 <=? a) || (s =? 4) && (148 <=? a)
    then DbManager.juz s a =? get_juz_for_verse s a - 1
    else DbManager.juz s a =? get_juz_for_verse s a).
  assert (Hf : f surah ayah = true).
  { apply valid_verse_check; [|exact Hv]. vm_compute. reflexivity. }
  unfold f in Hf.
  destruct ((surah =? 2) && (253 <=? ayah) || (surah =? 4) && (148 <=? ayah)) eqn:Hc.
  - split; [|intros _; lia].
    intros Hn. exfalso. apply Hn.
    rewrite orb_true_iff, !andb_true_iff, !Z.eqb_eq, !Z.leb_le in Hc. exact Hc.
  - split; [intros _; lia|].
    intros Hy. exfalso.
    rewrite orb_false_iff, !andb_false_iff, !Z.eqb_neq, !Z.leb_gt in Hc. lia.
Qed.

Lemma db_manager_juz_differs_witness :
  valid_verse 2 253 /\ DbManager.juz 2 253 = get_juz_for_verse 2 253 - 1.
Proof.
  split; [exact valid_2_253|].
  apply (proj2 (db_manager_juz_differs 2 253 valid_2_253)). left. lia.
Defined.

End Order.

(** * The primary key of the verse table *)

Section VerseKeys.
Import PyStr Main Converter.

Lemma in_int64_spec z :
  in_int64 z = true <-> -9223372036854775808 <= z <= 9223372036854775807.
Proof. unfold in_int64. rewrite andb_true_iff, !Z.leb_le. reflexivity. Qed.

Lemma calculate_ruku_int64 surah ayah :
  in_int64 ayah = true -> in_int64 (calculate_ruku surah ayah) = true.
Proof.
  rewrite !in_int64_spec. intros Ha. unfold calculate_ruku.
  destruct (surah =? 1); [lia|]. destruct (surah =? 2).
  - destruct (ruku_loop ayah 0 ruku_boundaries) as [r|] eqn:Hr; [|lia].
    apply ruku_loop_range in Hr. cbn [length ruku_boundaries] in Hr. lia.
  - pose proof (Z.div_mod (ayah - 1) 10 ltac:(lia)) as Hdm.
    pose proof (Z.mod_pos_bound (ayah - 1) 10 ltac:(lia)) as Hm.
    lia.
Qed.

(** The tuple of a verse can be bound exactly when its id, its surah and
    its ayah can: the other integers are within small ranges. *)
Lemma make_row_bindable urdu simple v :
  forallb in_int64 (row_ints (make_row urdu simple v)) = true
  <-> in_int64 (ayat_id v) = true /\ in_int64 (v_surah v) = true
      /\ in_int64 (v_ayah v) = true.
Proof.
  unfold row_ints, make_row.
  cbn [forallb ayatId ayatNumber ayatSajda surahRuku paraRuku paraId manzilNo
       ayatVisible surahId favourite].
  rewrite !andb_true_iff. split.
  - intros (Hid & Ha & _ & _ & _ & _ & _ & _ & Hs & _). auto.
  - intros (Hid & Hs & Ha).
    pose proof (get_juz_for_verse_range (v_surah v) (v_ayah v)) as Hj.
    pose proof (get_manzil_range (get_juz_for_verse (v_surah v) (v_ayah v))) as Hm.
    repeat split; try assumption; try reflexivity;
      try (apply calculate_ruku_int64; exact Ha);
      try (apply in_int64_spec; lia).
    destruct (pair_in _ _); reflexivity.
Qed.

(** The verse loop on a table that has none of the coming keys. *)
Lemma insert_verses_fresh urdu simple verses :
  forall table inserted,
    NoDup (map ayat_id verses) ->
    Forall (fun v => in_int64 (ayat_id v) = true /\ in_int64 (v_surah v) = true
                     /\ in_int64 (v_ayah v) = true) verses ->
    (forall v, v ∈ verses -> table !! ayat_id v = None) ->
    exists table',
      insert_verses urdu simple verses table inserted
      = Ok (table', inserted + Z.of_nat (length verses))
      /\ (forall v, v ∈ verses -> table' !! ayat_id v = Some (make_row urdu simple v))
      /\ (forall k, k ∉ map ayat_id verses -> table' !! k = table !! k)
      /\ size table' = (size table + length verses)%nat.
Proof.
  induction verses as [|v verses IH]; intros table inserted Hnd Hok Hfresh.
  - exists table. cbn [insert_verses length]. split; [f_equal; f_equal; lia|].
    split; [intros v Hv; inversion Hv|]. split; [reflexivity|lia].
  - cbn [map] in Hnd. apply NoDup_cons in Hnd as [Hv Hnd].
    apply Forall_cons in Hok as [Hokv Hok].
    assert (Hid : ayatId (make_row urdu simple v) = ayat_id v) by reflexivity.
    cbn [insert_verses]. unfold insert_quran.
    rewrite (proj2 (make_row_bindable urdu simple v) Hokv), Hid.
    rewrite (Hfresh v) by (left). cbn [bind].
    destruct (IH (<[ayat_id v := make_row urdu simple v]> table) (inserted + 1) Hnd Hok)
      as (table' & Hrun & Hrows & Hother & Hsize).
    { intros w Hw. rewrite lookup_insert_ne.
      - apply Hfresh. right. exact Hw.
      - intros Heq. apply Hv. rewrite Heq. apply list_elem_of_fmap_2. exact Hw. }
    exists table'. split.
    { rewrite Hrun. f_equal. f_equal. cbn [length]. lia. }
    split.
    { intros w Hw. apply elem_of_cons in Hw as [->|Hw]; [|apply Hrows; exact Hw].
      rewrite Hother by exact Hv. apply lookup_insert_eq. }
    split.
    { intros k Hk. cbn [map] in Hk. apply not_elem_of_cons in Hk as [Hk1 Hk2].
      rewrite Hother by exact Hk2. apply lookup_insert_ne. congruence. }
    rewrite Hsize, map_size_insert_None by (apply Hfresh; left). cbn [length]. lia.
Qed.

(** The verse loop when a key comes twice or is in the table already,
    and every tuple can be bound. *)
Lemma insert_verses_clash urdu simple verses :
  forall table inserted,
    Forall (fun v => in_int64 (ayat_id v) = true /\ in_int64 (v_surah v) = true
                     /\ in_int64 (v_ayah v) = true) verses ->
    (exists v, v ∈ verses /\ is_Some (table !! ayat_id v))
    \/ ~ NoDup (map ayat_id verses) ->
    insert_verses urdu simple verses table inserted = Raise IntegrityError.
Proof.
  induction verses as [|v verses IH]; intros table inserted Hok H.
  - destruct H as [(v & Hv & _)|H]; [inversion Hv|].
    exfalso. apply H. constructor.
  - apply Forall_cons in Hok as [Hokv Hok].
    assert (Hid : ayatId (make_row urdu simple v) = ayat_id v) by reflexivity.
    cbn [insert_verses]. unfold insert_quran.
    rewrite (proj2 (make_row_bindable urdu simple v) Hokv), Hid.
    destruct (table !! ayat_id v) as [r|] eqn:Hlook; [reflexivity|].
    cbn [bind]. apply IH; [exact Hok|].
    destruct H as [(w & Hw & Hsome)|H].
    + left. apply elem_of_cons in Hw as [->|Hw].
      * rewrite Hlook in Hsome. destruct Hsome as [? ?]. discriminate.
      * exists w. split; [exact Hw|].
        destruct (decide (ayat_id v = ayat_id w)) as [->|Hne].
        -- rewrite lookup_insert_eq. eauto.
        -- rewrite lookup_insert_ne by exact Hne. exact Hsome.
    + destruct (decide (ayat_id v ∈ map ayat_id verses)) as [Hin|Hout].
      * left. apply list_elem_of_fmap in Hin as (w & Heq & Hw).
        exists w. split; [exact Hw|]. rewrite <- Heq, lookup_insert_eq. eauto.
      * right. intros Hnd. apply H. cbn [map]. apply NoDup_cons. split; assumption.
Qed.

(** The verse loop when the keys are new and some tuple cannot be
    bound. *)
Lemma insert_verses_overflow urdu simple verses :
  forall table inserted,
    NoDup (map ayat_id verses) ->
    (forall v, v ∈ verses -> table !! ayat_id v = None) ->
    Exists (fun v => in_int64 (ayat_id v) = false \/ in_int64 (v_surah v) = false
                     \/ in_int64 (v_ayah v) = false) verses ->
    insert_verses urdu simple verses table inserted = Raise OverflowError.
Proof.
  induction verses as [|v verses IH]; intros table inserted Hnd Hfresh Hbad;
    [inversion Hbad|].
  cbn [map] in Hnd. apply NoDup_cons in Hnd as [Hv Hnd].
  assert (Hid : ayatId (make_row urdu simple v) = ayat_id v) by reflexivity.
  cbn [insert_verses]. unfold insert_quran.
  destruct (forallb in_int64 (row_ints (make_row urdu simple v))) eqn:Hb;
    [|reflexivity].
  rewrite Hid, (Hfresh v) by (left). cbn [bind].
  apply IH; [exact Hnd| |].
  - intros w Hw. rewrite lookup_insert_ne.
    + apply Hfresh. right. exact Hw.
    + intros Heq. apply Hv. rewrite Heq. apply list_elem_of_fmap_2. exact Hw.
  - apply Exists_cons in Hbad as [Hbad|Hbad]; [|exact Hbad].
    apply make_row_bindable in Hb as (H1 & H2 & H3).
    destruct Hbad as [H|[H|H]]; congruence.
Qed.

(** What a successful verse loop tells of its verses. *)
Lemma insert_verses_ok urdu simple verses :
  forall table inserted out,
    insert_verses urdu simple verses table inserted = Ok out ->
    NoDup (map ayat_id verses)
    /\ Forall (fun v => in_int64 (ayat_id v) = true /\ in_int64 (v_surah v) = true
                        /\ in_int64 (v_ayah v) = true) verses.
Proof.
  induction verses as [|v verses IH]; intros table inserted out Hrun.
  - split; constructor.
  - assert (Hid : ayatId (make_row urdu simple v) = ayat_id v) by reflexivity.
    cbn [insert_verses] in Hrun. unfold insert_quran in Hrun.
    destruct (forallb in_int64 (row_ints (make_row urdu simple v))) eqn:Hb;
      [|discriminate].
    rewrite Hid in Hrun.
    destruct (table !! ayat_id v) as [r|] eqn:Hlook; [discriminate|].
    cbn [bind] in Hrun. pose proof (IH _ _ _ Hrun) as [Hnd Hok].
    apply make_row_bindable in Hb.
    split; [|constructor; assumption].
    cbn [map]. apply NoDup_cons. split; [|exact Hnd].
    intros Hin. apply list_elem_of_fmap in Hin as (w & Heq & Hw).
    destruct (decide (NoDup (map ayat_id verses))) as [_|]; [|contradiction].
    assert (Hclash : insert_verses urdu simple verses
                       (<[ayat_id v := make_row urdu simple v]> table) (inserted + 1)
                     = Raise IntegrityError).
    { apply insert_verses_clash; [exact Hok|]. left. exists w. split; [exact Hw|].
      rewrite <- Heq, lookup_insert_eq. eauto. }
    congruence.
Qed.

(** C3, as amended. The only uniqueness the verse loop enforces is that
    of [ayatId], the primary key: when two of the verses have the same
    [ayatId] the run fails, on the primary key when every tuple can be
    bound. When the ids differ and every id, surah and ayah is within the
    64 bits of an SQLite integer, the run succeeds with one row for each
    verse, so that verses with the same chapter and verse under different
    ids are all stored; a number outside that range fails the run as well,
    with [OverflowError] when the ids differ. *)
Theorem insert_verses_primary_key urdu simple (verses : list verse) :
  (NoDup (map ayat_id verses) ->
   Forall (fun v => in_int64 (ayat_id v) = true /\ in_int64 (v_surah v) = true
                    /\ in_int64 (v_ayah v) = true) verses ->
     exists table,
       create_quran_table urdu simple verses = Ok (table, Z.of_nat (length verses))
       /\ (forall v, v ∈ verses -> table !! ayat_id v = Some (make_row urdu simple v))
       /\ size table = length verses)
  /\ (~ NoDup (map ayat_id verses) ->
      exists e, create_quran_table urdu simple verses = Raise e)
  /\ (~ NoDup (map ayat_id verses) ->
      Forall (fun v => in_int64 (ayat_id v) = true /\ in_int64 (v_surah v) = true
                       /\ in_int64 (v_ayah v) = true) verses ->
      create_quran_table urdu simple verses = Raise IntegrityError)
  /\ (Exists (fun v => in_int64 (ayat_id v) = false \/ in_int64 (v_surah v) = false
                       \/ in_int64 (v_ayah v) = false) verses ->
      exists e, create_quran_table urdu simple verses = Raise e)
  /\ (NoDup (map ayat_id verses) ->
      Exists (fun v => in_int64 (ayat_id v) = false \/ in_int64 (v_surah v) = false
                       \/ in_int64 (v_ayah v) = false) verses ->
      create_quran_table urdu simple verses = Raise OverflowError).
Proof.
  split; [|split; [|split; [|split]]].
  - intros Hnd Hok.
    destruct (insert_verses_fresh urdu simple verses ∅ 0 Hnd Hok)
      as (table & Hrun & Hrows & _ & Hsize).
    { intros v _. apply lookup_empty. }
    exists table. split; [exact Hrun|]. split; [exact Hrows|].
    rewrite Hsize, map_size_empty. reflexivity.
  - intros Hdup. unfold create_quran_table.
    destruct (insert_verses urdu simple verses ∅ 0) as [out|e] eqn:Hrun; [|eauto].
    apply insert_verses_ok in Hrun as [Hnd _]. contradiction.
  - intros Hdup Hok. apply insert_verses_clash; [exact Hok|]. right. exact Hdup.
  - intros Hbad. unfold create_quran_table.
    destruct (insert_verses urdu simple verses ∅ 0) as [out|e] eqn:Hrun; [|eauto].
    apply insert_verses_ok in Hrun as [_ Hok]. exfalso.
    apply Exists_exists in Hbad as (v & Hv & Hbad).
    rewrite Forall_forall in Hok. destruct (Hok v Hv) as (H1 & H2 & H3).
    destruct Hbad as [H|[H|H]]; congruence.
  - intros Hnd Hbad. apply insert_verses_overflow; [exact Hnd| |exact Hbad].
    intros v _. apply lookup_empty.
Qed.

Lemma insert_verses_primary_key_witness :
  ~ NoDup (map ayat_id [Verse 7 1 1 (lit "a"); Verse 7 1 2 (lit "b")])
  /\ create_quran_table ∅ ∅ [Verse 7 1 1 (lit "a"); Verse 7 1 2 (lit "b")]
     = Raise IntegrityError.
Proof.
  assert (H : ~ NoDup (map ayat_id [Verse 7 1 1 (lit "a"); Verse 7 1 2 (lit "b")])).
  { intros Hnd. apply NoDup_cons in Hnd as [Hnd _]. apply Hnd. left. }
  split; [exact H|].
  apply (proj1 (proj2 (proj2 (insert_verses_primary_key ∅ ∅ _))) H).
  repeat constructor.
Defined.

(** C3 fails: two verse records for chapter 1, verse 1 with the ids 1 and
    2 are both inserted; the run succeeds and the table holds two rows for
    that chapter and verse. *)
Lemma duplicate_verse_key_coexists :
  exists table r1 r2,
    create_quran_table ∅ ∅ [Verse 1 1 1 (lit "a"); Verse 2 1 1 (lit "b")]
    = Ok (table, 2)
    /\ table !! 1 = Some r1 /\ table !! 2 = Some r2
    /\ (surahId r1, ayatNumber r1) = (1, 1)
    /\ (surahId r2, ayatNumber r2) = (1, 1)
    /\ arabicText r1 = lit "a" /\ arabicText r2 = lit "b".
Proof.
  eexists _, _, _. split; [reflexivity|].
  split; [vm_compute; reflexivity|]. split; [vm_compute; reflexivity|].
  repeat split; reflexivity.
Qed.

End VerseKeys.


(** * Further properties of the parsing *)

Section Sorting.
Import PyStr Converter.

Lemma insert_sorted_same_key s a x l :
  List.filter (fun v => (v_surah v =? s) && (v_ayah v =? a)) (insert_sorted x l)
  = List.filter (fun v => (v_surah v =? s) && (v_ayah v =? a)) (x :: l).
Proof.
  induction l as [|y l IH]; [reflexivity|].
  cbn [insert_sorted]. destruct (key_le x y) eqn:Hxy; [reflexivity|].
  cbn [List.filter] in IH |- *. rewrite IH.
  destruct ((v_surah x =? s) && (v_ayah x =? a)) eqn:Hx; [|reflexivity].
  destruct ((v_surah y =? s) && (v_ayah y =? a)) eqn:Hy; [|reflexivity].
  exfalso. unfold key_le in Hxy.
  rewrite andb_true_iff, !Z.eqb_eq in Hx, Hy.
  rewrite orb_false_iff, andb_false_iff, Z.ltb_ge, Z.eqb_neq, Z.leb_gt in Hxy. lia.
Qed.

Lemma sort_verses_same_key s a l :
  List.filter (fun v => (v_surah v =? s) && (v_ayah v =? a)) (sort_verses l)
  = List.filter (fun v => (v_surah v =? s) && (v_ayah v =? a)) l.
Proof.
  induction l as [|x l IH]; [reflexivity|].
  cbn [sort_verses]. rewrite insert_sorted_same_key. cbn [List.filter].
  rewrite IH. reflexivity.
Qed.

(** X6. Whatever the order of the tuples in the dump, the parsed verses
    are in the order of (surah, ayah); they are the kept tuples, each one
    once, and the verses of one (surah, ayah) stay in the order of the
    dump. *)
Theorem parse_arabic_sql_sorted (py_int : str -> option Z) matches verses report :
  parse_arabic_sql py_int matches = Some (verses, report) ->
  Sorted (fun a b => key_le a b = true) verses
  /\ verses ≡ₚ omap (store_verse py_int) matches
  /\ forall s a,
       List.filter (fun v => (v_surah v =? s) && (v_ayah v =? a)) verses
       = List.filter (fun v => (v_surah v =? s) && (v_ayah v =? a))
           (omap (store_verse py_int) matches).
Proof.
  unfold parse_arabic_sql. destruct matches as [|m matches]; [discriminate|].
  intros [= <- _]. split; [apply sort_verses_sorted|].
  split; [apply sort_verses_perm|]. intros s a. apply sort_verses_same_key.
Qed.

Lemma parse_arabic_sql_sorted_witness :
  parse_arabic_sql int_of_str
    [(lit "9", lit "2", lit "1", lit "b"); (lit "3", lit "1", lit "7", lit "a");
     (lit "4", lit "1", lit "7", lit "c")]
  = Some ([Verse 3 1 7 (lit "a"); Verse 4 1 7 (lit "c"); Verse 9 2 1 (lit "b")],
          ParseReport 3 3 true)
  /\ Sorted (fun a b => key_le a b = true)
       [Verse 3 1 7 (lit "a"); Verse 4 1 7 (lit "c"); Verse 9 2 1 (lit "b")].
Proof.
  assert (H : parse_arabic_sql int_of_str
    [(lit "9", lit "2", lit "1", lit "b"); (lit "3", lit "1", lit "7", lit "a");
     (lit "4", lit "1", lit "7", lit "c")]
  = Some ([Verse 3 1 7 (lit "a"); Verse 4 1 7 (lit "c"); Verse 9 2 1 (lit "b")],
          ParseReport 3 3 true)) by reflexivity.
  split; [exact H|].
  apply (proj1 (parse_arabic_sql_sorted int_of_str _ _ _ H)).
Defined.

End Sorting.

Section Keys.
Import PyStr Converter.

Lemma lit_inj s1 s2 : lit s1 = lit s2 -> s1 = s2.
Proof.
  unfold lit. intros H.
  rewrite <- (string_of_list_ascii_of_string s1), <- (string_of_list_ascii_of_string s2).
  f_equal. revert H. generalize (list_ascii_of_string s1) (list_ascii_of_string s2).
  intros l1. induction l1 as [|a l1 IH]; intros [|b l2]; cbn [map]; try discriminate;
    [reflexivity|].
  intros [= Hab Hl]. f_equal; [|apply IH, Hl].
  rewrite <- (ascii_N_embedding a), <- (ascii_N_embedding b), Hab. reflexivity.
Qed.

Lemma uint_digits d :
  Forall (fun c => (48 <= c <= 57)%N) (lit (NilEmpty.string_of_uint d)).
Proof.
  induction d; cbn [NilEmpty.string_of_uint]; try constructor;
    try (exact IHd); cbn; lia.
Qed.

Lemma str_of_int_no_colon n : Forall (fun c => c <> 58%N) (str_of_int n).
Proof.
  assert (Hu : forall d, Forall (fun c => c <> 58%N) (lit (NilZero.string_of_uint d))).
  { intros d. eapply Forall_impl; [|instantiate (1 := fun c => (48 <= c <= 57)%N)].
    - destruct d; try apply uint_digits. repeat constructor; cbn; lia.
    - cbn. intros c Hc. lia. }
  unfold str_of_int. destruct (Z.to_int n) as [d|d]; cbn [NilZero.string_of_int].
  - apply Hu.
  - change (lit (String "-" (NilZero.string_of_uint d)))
      with (45%N :: lit (NilZero.string_of_uint d)).
    constructor; [discriminate|apply Hu].
Qed.

Lemma str_of_int_inj n m : str_of_int n = str_of_int m -> n = m.
Proof.
  unfold str_of_int. intros H%lit_inj.
  apply DecimalZ.to_int_inj.
  assert (Hn : forall z, Z.to_int z <> Decimal.Pos Decimal.Nil
                         /\ Z.to_int z <> Decimal.Neg Decimal.Nil).
  { intros [|p|p]; cbn; split; try discriminate;
      intros [= Hp]; exact (DecimalPos.Unsigned.to_uint_nonnil p Hp). }
  pose proof (NilZero.isi (Z.to_int n) (proj1 (Hn n)) (proj2 (Hn n))) as H1.
  pose proof (NilZero.isi (Z.to_int m) (proj1 (Hn m)) (proj2 (Hn m))) as H2.
  rewrite H in H1. rewrite H1 in H2. injection H2 as H2. exact H2.
Qed.

Lemma app_sep_inj (sep : N) (a a' b b' : list N) :
  Forall (fun c => c <> sep) a -> Forall (fun c => c <> sep) a' ->
  a ++ sep :: b = a' ++ sep :: b' -> a = a' /\ b = b'.
Proof.
  intros Ha. revert a'. induction Ha as [|c a Hc Ha IH]; intros a' Ha' Heq.
  - destruct Ha' as [|c' a' Hc' Ha']; cbn in Heq.
    + injection Heq as <-. split; reflexivity.
    + injection Heq as Hs _. congruence.
  - destruct Ha' as [|c' a' Hc' Ha']; cbn in Heq.
    + injection Heq as Hs _. congruence.
    + injection Heq as <- Heq. destruct (IH a' Ha' Heq) as [<- <-].
      split; reflexivity.
Qed.

(** X7. The text key [f"{surah}:{ayah}"] tells the verses apart: two keys
    are equal only for the same surah and the same ayah, so the entry that
    a row looks up was stored for this verse and no other. *)
Theorem verse_key_inj s1 a1 s2 a2 :
  verse_key s1 a1 = verse_key s2 a2 -> s1 = s2 /\ a1 = a2.
Proof.
  unfold verse_key. change (lit ":") with [58%N]. cbn [app].
  intros H. apply app_sep_inj in H as [Hs Ha]; try apply str_of_int_no_colon.
  split; apply str_of_int_inj; assumption.
Qed.

Lemma verse_key_inj_witness :
  verse_key 2 255 = verse_key 2 255 /\ 2 = 2 /\ 255 = 255.
Proof.
  split; [reflexivity|]. apply verse_key_inj. reflexivity.
Defined.

End Keys.

Section Translations.
Import PyStr Converter.

Lemma split_char_sep sep a b :
  Forall (fun c => c <> sep) a ->
  split_char sep (a ++ sep :: b) = a :: split_char sep b.
Proof.
  induction 1 as [|c a Hc Ha IH]; cbn [app split_char].
  - rewrite N.eqb_refl. reflexivity.
  - destruct (N.eqb_spec c sep); [congruence|]. rewrite IH. reflexivity.
Qed.

Lemma split_char_plain sep a :
  Forall (fun c => c <> sep) a -> split_char sep a = [a].
Proof.
  induction 1 as [|c a Hc Ha IH]; [reflexivity|]. cbn [split_char].
  destruct (N.eqb_spec c sep); [congruence|]. rewrite IH. reflexivity.
Qed.

Lemma parse_lines_snoc py_int lines line :
  parse_lines py_int (lines ++ [line])
  = parse_line py_int (parse_lines py_int lines) line.
Proof. unfold parse_lines. apply foldl_snoc. Qed.

Lemma parse_line_fields py_int d line p0 p1 text tail s a :
  strip line = p0 ++ 124%N :: p1 ++ 124%N :: text ++ tail ->
  Forall (fun c => c <> 124%N) p0 -> Forall (fun c => c <> 124%N) p1 ->
  Forall (fun c => c <> 124%N) text ->
  tail = [] \/ (exists tail', tail = 124%N :: tail') ->
  py_int p0 = Some s -> py_int p1 = Some a ->
  parse_line py_int d line = <[verse_key s a := text]> d.
Proof.
  intros Hstrip H0 H1 Ht Htail Hs Ha. unfold parse_line.
  assert (Hbar : existsb (fun c => (c =? 124)%N) line = true).
  { destruct (strip_split line) as (w & w' & ->). rewrite Hstrip.
    rewrite !existsb_app. cbn [existsb N.eqb Pos.eqb].
    rewrite orb_true_r. cbn. rewrite orb_true_r. reflexivity. }
  rewrite Hbar, Hstrip.
  rewrite (split_char_sep _ _ _ H0), (split_char_sep _ _ _ H1).
  destruct Htail as [->|(tail' & ->)].
  - rewrite app_nil_r, (split_char_plain _ _ Ht), Hs, Ha. reflexivity.
  - rewrite (split_char_sep _ _ _ Ht), Hs, Ha. reflexivity.
Qed.

(** X8. A translation line of the form [surah|ayah|text], with more
    fields after the text or none, gives the verse its text: the line
    stores the third field under the key of the verse, and when it is the
    last line of the file the row of that verse gets this text as its
    translation. What follows a further bar is left out. *)
Theorem parse_line_round_trip py_int line p0 p1 text tail s a :
  strip line = p0 ++ 124%N :: p1 ++ 124%N :: text ++ tail ->
  Forall (fun c => c <> 124%N) p0 -> Forall (fun c => c <> 124%N) p1 ->
  Forall (fun c => c <> 124%N) text ->
  tail = [] \/ (exists tail', tail = 124%N :: tail') ->
  py_int p0 = Some s -> py_int p1 = Some a ->
  (forall d, parse_line py_int d line = <[verse_key s a := text]> d)
  /\ (forall lines, parse_lines py_int (lines ++ [line]) !! verse_key s a = Some text)
  /\ (forall lines simple i arabic,
        urduTranslation
          (make_row (parse_lines py_int (lines ++ [line])) simple (Verse i s a arabic))
        = text).
Proof.
  intros Hstrip H0 H1 Ht Htail Hs Ha.
  assert (Hd : forall d, parse_line py_int d line = <[verse_key s a := text]> d).
  { intros d. exact (parse_line_fields py_int d line p0 p1 text tail s a
                       Hstrip H0 H1 Ht Htail Hs Ha). }
  assert (Hl : forall lines,
             parse_lines py_int (lines ++ [line]) !! verse_key s a = Some text).
  { intros lines. rewrite parse_lines_snoc, Hd. apply lookup_insert_eq. }
  split; [exact Hd|]. split; [exact Hl|].
  intros lines simple i arabic. unfold make_row.
  cbn [urduTranslation v_surah v_ayah]. rewrite Hl. reflexivity.
Qed.

Lemma parse_line_round_trip_witness :
  parse_lines int_of_str ([lit "2|255|old"] ++ [lit " 2|255|new|more "])
    !! verse_key 2 255
  = Some (lit "new").
Proof.
  apply (proj1 (proj2 (parse_line_round_trip int_of_str (lit " 2|255|new|more ")
           (lit "2") (lit "255") (lit "new") (lit "|more") 2 255
           ltac:(reflexivity)
           ltac:(repeat constructor; discriminate)
           ltac:(repeat constructor; discriminate)
           ltac:(repeat constructor; discriminate)
           ltac:(right; eexists; reflexivity)
           ltac:(reflexivity) ltac:(reflexivity)))).
Defined.

Lemma parse_line_keys py_int d line :
  (forall k, is_Some (d !! k) -> exists s a, k = verse_key s a) ->
  forall k, is_Some (parse_line py_int d line !! k) -> exists s a, k = verse_key s a.
Proof.
  intros Hd k. unfold parse_line.
  destruct (existsb _ line); [|apply Hd].
  destruct (split_char 124 (strip line)) as [|p0 [|p1 [|text rest]]]; try apply Hd.
  destruct (py_int p0) as [s|]; [|apply Hd].
  destruct (py_int p1) as [a|]; [|apply Hd].
  destruct (decide (verse_key s a = k)) as [<-|Hne].
  - intros _. eauto.
  - rewrite lookup_insert_ne by exact Hne. apply Hd.
Qed.

(** X9. The dictionary read from a translation file holds nothing but
    keys of (surah, ayah) pairs, and a line without a bar, with fewer than
    three fields, or whose surah or ayah [int] rejects adds nothing to
    it. *)
Theorem parse_lines_keys py_int :
  (forall lines k,
     is_Some (parse_lines py_int lines !! k) -> exists s a, k = verse_key s a)
  /\ (forall d line,
        Forall (fun c => c <> 124%N) line -> parse_line py_int d line = d)
  /\ (forall d line p0 p1,
        strip line = p0 ++ 124%N :: p1 ->
        Forall (fun c => c <> 124%N) p0 -> Forall (fun c => c <> 124%N) p1 ->
        parse_line py_int d line = d)
  /\ (forall d line p0 p1 rest,
        strip line = p0 ++ 124%N :: p1 ++ 124%N :: rest ->
        Forall (fun c => c <> 124%N) p0 -> Forall (fun c => c <> 124%N) p1 ->
        py_int p0 = None \/ py_int p1 = None ->
        parse_line py_int d line = d).
Proof.
  split.
  { intros lines. induction lines as [|line lines IH] using rev_ind.
    - intros k [x Hx]. unfold parse_lines in Hx. cbn [foldl] in Hx.
      rewrite lookup_empty in Hx. discriminate.
    - rewrite parse_lines_snoc. apply parse_line_keys. exact IH. }
  split.
  { intros d line Hno. unfold parse_line.
    replace (existsb (fun c => (c =? 124)%N) line) with false; [reflexivity|].
    symmetry. induction Hno as [|c l Hc Hl IH]; [reflexivity|].
    cbn [existsb]. destruct (N.eqb_spec c 124); [congruence|exact IH]. }
  split.
  { intros d line p0 p1 Hstrip H0 H1. unfold parse_line.
    destruct (existsb _ line); [|reflexivity].
    rewrite Hstrip, (split_char_sep _ _ _ H0), (split_char_plain _ _ H1).
    reflexivity. }
  intros d line p0 p1 rest Hstrip H0 H1 Hint. unfold parse_line.
  destruct (existsb _ line); [|reflexivity].
  rewrite Hstrip, (split_char_sep _ _ _ H0), (split_char_sep _ _ _ H1).
  destruct (split_char 124 rest) as [|text more] eqn:Hsplit.
  - reflexivity.
  - destruct Hint as [-> | ->]; [reflexivity|]. destruct (py_int p0); reflexivity.
Qed.

Lemma parse_lines_keys_witness :
  Forall (fun c => c <> 124%N) (lit "# comment")
  /\ parse_line int_of_str ∅ (lit "# comment") = ∅.
Proof.
  assert (H : Forall (fun c => c <> 124%N) (lit "# comment"))
    by (repeat constructor; discriminate).
  split; [exact H|].
  apply (proj1 (proj2 (parse_lines_keys int_of_str)) ∅ _ H).
Defined.

End Translations.

Section Runs.
Import PyStr Converter Run.

Lemma sort_verses_ids l : map ayat_id (sort_verses l) ≡ₚ map ayat_id l.
Proof. apply Permutation_map, sort_verses_perm. Qed.

(** X10. The run of main.py makes no database exactly when nothing was
    matched. Otherwise everything hangs on the numbers of the kept tuples:
    if the row ids differ from one another and every id, surah and ayah is
    within the 64 bits of an SQLite integer, the verse loop succeeds, its
    counter is the number of kept tuples and the table has one row for
    each of them; if two ids are equal or a number is outside that range,
    the loop raises, whatever the translation files hold. *)
Theorem run_outcome py_int matches urdu_file simple_file :
  (run py_int matches urdu_file simple_file = None <-> matches = [])
  /\ (matches <> [] ->
      NoDup (map ayat_id (omap (store_verse py_int) matches)) ->
      Forall (fun v => in_int64 (ayat_id v) = true /\ in_int64 (v_surah v) = true
                       /\ in_int64 (v_ayah v) = true)
             (omap (store_verse py_int) matches) ->
      exists table,
        run py_int matches urdu_file simple_file
        = Some (Ok (table, Z.of_nat (length (omap (store_verse py_int) matches))))
        /\ size table = length (omap (store_verse py_int) matches)
        /\ forall v, v ∈ omap (store_verse py_int) matches ->
             table !! ayat_id v
             = Some (make_row (load_lines py_int urdu_file)
                              (load_lines py_int simple_file) v))
  /\ (matches <> [] ->
      ~ NoDup (map ayat_id (omap (store_verse py_int) matches))
      \/ Exists (fun v => in_int64 (ayat_id v) = false \/ in_int64 (v_surah v) = false
                          \/ in_int64 (v_ayah v) = false)
                (omap (store_verse py_int) matches) ->
      exists e, run py_int matches urdu_file simple_file = Some (Raise e))
  /\ (matches <> [] ->
      ~ NoDup (map ayat_id (omap (store_verse py_int) matches)) ->
      Forall (fun v => in_int64 (ayat_id v) = true /\ in_int64 (v_surah v) = true
                       /\ in_int64 (v_ayah v) = true)
             (omap (store_verse py_int) matches) ->
      run py_int matches urdu_file simple_file = Some (Raise IntegrityError))
  /\ (matches <> [] ->
      NoDup (map ayat_id (omap (store_verse py_int) matches)) ->
      Exists (fun v => in_int64 (ayat_id v) = false \/ in_int64 (v_surah v) = false
                       \/ in_int64 (v_ayah v) = false)
             (omap (store_verse py_int) matches) ->
      run py_int matches urdu_file simple_file = Some (Raise OverflowError)).
Proof.
  split; [|split; [|split; [|split]]].
  - unfold run, parse_arabic_sql. destruct matches; split; congruence.
  - intros Hne Hnd Hok. unfold run, parse_arabic_sql.
    destruct matches as [|m matches]; [congruence|].
    set (kept := omap (store_verse py_int) (m :: matches)) in *.
    destruct (insert_verses_fresh (load_lines py_int urdu_file)
                (load_lines py_int simple_file) (sort_verses kept) ∅ 0)
      as (table & Hrun & Hrows & _ & Hsize).
    { rewrite sort_verses_ids. exact Hnd. }
    { rewrite sort_verses_perm. exact Hok. }
    { intros v _. apply lookup_empty. }
    exists table. unfold create_quran_table. rewrite Hrun.
    rewrite (Permutation_length (sort_verses_perm kept)) in Hrun, Hsize |- *.
    split; [reflexivity|]. split; [rewrite Hsize, map_size_empty; reflexivity|].
    intros v Hv. apply Hrows. rewrite sort_verses_perm. exact Hv.
  - intros Hne Hbad. unfold run, parse_arabic_sql.
    destruct matches as [|m matches]; [congruence|].
    set (kept := omap (store_verse py_int) (m :: matches)) in *.
    unfold create_quran_table.
    destruct (insert_verses _ _ (sort_verses kept) ∅ 0) as [out|e] eqn:Hrun; [|eauto].
    exfalso. apply insert_verses_ok in Hrun as [Hnd Hok].
    rewrite sort_verses_ids in Hnd. rewrite sort_verses_perm in Hok.
    destruct Hbad as [Hdup|Hbad]; [contradiction|].
    apply Exists_exists in Hbad as (v & Hv & Hbad).
    rewrite Forall_forall in Hok. destruct (Hok v Hv) as (H1 & H2 & H3).
    destruct Hbad as [H|[H|H]]; congruence.
  - intros Hne Hdup Hok. unfold run, parse_arabic_sql.
    destruct matches as [|m matches]; [congruence|]. f_equal.
    apply insert_verses_clash.
    + rewrite sort_verses_perm. exact Hok.
    + right. rewrite sort_verses_ids. exact Hdup.
  - intros Hne Hnd Hbad. unfold run, parse_arabic_sql.
    destruct matches as [|m matches]; [congruence|]. f_equal.
    apply insert_verses_overflow.
    + rewrite sort_verses_ids. exact Hnd.
    + intros v _. apply lookup_empty.
    + rewrite sort_verses_perm. exact Hbad.
Qed.

Lemma run_outcome_witness :
  [(lit "1", lit "1", lit "1", lit "a"); (lit "1", lit "1", lit "2", lit "b")] <> []
  /\ ~ NoDup (map ayat_id (omap (store_verse int_of_str)
        [(lit "1", lit "1", lit "1", lit "a"); (lit "1", lit "1", lit "2", lit "b")]))
  /\ run int_of_str
       [(lit "1", lit "1", lit "1", lit "a"); (lit "1", lit "1", lit "2", lit "b")]
       None None
     = Some (Raise IntegrityError).
Proof.
  assert (H1 : [(lit "1", lit "1", lit "1", lit "a");
                (lit "1", lit "1", lit "2", lit "b")] <> []) by discriminate.
  assert (H2 : ~ NoDup (map ayat_id (omap (store_verse int_of_str)
        [(lit "1", lit "1", lit "1", lit "a"); (lit "1", lit "1", lit "2", lit "b")]))).
  { intros Hnd. apply NoDup_cons in Hnd as [Hnd _]. apply Hnd. left. }
  split; [exact H1|]. split; [exact H2|].
  apply (proj1 (proj2 (proj2 (proj2 (run_outcome int_of_str _ None None)))) H1 H2).
  repeat constructor.
Defined.

End Runs.

(** * Further properties of the tafsir transfer *)

Section Shrinking.
Import PyStr Tafsir Normal Content.

Lemma drop_cons_length {A : Type} k (s : list A) d rest :
  drop k s = d :: rest -> (k + 1 + length rest = length s)%nat.
Proof.
  intros H. pose proof (length_drop s k) as Hl. rewrite H in Hl. cbn [length] in Hl.
  destruct (decide (k < length s)%nat); [lia|].
  rewrite drop_ge in H by lia. discriminate.
Qed.

Lemma m_br_bound c s n : m_br (c :: s) = Some n -> (4 <= n <= S (length s))%nat.
Proof.
  destruct s as [|c1 [|c2 s1]]; try discriminate. cbn [m_br].
  destruct (is_lt c && is_b c1 && is_r c2); [|discriminate].
  destruct (drop (run isspace s1) s1) as [|d0 rest] eqn:Hd; [discriminate|].
  apply drop_cons_length in Hd.
  destruct (is_gt d0); [intros [= <-]; cbn [length]; lia|].
  destruct (is_slash d0); [|discriminate].
  destruct rest as [|d1 rest]; [discriminate|].
  destruct (is_gt d1); [|discriminate]. intros [= <-]. cbn [length] in *. lia.
Qed.

Lemma m_tag_bound c s n : m_tag (c :: s) = Some n -> (3 <= n <= S (length s))%nat.
Proof.
  cbn [m_tag]. destruct (is_lt c); [|discriminate].
  destruct (run not_gt s) as [|k] eqn:Hk; [discriminate|].
  destruct (drop (S k) s) as [|g rest] eqn:Hd; [discriminate|].
  apply drop_cons_length in Hd. intros [= <-]. lia.
Qed.

Lemma m_blank_bound c s n : m_blank (c :: s) = Some n -> (2 <= n <= S (length s))%nat.
Proof.
  intros Hm. apply m_blank_some in Hm as (j & -> & _ & Hj).
  apply after_last_nl_bound in Hj. rewrite length_take in Hj. lia.
Qed.

Lemma m_hspace_bound c s n : m_hspace (c :: s) = Some n -> (1 <= n <= S (length s))%nat.
Proof.
  unfold m_hspace. pose proof (run_bound is_hspace (c :: s)) as Hb.
  destruct (run is_hspace (c :: s)); [discriminate|].
  intros [= <-]. cbn [length] in Hb. lia.
Qed.

(** A substitution whose replacement is no longer than a match does not
    lengthen the text. *)
Lemma re_sub_length m r :
  (forall c s n, m (c :: s) = Some n -> (length r <= n <= S (length s))%nat) ->
  forall s, (length (re_sub m r s) <= length s)%nat.
Proof.
  intros Hm.
  apply (re_sub_rel m r (fun s t => (length t <= length s)%nat)).
  - reflexivity.
  - intros c s t _ H. cbn [length]. lia.
  - intros c s n t Hmatch H. apply Hm in Hmatch.
    rewrite length_app. rewrite length_drop in H. cbn [length]. lia.
Qed.

Lemma strip_length s : (length (strip s) <= length s)%nat.
Proof.
  destruct (strip_split s) as (w & w' & H).
  rewrite H at 2. rewrite !length_app. lia.
Qed.

(** X11. Cleaning never lengthens a text. *)
Theorem clean_text_length raw : (length (clean_text raw) <= length raw)%nat.
Proof.
  unfold clean_text. destruct (truthy raw); [|cbn; lia].
  etransitivity; [apply strip_length|].
  etransitivity; [apply (re_sub_length m_hspace [32%N])|].
  { intros c s n H. apply m_hspace_bound in H. cbn [length]. lia. }
  etransitivity; [apply (re_sub_length m_blank [10%N; 10%N])|].
  { intros c s n H. apply m_blank_bound in H. cbn [length]. lia. }
  etransitivity; [apply (re_sub_length m_tag [])|].
  { intros c s n H. apply m_tag_bound in H. cbn [length]. lia. }
  apply (re_sub_length m_br [10%N]).
  intros c s n H. apply m_br_bound in H. cbn [length]. lia.
Qed.

End Shrinking.

Section Visible.
Import PyStr Tafsir Normal Content.

Lemma visible_app a b : visible (a ++ b) = visible a ++ visible b.
Proof. unfold visible. apply List.filter_app. Qed.

Lemma visible_space w : forallb isspace w = true -> visible w = [].
Proof.
  unfold visible. induction w as [|c w IH]; [reflexivity|].
  cbn [forallb List.filter]. intros [Hc Hw]%andb_prop. rewrite Hc. cbn [negb].
  apply IH, Hw.
Qed.

Lemma visible_sublist a b : a `sublist_of` b -> visible a `sublist_of` visible b.
Proof.
  unfold visible. induction 1 as [|c a b Hab IH|c a b Hab IH]; cbn [List.filter].
  - constructor.
  - destruct (negb (isspace c)); [constructor|]; exact IH.
  - destruct (negb (isspace c)); [constructor|]; exact IH.
Qed.

Lemma visible_strip s : visible (strip s) = visible s.
Proof.
  destruct (lstrip_split s) as (w & Hw & Hall).
  destruct (rstrip_split (lstrip s)) as (w' & Hw' & Hall').
  symmetry. transitivity (visible (w ++ lstrip s)); [f_equal; exact Hw|].
  rewrite visible_app, (visible_space w Hall). cbn [app].
  transitivity (visible (rstrip (lstrip s) ++ w')); [f_equal; exact Hw'|].
  rewrite visible_app, (visible_space w' Hall'), app_nil_r. reflexivity.
Qed.

(** A substitution that writes whitespace takes visible characters away
    and brings none in. *)
Lemma re_sub_visible m r :
  forallb isspace r = true ->
  forall s, visible (re_sub m r s) `sublist_of` visible s.
Proof.
  intros Hr.
  apply (re_sub_rel m r (fun s t => visible t `sublist_of` visible s)).
  - reflexivity.
  - intros c s t _ H. unfold visible in *. cbn [List.filter].
    destruct (negb (isspace c)); [constructor|]; exact H.
  - intros c s n t _ H. rewrite visible_app, (visible_space r Hr). cbn [app].
    etransitivity; [exact H|]. apply visible_sublist.
    etransitivity; [apply sublist_drop|]. apply sublist_cons, reflexivity.
Qed.

(** A substitution that writes whitespace for whitespace keeps the
    visible characters. *)
Lemma re_sub_visible_eq m r :
  forallb isspace r = true ->
  (forall c s n, m (c :: s) = Some (S n) ->
     isspace c = true /\ forallb isspace (take n s) = true) ->
  forall s, visible (re_sub m r s) = visible s.
Proof.
  intros Hr Hm.
  apply (re_sub_rel m r (fun s t => visible t = visible s)).
  - reflexivity.
  - intros c s t _ H. unfold visible in *. cbn [List.filter]. rewrite H. reflexivity.
  - intros c s n t Hmatch H. destruct (Hm c s n Hmatch) as [Hc Hn].
    rewrite visible_app, (visible_space r Hr). cbn [app]. rewrite H.
    transitivity (visible ((c :: take n s) ++ drop n s));
      [|f_equal; cbn [app]; f_equal; apply take_drop].
    rewrite visible_app, (visible_space (c :: take n s)); [reflexivity|].
    cbn [forallb]. rewrite Hc, Hn. reflexivity.
Qed.

Lemma run_take_le p s : forall k,
  (k <= run p s)%nat -> forallb p (take k s) = true.
Proof.
  induction s as [|c s IH]; intros [|k]; try reflexivity.
  cbn [run]. destruct (p c) eqn:Hc; [|lia].
  intros Hk. cbn [take forallb]. rewrite Hc. apply IH. lia.
Qed.

Lemma m_blank_space c s n :
  m_blank (c :: s) = Some (S n) -> isspace c = true /\ forallb isspace (take n s) = true.
Proof.
  intros Hm. apply m_blank_some in Hm as (j & [= <-] & Hc & Hj).
  split; [apply is_nl_isspace, Hc|].
  pose proof (after_last_nl_bound _ _ Hj) as Hb. rewrite length_take in Hb.
  apply run_take_le. lia.
Qed.

Lemma m_hspace_space c s n :
  m_hspace (c :: s) = Some (S n) -> isspace c = true /\ forallb isspace (take n s) = true.
Proof.
  intros Hm. apply m_hspace_some in Hm as (k & [= <-] & Hc & Hall & _).
  split; [apply is_hspace_isspace, Hc|].
  rewrite forallb_forall in Hall |- *. intros x Hx.
  apply is_hspace_isspace, Hall, Hx.
Qed.

(** No match without a character that a match can start with. *)
Lemma re_sub_no_start m r (p : N -> bool) s :
  m [] = None ->
  (forall c t n, m (c :: t) = Some n -> p c = true) ->
  forallb (fun c => negb (p c)) s = true ->
  re_sub m r s = s.
Proof.
  intros Hnil Hm Hs. apply re_sub_fixed. intros i n Hmatch. exfalso.
  apply (forallb_drop _ i) in Hs.
  destruct (drop i s) as [|c t]; [congruence|].
  cbn [forallb] in Hs. apply andb_prop in Hs as [Hc _].
  rewrite (Hm c t _ Hmatch) in Hc. discriminate.
Qed.

Lemma m_br_start c t n : m_br (c :: t) = Some n -> is_lt c = true.
Proof.
  destruct t as [|c1 [|c2 t]]; try discriminate. cbn [m_br].
  destruct (is_lt c); [reflexivity|discriminate].
Qed.

Lemma m_tag_start c t n : m_tag (c :: t) = Some n -> is_lt c = true.
Proof. intros H. apply m_tag_some in H. apply H. Qed.

Lemma m_blank_start c t n : m_blank (c :: t) = Some n -> isspace c = true.
Proof. intros H. apply m_blank_some in H as (_ & _ & Hc & _). apply is_nl_isspace, Hc. Qed.

Lemma m_hspace_start c t n : m_hspace (c :: t) = Some n -> isspace c = true.
Proof.
  intros H. apply m_hspace_some in H as (_ & _ & Hc & _). apply is_hspace_isspace, Hc.
Qed.

(** X12. Cleaning only takes away: the characters of the cleaned text
    that are not whitespace are characters of the raw text, in the order
    they have there. *)
Theorem clean_text_visible raw :
  visible (clean_text raw) `sublist_of` visible raw.
Proof.
  unfold clean_text. destruct (truthy raw); [|apply sublist_nil_l].
  rewrite visible_strip.
  etransitivity; [apply re_sub_visible; reflexivity|].
  etransitivity; [apply re_sub_visible; reflexivity|].
  etransitivity; [apply re_sub_visible; reflexivity|].
  apply re_sub_visible. reflexivity.
Qed.

(** X13. A raw text without any [<] keeps all its visible characters,
    and one that has no whitespace either is stored as it is. *)
Theorem clean_text_plain raw :
  forallb (fun c => negb (is_lt c)) raw = true ->
  visible (clean_text raw) = visible raw
  /\ (forallb (fun c => negb (isspace c)) raw = true -> clean_text raw = raw).
Proof.
  intros Hlt.
  assert (Hbr : re_sub m_br [10%N] raw = raw)
    by (apply (re_sub_no_start _ _ is_lt); [reflexivity|exact m_br_start|exact Hlt]).
  assert (Htag : re_sub m_tag [] raw = raw)
    by (apply (re_sub_no_start _ _ is_lt); [reflexivity|exact m_tag_start|exact Hlt]).
  unfold clean_text. destruct (truthy raw) eqn:Ht;
    [|destruct raw; [split; reflexivity|discriminate]].
  rewrite Hbr, Htag. split.
  - rewrite visible_strip.
    rewrite (re_sub_visible_eq m_hspace [32%N]); [|reflexivity|exact m_hspace_space].
    apply (re_sub_visible_eq m_blank [10%N; 10%N]); [reflexivity|exact m_blank_space].
  - intros Hsp.
    rewrite (re_sub_no_start m_blank _ isspace raw);
      [|reflexivity|exact m_blank_start|exact Hsp].
    rewrite (re_sub_no_start m_hspace _ isspace raw);
      [|reflexivity|exact m_hspace_start|exact Hsp].
    assert (Hv : visible raw = raw).
    { unfold visible. clear -Hsp. induction raw as [|c raw IH]; [reflexivity|].
      cbn [forallb List.filter] in *. apply andb_prop in Hsp as [Hc Hr].
      rewrite Hc, (IH Hr). reflexivity. }
    destruct (lstrip_split raw) as (w & Hw & Hall).
    destruct (rstrip_split (lstrip raw)) as (w' & Hw' & Hall').
    assert (Hvw : visible raw = visible (strip raw)) by (symmetry; apply visible_strip).
    (* the stripped text has the length of its visible part *)
    assert (Hlen : length (strip raw) = length raw).
    { apply Nat.le_antisymm; [apply strip_length|].
      rewrite <- Hv at 1. rewrite Hvw. unfold visible. apply filter_length_le. }
    unfold strip in *. rewrite Hw' in Hw.
    assert (Hz : w = [] /\ w' = []).
    { rewrite Hw in Hlen at 2. rewrite !length_app in Hlen.
      split; apply length_zero_iff_nil; lia. }
    destruct Hz as [-> ->]. rewrite app_nil_r in Hw. cbn [app] in Hw. congruence.
Qed.

Lemma clean_text_plain_witness :
  forallb (fun c => negb (is_lt c)) (lit "a  b > c") = true
  /\ visible (clean_text (lit "a  b > c")) = visible (lit "a  b > c").
Proof.
  split; [reflexivity|].
  apply (proj1 (clean_text_plain (lit "a  b > c") ltac:(reflexivity))).
Defined.

End Visible.

Section LastWins.
Import PyStr Converter Tafsir.

(** A key that no step of the loop writes keeps its entry. *)
Lemma foldl_upsert_untouched {X K V : Type} `{Countable K}
    (step : gmap K V -> X -> gmap K V) (g : X -> option (K * V)) (k : K) :
  (forall m x, step m x = match g x with Some (k', v) => <[k':=v]> m | None => m end) ->
  forall l m,
    (forall y v', y ∈ l -> g y <> Some (k, v')) ->
    foldl step m l !! k = m !! k.
Proof.
  intros Hstep l. induction l as [|x l IH]; intros m Hl; [reflexivity|].
  cbn [foldl]. rewrite IH by (intros y v' Hy; apply Hl; right; exact Hy).
  rewrite Hstep. destruct (g x) as [[k' v]|] eqn:Hg; [|reflexivity].
  apply lookup_insert_ne. intros ->. apply (Hl x v); [left|exact Hg].
Qed.

(** The last step that writes a key decides its entry. *)
Lemma foldl_upsert_last {X K V : Type} `{Countable K}
    (step : gmap K V -> X -> gmap K V) (g : X -> option (K * V)) (k : K) v :
  (forall m x, step m x = match g x with Some (k', v) => <[k':=v]> m | None => m end) ->
  forall l1 x l2 m,
    g x = Some (k, v) ->
    (forall y v', y ∈ l2 -> g y <> Some (k, v')) ->
    foldl step m (l1 ++ x :: l2) !! k = Some v.
Proof.
  intros Hstep l1 x l2 m Hx Hl2. rewrite foldl_app. cbn [foldl].
  rewrite (foldl_upsert_untouched step g k Hstep) by exact Hl2.
  rewrite Hstep, Hx. apply lookup_insert_eq.
Qed.

Lemma transfer_row_step m (row : aq_row) :
  (transfer_row (m, 0) row).1
  = match (let '(sura, aya, col) := row in
           if truthy (clean_text (raw_text col))
           then Some ((sura, aya), clean_text (raw_text col)) else None)
    with
    | Some (k', v) => <[k':=v]> m
    | None => m
    end.
Proof.
  destruct row as [[sura aya] col]. unfold transfer_row.
  destruct (truthy (clean_text (raw_text col))); reflexivity.
Qed.

Lemma truthy_nil s : truthy s = false <-> s = [].
Proof. destruct s; split; congruence || reflexivity || discriminate. Qed.





End LastWins.

(** * Further properties of the position sources *)

Section Ayahs.
Import PyStr Converter Positions.
Variable random_rowid : gmap Z ayah_row -> option Z.

(** What a step of the ayahs loop that does not raise has done: passed
    over a record without one of the three keys, or stored a record whose
    [sura_id] and [text] are not [null], under its [aya_id] or, when this
    is [null], under a new row id. *)
Lemma dm_insert_ayah_ok e m i s m' i' s' :
  dm_insert_ayah random_rowid (m, i, s) e = Ok (m', i', s') ->
  (has (k_aya_id e) && has (k_sura_id e) && has (k_text e) = false
   /\ m' = m /\ i' = i /\ s' = s + 1)
  \/ (has (k_aya_id e) && has (k_sura_id e) && has (k_text e) = true
      /\ i' = i + 1 /\ s' = s
      /\ exists rowid sv tv,
           k_sura_id e = Val sv /\ k_text e = Val tv
           /\ match k_aya_id e with
              | Val a => rowid = a
              | Null => new_rowid random_rowid m = Ok rowid
              | Absent => False
              end
           /\ m' = <[rowid := AyahRow sv (get_default (k_type e) 0) tv (get (k_id e))]> m).
Proof.
  destruct e as [fa fs fty ft fi]. unfold dm_insert_ayah.
  cbn [k_aya_id k_sura_id k_type k_text k_id].
  destruct (has fa) eqn:Ha; cbn [negb orb andb];
    [|intros [= <- <- <-]; left; auto].
  destruct (has fs) eqn:Hs; cbn [negb orb andb];
    [|intros [= <- <- <-]; left; auto].
  destruct (has ft) eqn:Ht; cbn [negb];
    [|intros [= <- <- <-]; left; auto].
  destruct (bind_ayah _ _ _ _ _); cbn [bind]; [|discriminate].
  destruct (match get fa with Some a => Ok a | None => new_rowid random_rowid m end)
    as [rowid|] eqn:Hid; cbn [bind]; [|discriminate].
  unfold put_ayah. destruct fs as [| |sv]; cbn [get]; try discriminate.
  destruct ft as [| |tv]; cbn [get bind]; try discriminate.
  intros [= <- <- <-]. right. split; [reflexivity|]. split; [reflexivity|].
  split; [reflexivity|]. exists rowid, sv, tv. split; [reflexivity|].
  split; [reflexivity|]. split; [|reflexivity].
  destruct fa as [| |av]; cbn [get has] in *; [discriminate|exact Hid|].
  injection Hid as <-. reflexivity.
Qed.

Lemma dm_insert_ayahs_from_counts data : forall m i s m' i' s',
  for_each (dm_insert_ayah random_rowid) (m, i, s) data = Ok (m', i', s') ->
  i' = i + Z.of_nat (length (List.filter
         (fun e => has (k_aya_id e) && has (k_sura_id e) && has (k_text e)) data))
  /\ i' + s' = i + s + Z.of_nat (length data)
  /\ Z.of_nat (size m') <= Z.of_nat (size m) + (i' - i).
Proof.
  induction data as [|e data IH]; intros m i s m' i' s' Hrun.
  - cbn [for_each] in Hrun. injection Hrun as <- <- <-. cbn [List.filter length]. lia.
  - cbn [for_each] in Hrun.
    destruct (dm_insert_ayah random_rowid (m, i, s) e) as [[[m1 i1] s1]|err] eqn:Hstep;
      [|discriminate].
    cbn [bind] in Hrun. apply IH in Hrun as (Hi & Hsum & Hsize).
    apply dm_insert_ayah_ok in Hstep
      as [(Hc & -> & -> & ->)|(Hc & -> & -> & rowid & sv & tv & _ & _ & _ & ->)];
      cbn [List.filter length]; rewrite Hc.
    + cbn [length]. lia.
    + cbn [length]. split; [lia|]. split; [lia|].
      destruct (m !! rowid) as [old|] eqn:Hold.
      * rewrite map_size_insert_Some in Hsize by eauto. lia.
      * rewrite map_size_insert_None in Hsize by exact Hold. lia.
Qed.

(** A row stays as it is while no stored record has its key. *)
Lemma dm_insert_ayahs_keeps a data :
  (forall t k, random_rowid t = Some k -> t !! k = None) ->
  (forall e', e' ∈ data -> k_aya_id e' = Val a ->
     has (k_sura_id e') && has (k_text e') = false) ->
  forall m i s m' i' s',
    for_each (dm_insert_ayah random_rowid) (m, i, s) data = Ok (m', i', s') ->
    is_Some (m !! a) -> m' !! a = m !! a.
Proof.
  intros Hfresh. induction data as [|e data IH]; intros Hafter m i s m' i' s' Hrun Hin.
  - cbn [for_each] in Hrun. injection Hrun as <- <- <-. reflexivity.
  - cbn [for_each] in Hrun.
    destruct (dm_insert_ayah random_rowid (m, i, s) e) as [[[m1 i1] s1]|err] eqn:Hstep;
      [|discriminate].
    cbn [bind] in Hrun.
    assert (Hm1 : m1 !! a = m !! a).
    { apply dm_insert_ayah_ok in Hstep
        as [(_ & -> & _)|(Hc & _ & _ & rowid & sv & tv & _ & _ & Hid & ->)];
        [reflexivity|].
      apply lookup_insert_ne. intros ->.
      destruct (k_aya_id e) as [| |a'] eqn:Hk; [contradiction| |].
      - apply (new_rowid_fresh random_rowid) in Hid; [|exact Hfresh].
        rewrite Hid in Hin. destruct Hin as [? ?]. discriminate.
      - subst a'. specialize (Hafter e ltac:(left) Hk).
        cbn [has andb] in Hc. congruence. }
    rewrite <- Hm1.
    apply (IH (fun y Hy => Hafter y (list_elem_of_further _ _ _ Hy)) _ _ _ _ _ _ Hrun).
    rewrite Hm1. exact Hin.
Qed.

(** X16. When the ayahs loop of database_manage.py ends without an
    error, its two counters add up to the number of records read;
    [inserted] counts the records that have the keys [aya_id], [sura_id]
    and [text], and the table has grown by at most that many rows. Of the
    records with these keys and one [aya_id] that is not [null], the last
    one in the data is the one stored. *)
Theorem dm_insert_ayahs_counts ayahs data table inserted skipped :
  dm_insert_ayahs random_rowid ayahs data = Ok (table, inserted, skipped) ->
  inserted + skipped = Z.of_nat (length data)
  /\ inserted
     = Z.of_nat (length (List.filter
         (fun e => has (k_aya_id e) && has (k_sura_id e) && has (k_text e)) data))
  /\ Z.of_nat (size table) <= Z.of_nat (size ayahs) + inserted
  /\ ((forall t k, random_rowid t = Some k -> t !! k = None) ->
      forall before e after a s t,
        data = before ++ e :: after ->
        k_aya_id e = Val a -> k_sura_id e = Val s -> k_text e = Val t ->
        (forall e', e' ∈ after -> k_aya_id e' = Val a ->
           has (k_sura_id e') && has (k_text e') = false) ->
        table !! a = Some (AyahRow s (get_default (k_type e) 0) t (get (k_id e)))).
Proof.
  unfold dm_insert_ayahs. intros Hrun.
  pose proof (dm_insert_ayahs_from_counts _ _ _ _ _ _ _ Hrun) as (Hi & Hsum & Hsize).
  split; [lia|]. split; [lia|]. split; [lia|].
  intros Hfresh before e after a s t -> Ha Hs Ht Hafter.
  rewrite for_each_app in Hrun.
  destruct (for_each _ (ayahs, 0, 0) before) as [[[m1 i1] s1]|err]; [|discriminate].
  cbn [bind for_each] in Hrun.
  destruct (dm_insert_ayah random_rowid (m1, i1, s1) e) as [[[m2 i2] s2]|err] eqn:Hstep;
    [|discriminate].
  cbn [bind] in Hrun.
  apply dm_insert_ayah_ok in Hstep
    as [(Hc & _)|(_ & _ & _ & rowid & sv & tv & Hsv & Htv & Hid & ->)].
  { rewrite Ha, Hs, Ht in Hc. discriminate. }
  rewrite Ha in Hid. subst rowid. rewrite Hs in Hsv. rewrite Ht in Htv.
  injection Hsv as <-. injection Htv as <-.
  rewrite (dm_insert_ayahs_keeps a after Hfresh Hafter _ _ _ _ _ _ Hrun)
    by (rewrite lookup_insert_eq; eauto).
  apply lookup_insert_eq.
Qed.

(** Under the conditions of the agreement, a step of the one loop is a
    step of the other. *)
Lemma ayah_steps_agree e m i s :
  (has (k_aya_id e) && has (k_sura_id e) && has (k_text e) = true ->
   exists a sv t,
     k_aya_id e = Val a /\ k_sura_id e = Val sv /\ k_text e = Val t
     /\ a <> 0 /\ sv <> 0 /\ t <> []
     /\ in_int64 a = true /\ in_int64 sv = true
     /\ int_ok (get_default (k_type e) 0) = true
     /\ encodable t = true /\ int_ok (get (k_id e)) = true) ->
  exists m' i' s',
    dm_insert_ayah random_rowid (m, i, s) e = Ok (m', i', s')
    /\ mrg_insert_ayah m e = Ok m'.
Proof.
  intros Hdata. destruct e as [fa fs fty ft fi].
  cbn [k_aya_id k_sura_id k_type k_text k_id] in Hdata.
  unfold dm_insert_ayah, mrg_insert_ayah, e_aya_id, e_sura_id.
  cbn [k_aya_id k_sura_id k_type k_text k_id].
  destruct (has fa && has fs && has ft) eqn:Hc.
  - destruct (Hdata eq_refl)
      as (a & sv & t & -> & -> & -> & Ha & Hs & Ht & Hia & His & Hity & Het & Hii).
    cbn [has get get_default negb orb andb truthy_int].
    destruct (Z.eqb_spec a 0); [congruence|]. destruct (Z.eqb_spec sv 0); [congruence|].
    destruct t as [|c t]; [congruence|]. cbn [truthy negb andb].
    unfold bind_ayah. cbn [int_ok text_ok]. rewrite Hia, His, Hity, Het, Hii.
    cbn [andb negb bind put_ayah]. eexists _, _, _. split; reflexivity.
  - exists m, i, (s + 1).
    assert (Hdm : (if negb (has fa) || negb (has fs) then Ok (m, i, s + 1)
                   else if negb (has ft) then Ok (m, i, s + 1)
                   else @Raise (gmap Z ayah_row * Z * Z) KeyError)
                  = Ok (m, i, s + 1)).
    { destruct (has fa), (has fs), (has ft); try reflexivity. discriminate Hc. }
    split.
    + destruct (has fa), (has fs), (has ft); try reflexivity. discriminate Hc.
    + destruct fa as [| |a]; cbn [get]; try reflexivity.
      destruct fs as [| |sv]; cbn [get]; try reflexivity.
      destruct ft as [| |t]; cbn [get_default]; try reflexivity; [|discriminate Hc].
      cbn [truthy]. rewrite andb_false_r. reflexivity.
Qed.

(** X17. The ayahs loops of the two scripts both succeed and store the
    same table when every record that has the three keys has values that
    are not [null], an id and a sura other than 0, a text that is not
    empty, and nothing that cannot be bound. A record with the three keys
    and a [null], a 0 or an empty text is where they part:
    mrg_with_base_db.py, whose test is on the truth of the values, passes
    it over, and database_manage.py, whose test is on the presence of the
    keys, hands it to the insert. *)
Theorem ayahs_loops_agree ayahs data :
  (forall e, e ∈ data ->
     has (k_aya_id e) && has (k_sura_id e) && has (k_text e) = true ->
     exists a sv t,
       k_aya_id e = Val a /\ k_sura_id e = Val sv /\ k_text e = Val t
       /\ a <> 0 /\ sv <> 0 /\ t <> []
       /\ in_int64 a = true /\ in_int64 sv = true
       /\ int_ok (get_default (k_type e) 0) = true
       /\ encodable t = true /\ int_ok (get (k_id e)) = true) ->
  exists table inserted skipped,
    dm_insert_ayahs random_rowid ayahs data = Ok (table, inserted, skipped)
    /\ mrg_insert_ayahs ayahs data = Ok table.
Proof.
  unfold dm_insert_ayahs, mrg_insert_ayahs.
  intros Hdata.
  enough (H : forall m i s,
            exists table inserted skipped,
              for_each (dm_insert_ayah random_rowid) (m, i, s) data
              = Ok (table, inserted, skipped)
              /\ for_each mrg_insert_ayah m data = Ok table) by apply H.
  induction data as [|e data IH]; intros m i s.
  - exists m, i, s. split; reflexivity.
  - destruct (ayah_steps_agree e m i s (Hdata e ltac:(left)))
      as (m' & i' & s' & Hdm & Hmrg).
    destruct (IH (fun y Hy => Hdata y (list_elem_of_further _ _ _ Hy)) m' i' s')
      as (table & inserted & skipped & Hrun1 & Hrun2).
    exists table, inserted, skipped. cbn [for_each]. rewrite Hdm, Hmrg. cbn [bind].
    split; assumption.
Qed.

End Ayahs.

Section AyahsExamples.
Import PyStr Converter Positions.

Lemma dm_insert_ayahs_counts_witness :
  dm_insert_ayahs (fun _ => None) ∅
    [AyahEntry (Val 7) (Val 1) Absent (Val (lit "a")) Absent;
     AyahEntry (Val 7) (Val 1) (Val 2) (Val (lit "b")) (Val 9);
     AyahEntry (Val 7) Absent Absent (Val (lit "c")) Absent;
     AyahEntry Null (Val 1) Null (Val (lit "d")) Absent]
  = Ok (<[8 := AyahRow 1 None (lit "d") None]>
          {[7 := AyahRow 1 (Some 2) (lit "b") (Some 9)]}, 3, 1)
  /\ 3 + 1 = Z.of_nat 4
  /\ (<[8 := AyahRow 1 None (lit "d") None]>
        ({[7 := AyahRow 1 (Some 2) (lit "b") (Some 9)]} : gmap Z ayah_row)) !! 7
     = Some (AyahRow 1 (Some 2) (lit "b") (Some 9)).
Proof.
  assert (Hrun : dm_insert_ayahs (fun _ => None) ∅
            [AyahEntry (Val 7) (Val 1) Absent (Val (lit "a")) Absent;
             AyahEntry (Val 7) (Val 1) (Val 2) (Val (lit "b")) (Val 9);
             AyahEntry (Val 7) Absent Absent (Val (lit "c")) Absent;
             AyahEntry Null (Val 1) Null (Val (lit "d")) Absent]
          = Ok (<[8 := AyahRow 1 None (lit "d") None]>
                  {[7 := AyahRow 1 (Some 2) (lit "b") (Some 9)]}, 3, 1))
    by (vm_compute; reflexivity).
  destruct (dm_insert_ayahs_counts (fun _ => None) _ _ _ _ _ Hrun)
    as (Hsum & _ & _ & Hlast).
  split; [exact Hrun|]. split; [exact Hsum|].
  apply (Hlast ltac:(intros t k H; discriminate H)
           [AyahEntry (Val 7) (Val 1) Absent (Val (lit "a")) Absent]
           (AyahEntry (Val 7) (Val 1) (Val 2) (Val (lit "b")) (Val 9))
           [AyahEntry (Val 7) Absent Absent (Val (lit "c")) Absent;
            AyahEntry Null (Val 1) Null (Val (lit "d")) Absent]
           7 1 (lit "b") eq_refl eq_refl eq_refl eq_refl).
  intros e' He' Hk. apply elem_of_cons in He' as [->|He']; [reflexivity|].
  apply list_elem_of_singleton in He'. subst e'. discriminate Hk.
Defined.

Lemma ayahs_loops_agree_witness :
  exists table inserted skipped,
    dm_insert_ayahs (fun _ => None) ∅
      [AyahEntry (Val 7) (Val 1) Absent (Val (lit "a")) Absent;
       AyahEntry Absent (Val 1) Absent (Val (lit "b")) Absent]
    = Ok (table, inserted, skipped)
    /\ mrg_insert_ayahs ∅
         [AyahEntry (Val 7) (Val 1) Absent (Val (lit "a")) Absent;
          AyahEntry Absent (Val 1) Absent (Val (lit "b")) Absent]
       = Ok table.
Proof.
  apply ayahs_loops_agree. intros e He Hc.
  apply elem_of_cons in He as [->|He].
  - exists 7, 1, (lit "a"). repeat split; discriminate.
  - apply list_elem_of_singleton in He. subst e. discriminate Hc.
Defined.

(** Where the two ayahs loops part: a record whose [aya_id] is [null]
    is stored by database_manage.py, under a new row id, and passed over
    by mrg_with_base_db.py; one whose [sura_id] is [null] stops
    database_manage.py. *)
Lemma ayahs_loops_part_examples :
  dm_insert_ayahs (fun _ => None) ∅
    [AyahEntry Null (Val 1) Absent (Val (lit "a")) Absent]
  = Ok ({[1 := AyahRow 1 (Some 0) (lit "a") None]}, 1, 0)
  /\ mrg_insert_ayahs ∅ [AyahEntry Null (Val 1) Absent (Val (lit "a")) Absent] = Ok ∅
  /\ dm_insert_ayahs (fun _ => None) ∅
       [AyahEntry (Val 1) Null Absent (Val (lit "a")) Absent]
     = Raise IntegrityError
  /\ mrg_insert_ayahs ∅ [AyahEntry (Val 1) Null Absent (Val (lit "a")) Absent] = Ok ∅
  /\ dm_insert_ayahs (fun _ => None) ∅
       [AyahEntry (Val 9223372036854775808) (Val 1) Absent (Val (lit "a")) Absent]
     = Raise OverflowError
  /\ mrg_insert_ayahs ∅
       [AyahEntry (Val 9223372036854775808) (Val 1) Absent (Val (lit "a")) Absent]
     = Raise OverflowError.
Proof. repeat split; vm_compute; reflexivity. Qed.

End AyahsExamples.

Section PageIds.
Import PyStr Converter Positions.
Context {J : Type} (json_dumps : J -> str).

Lemma mrg_insert_pages_added pages : forall t,
  exists added,
    rows (mrg_insert_pages json_dumps t pages) = rows t ++ added
    /\ added.*1 = seqZ (seq t + 1) (Z.of_nat (length added))
    /\ seq (mrg_insert_pages json_dumps t pages) = seq t + Z.of_nat (length added)
    /\ added.*2
       = omap (fun p =>
                 match p_aya_id p, p_sura_id p with
                 | Some a, Some s =>
                     if truthy_int (p_aya_id p) && truthy_int (p_sura_id p)
                     then Some (PageRow s a (segs_json json_dumps p)) else None
                 | _, _ => None
                 end) pages.
Proof.
  induction pages as [|p pages IH]; intros t.
  - exists []. cbn. rewrite app_nil_r. repeat split; lia.
  - unfold mrg_insert_pages in *. cbn [foldl omap list_omap].
    destruct (IH (mrg_insert_page json_dumps t p)) as (added & Hrows & Hids & Hseq & Hrow).
    unfold mrg_insert_page in *.
    destruct (p_aya_id p) as [a|]; [|exists added; auto].
    destruct (p_sura_id p) as [s|]; [|exists added; auto].
    destruct (truthy_int (Some a) && truthy_int (Some s)); [|exists added; auto].
    cbn [rows seq] in *.
    exists ((seq t + 1, PageRow s a (segs_json json_dumps p)) :: added).
    split; [rewrite Hrows, <- app_assoc; reflexivity|].
    split; [|split; [cbn [length]; lia|cbn [fmap list_fmap snd]; f_equal; exact Hrow]].
    cbn [fmap list_fmap fst length].
    rewrite (seqZ_cons (seq t + 1)) by lia. f_equal.
    change (list_fmap _ _ fst added) with (added.*1). rewrite Hids. f_equal; lia.
Qed.


Lemma dm_insert_pages_dom data : forall pages idx,
  (forall e, e ∈ data ->
     exists sv a,
       pk_sura_id e = Val sv /\ pk_aya_id e = Val a
       /\ in_int64 sv = true /\ in_int64 a = true
       /\ encodable (segs_json json_dumps e) = true) ->
  -9223372036854775808 <= idx ->
  idx + Z.of_nat (length data) <= 9223372036854775808 ->
  (forall k, idx <= k -> pages !! k = None) ->
  exists table,
    dm_insert_pages json_dumps pages idx data = Ok table
    /\ size table = (size pages + length data)%nat
    /\ forall k, is_Some (table !! k)
         <-> is_Some (pages !! k) \/ idx <= k < idx + Z.of_nat (length data).
Proof.
  induction data as [|e data IH]; intros pages idx Hkeys Hlo Hhi Hfree.
  - exists pages. cbn [dm_insert_pages length]. split; [reflexivity|].
    split; [lia|]. intros k. split; [auto|]. intros [H|H]; [exact H|lia].
  - cbn [dm_insert_pages]. cbn [length] in Hhi.
    destruct (Hkeys e ltac:(left)) as (sv & a & Hs & Ha & Hsv & Hav & Henc).
    unfold p_sura_id, p_aya_id. rewrite Hs, Ha, Henc.
    cbn [has get andb int_ok]. rewrite Hsv, Hav.
    rewrite (proj2 (in_int64_spec idx)) by lia. cbn [andb negb].
    destruct (IH (<[idx := PageRow sv a (segs_json json_dumps e)]> pages) (idx + 1))
      as (table & Hrun & Hsize & Hdom).
    { intros e' He'. apply Hkeys. right. exact He'. }
    { lia. }
    { lia. }
    { intros k Hk. rewrite lookup_insert_ne by lia. apply Hfree. lia. }
    exists table. split; [exact Hrun|]. split.
    + rewrite Hsize, map_size_insert_None by (apply Hfree; lia). cbn [length]. lia.
    + intros k. rewrite Hdom. cbn [length].
      destruct (decide (idx = k)) as [<-|Hne].
      * rewrite lookup_insert_eq. split; [intros _; right; lia|intros _; left; eauto].
      * rewrite lookup_insert_ne by exact Hne. split; intros [H|H]; auto; right; lia.
Qed.

End PageIds.

Section PageKeys.
Import PyStr Converter Positions.

(** X19. From an empty table the pages loop of database_manage.py
    succeeds when every page record has [sura_id] and [aya_id] with
    integers that can be bound, not [null], and a [segs] text that can be
    encoded; then the table has one row for each record, under the page
    ids from 1 to the number of records. A record that has both keys and
    [null] for one of them, and nothing that cannot be bound, stops the
    loop on the [NOT NULL] constraint. *)
Theorem dm_pages_succeeds {J : Type} (json_dumps : J -> str) data :
  ((forall e, e ∈ data ->
      exists sv a,
        pk_sura_id e = Val sv /\ pk_aya_id e = Val a
        /\ in_int64 sv = true /\ in_int64 a = true
        /\ encodable (segs_json json_dumps e) = true) ->
   Z.of_nat (length data) <= 9223372036854775807 ->
   exists table,
     dm_pages json_dumps ∅ data = Ok table
     /\ size table = length data
     /\ forall k, is_Some (table !! k) <-> 1 <= k <= Z.of_nat (length data))
  /\ (forall before e after table,
        data = before ++ e :: after ->
        dm_pages json_dumps ∅ before = Ok table ->
        has (pk_sura_id e) && has (pk_aya_id e) = true ->
        p_sura_id e = None \/ p_aya_id e = None ->
        int_ok (p_sura_id e) && int_ok (p_aya_id e) = true ->
        encodable (segs_json json_dumps e) = true ->
        Z.of_nat (length before) < 9223372036854775807 ->
        dm_pages json_dumps ∅ data = Raise IntegrityError).
Proof.
  split.
  - intros Hkeys Hlen.
    destruct (dm_insert_pages_dom json_dumps data ∅ 1 Hkeys)
      as (table & Hrun & Hsize & Hdom); [lia|lia| |].
    { intros k _. apply lookup_empty. }
    exists table. split; [exact Hrun|]. split.
    + rewrite Hsize, map_size_empty. reflexivity.
    + intros k. rewrite Hdom, lookup_empty. split.
      * intros [[x Hx]|H]; [discriminate|lia].
      * intros H. right. lia.
  - intros before e after table -> Hrun Hhas Hnull Hint Henc Hlen.
    unfold dm_pages in *. rewrite dm_insert_pages_app, Hrun.
    cbn [bind dm_insert_pages]. rewrite Hhas, Henc.
    apply andb_prop in Hint as [Hs Ha]. rewrite Hs, Ha.
    rewrite (proj2 (in_int64_spec (1 + Z.of_nat (length before)))) by lia.
    cbn [andb negb]. destruct Hnull as [-> | ->]; [reflexivity|].
    destruct (p_sura_id e); reflexivity.
Qed.

Lemma dm_pages_succeeds_witness :
  exists table,
    dm_pages (fun _ : unit => lit "null") ∅
      [PageEntry (Val 1) (Val 1) None; PageEntry (Val 1) (Val 1) None] = Ok table
    /\ size table = 2%nat
    /\ forall k, is_Some (table !! k) <-> 1 <= k <= 2.
Proof.
  apply (proj1 (dm_pages_succeeds (fun _ : unit => lit "null")
           [PageEntry (Val 1) (Val 1) None; PageEntry (Val 1) (Val 1) None])).
  - intros e He. exists 1, 1. apply elem_of_cons in He as [->|He].
    + repeat split; reflexivity.
    + apply list_elem_of_singleton in He. subst e. repeat split; reflexivity.
  - cbn [length]. lia.
Defined.

(** The pages loop of database_manage.py on a [null] and on a number
    that cannot be bound. *)
Lemma dm_pages_examples :
  dm_pages (fun _ : unit => lit "null") ∅ [PageEntry (Val 1) Null None]
  = Raise IntegrityError
  /\ dm_pages (fun _ : unit => lit "null") ∅ [PageEntry Null (Val 1) None]
     = Raise IntegrityError
  /\ dm_pages (fun _ : unit => lit "null") ∅
       [PageEntry (Val 9223372036854775808) Null None]
     = Raise OverflowError
  /\ dm_pages (fun _ : unit => lit "null") ∅ [PageEntry (Val 1) (Val 1) (Some tt)]
     = Ok {[1 := PageRow 1 1 (lit "null")]}.
Proof. repeat split; vm_compute; reflexivity. Qed.


End PageKeys.

(** * Further properties of db_manager.py and extractor.py *)

Section DbManagerRows.
Import PyStr Converter.

Lemma db_juz_loop_range sura aya bs j :
  DbManager.juz_loop sura aya bs = Some j ->
  In j (map (fun '(j, _, _, _, _) => j) bs).
Proof.
  induction bs as [|[[[[j0 s_start] v_start] s_end] v_end] bs IH]; [discriminate|].
  cbn [DbManager.juz_loop map].
  destruct ((sura =? s_start) && (aya >=? v_start)); [intros [= <-]; left; reflexivity|].
  destruct ((sura >? s_start) && (sura <? s_end)); [intros [= <-]; left; reflexivity|].
  destruct ((sura =? s_end) && (aya <=? v_end)); [intros [= <-]; left; reflexivity|].
  intros H. right. apply IH, H.
Qed.

Lemma db_juz_range sura aya : 1 <= DbManager.juz sura aya <= 30.
Proof.
  unfold DbManager.juz.
  destruct (DbManager.juz_loop sura aya DbManager.juz_boundaries) as [j|] eqn:Hj; [|lia].
  apply db_juz_loop_range in Hj.
  rewrite (proj2 juz_boundaries_same) in Hj.
  apply list_elem_of_In, elem_of_seqZ in Hj. lia.
Qed.

(** X20. Whatever the verse, the row that db_manager.py builds has its
    id 1000 above the id of the dump, a part from 1 to 30, a grouping from
    1 to 8 that is 8 exactly for the parts 29 and 30, the prostration flag
    of the pairs that main.py lists, a translation text that is not empty
    and the Arabic text in both text columns. *)
Theorem db_make_row_columns py_int idx sura aya text r :
  DbRows.make_row py_int (idx, sura, aya, text) = DbRows.Done r ->
  py_int idx = Some (ayatId r - 1000)
  /\ py_int sura = Some (surahId r) /\ py_int aya = Some (ayatNumber r)
  /\ 1 <= paraId r <= 30
  /\ 1 <= manzilNo r <= 8
  /\ (manzilNo r = 8 <-> 29 <= paraId r)
  /\ (ayatSajda r = 1 <-> In (surahId r, ayatNumber r) Main.get_sajda_verses)
  /\ (ayatSajda r = 0 <-> ~ In (surahId r, ayatNumber r) Main.get_sajda_verses)
  /\ urduTranslation r <> []
  /\ arabicText r = DbManager.arabic_text text
  /\ withoutAerab r = arabicText r.
Proof.
  unfold DbRows.make_row.
  destruct (py_int sura) as [s|]; [|discriminate].
  destruct (py_int aya) as [a|]; [|discriminate].
  destruct (py_int idx) as [i|]; [|discriminate].
  change DbRows.sajda_verses with Main.get_sajda_verses.
  pose proof (pair_in_In (s, a) Main.get_sajda_verses) as Hin.
  pose proof (db_juz_range s a) as Hj.
  assert (Hm : 1 <= DbManager.manzilNo (DbManager.juz s a) <= 8
               /\ (DbManager.manzilNo (DbManager.juz s a) = 8
                   <-> 29 <= DbManager.juz s a)).
  { unfold DbManager.manzilNo.
    pose proof (Z.div_mod (DbManager.juz s a - 1) 4 ltac:(lia)) as Hd.
    pose proof (Z.mod_pos_bound (DbManager.juz s a - 1) 4 ltac:(lia)) as Hb.
    lia. }
  destruct (Main.pair_in (s, a) Main.get_sajda_verses); intros [= <-];
    cbn [ayatId surahId ayatNumber paraId manzilNo ayatSajda urduTranslation
         arabicText withoutAerab];
    (split; [f_equal; lia|]); do 2 (split; [reflexivity|]);
    (split; [exact Hj|]); (split; [apply Hm|]); (split; [apply Hm|]).
  - split; [split; [intros _; apply Hin; reflexivity|reflexivity]|].
    split; [split; [discriminate|intros Hn; exfalso; apply Hn, Hin; reflexivity]|].
    split; [discriminate|]. split; reflexivity.
  - split; [split; [discriminate|intros H; apply Hin in H; discriminate]|].
    split; [split; [intros _ H; apply Hin in H; discriminate|reflexivity]|].
    split; [discriminate|]. split; reflexivity.
Qed.

Lemma db_make_row_columns_witness :
  exists r,
    DbRows.make_row int_of_str (lit "5673", lit "78", lit "1", lit "a") = DbRows.Done r
    /\ (manzilNo r = 8 <-> 29 <= paraId r).
Proof.
  eexists. split; [reflexivity|].
  exact (proj1 (proj2 (proj2 (proj2 (proj2 (proj2
           (db_make_row_columns int_of_str (lit "5673") (lit "78") (lit "1") (lit "a")
              _ eq_refl))))))).
Defined.

Lemma db_insert_verses_done py_int verses : forall table n table' n',
  DbRows.insert_verses py_int verses table n = DbRows.Done (table', n') ->
  n' = n + Z.of_nat (length verses)
  /\ size table' = (size table + length verses)%nat
  /\ (forall k r0, table !! k = Some r0 -> table' !! k = Some r0)
  /\ (forall m, m ∈ verses ->
        exists r, DbRows.make_row py_int m = DbRows.Done r
                  /\ forallb in_int64 (row_ints r) = true
                  /\ table' !! ayatId r = Some r).
Proof.
  induction verses as [|m verses IH]; intros table n table' n'.
  - cbn [DbRows.insert_verses length]. intros [= <- <-].
    split; [lia|]. split; [lia|]. split; [auto|]. intros m Hm. inversion Hm.
  - cbn [DbRows.insert_verses].
    destruct (DbRows.make_row py_int m) as [r|e] eqn:Hr; [|discriminate].
    destruct (forallb in_int64 (row_ints r)) eqn:Hb; [|discriminate].
    destruct (table !! ayatId r) eqn:Hfree; [discriminate|].
    intros Hrun. apply IH in Hrun as (Hn & Hsize & Hkeep & Hrows).
    split; [cbn [length]; lia|].
    split; [rewrite Hsize, map_size_insert_None by exact Hfree; cbn [length]; lia|].
    split.
    + intros k r0 Hk. apply Hkeep. rewrite lookup_insert_ne; [exact Hk|].
      intros <-. congruence.
    + intros m' [->|Hm']%elem_of_cons; [|apply Hrows, Hm'].
      exists r. split; [exact Hr|]. split; [exact Hb|]. apply Hkeep, lookup_insert_eq.
Qed.

(** X21. When the verse loop of db_manager.py succeeds, its counter has
    grown by the number of verses and the table by as many rows, one for
    each verse and none of the earlier ones touched. Nothing removes the
    database file, so a second run over the same verses, which finds these
    rows in place, raises at the first verse. *)
Theorem db_insert_verses_once py_int verses table n table' n' :
  DbRows.insert_verses py_int verses table n = DbRows.Done (table', n') ->
  n' = n + Z.of_nat (length verses)
  /\ size table' = (size table + length verses)%nat
  /\ (forall k r0, table !! k = Some r0 -> table' !! k = Some r0)
  /\ (forall m, m ∈ verses ->
        exists r, DbRows.make_row py_int m = DbRows.Done r /\ table' !! ayatId r = Some r)
  /\ (verses <> [] ->
      forall n2, DbRows.insert_verses py_int verses table' n2
                 = DbRows.Failed DbRows.UniqueFailed).
Proof.
  intros Hrun.
  destruct (db_insert_verses_done py_int verses table n table' n' Hrun)
    as (Hn & Hsize & Hkeep & Hrows).
  do 3 (split; [assumption|]).
  split.
  { intros m Hm. destruct (Hrows m Hm) as (r & Hr & _ & Hlook). eauto. }
  intros Hne n2. destruct verses as [|m verses]; [congruence|].
  destruct (Hrows m ltac:(left)) as (r & Hr & Hb & Hlook).
  cbn [DbRows.insert_verses]. rewrite Hr, Hb, Hlook. reflexivity.
Qed.

Lemma db_insert_verses_once_witness :
  exists table',
    DbRows.insert_verses int_of_str [(lit "1", lit "1", lit "1", lit "a")] ∅ 0
    = DbRows.Done (table', 1)
    /\ DbRows.insert_verses int_of_str [(lit "1", lit "1", lit "1", lit "a")] table' 0
       = DbRows.Failed DbRows.UniqueFailed.
Proof.
  eexists. split; [reflexivity|].
  refine (proj2 (proj2 (proj2 (proj2
            (db_insert_verses_once int_of_str [(lit "1", lit "1", lit "1", lit "a")]
               ∅ 0 _ 1 eq_refl)))) _ 0).
  discriminate.
Defined.

End DbManagerRows.

Section ExtractorLoop.
Import PyStr.

Lemma extractor_insert_clash py_int matches : forall table,
  (exists m r, m ∈ matches /\ ExtractorRows.make_row py_int m = DbRows.Done r
               /\ is_Some (table !! ExtractorRows.ayatId r)) ->
  exists e, ExtractorRows.insert_from py_int matches table = DbRows.Failed e.
Proof.
  induction matches as [|m matches IH]; intros table (m' & r' & Hin & Hr' & Hsome).
  - inversion Hin.
  - cbn [ExtractorRows.insert_from].
    destruct (ExtractorRows.make_row py_int m) as [r|e] eqn:Hr; [|eauto].
    destruct (forallb _ (ExtractorRows.row_ints r)); [|eauto].
    destruct (table !! ExtractorRows.ayatId r) eqn:Hfree; [eauto|].
    apply IH. apply elem_of_cons in Hin as [->|Hin].
    + rewrite Hr in Hr'. injection Hr' as <-. rewrite Hfree in Hsome.
      destruct Hsome as [? ?]. discriminate.
    + exists m', r'. split; [exact Hin|]. split; [exact Hr'|].
      destruct (decide (ExtractorRows.ayatId r = ExtractorRows.ayatId r')) as [->|Hne].
      * rewrite lookup_insert_eq. eauto.
      * rewrite lookup_insert_ne by exact Hne. exact Hsome.
Qed.

(** X22. The test converter extractor.py reads the first 100 matches and
    no more: when its loop succeeds the table has one row for each of
    them, 100 rows at most, with the id, ayah and surah that [int] reads
    and the text with its doubled quotes resolved; a match after the
    hundredth changes nothing. *)
Theorem extractor_first_100 py_int matches table :
  ExtractorRows.insert_first_100 py_int matches = DbRows.Done table ->
  size table = Nat.min 100 (length matches)
  /\ (size table <= 100)%nat
  /\ (forall (i : nat) idx sura aya text,
        (i < 100)%nat -> matches !! i = Some (idx, sura, aya, text) ->
        exists n a s,
          py_int idx = Some n /\ py_int aya = Some a /\ py_int sura = Some s
          /\ table !! n
             = Some (ExtractorRows.Row n a (Extractor.arabicText text)
                       (lit "Urdu for " ++ sura ++ lit ":" ++ aya) s 1 0))
  /\ (forall more,
        (100 <= length matches)%nat ->
        ExtractorRows.insert_first_100 py_int (matches ++ more) = DbRows.Done table).
Proof.
  unfold ExtractorRows.insert_first_100. intros Hrun.
  destruct (extractor_insert_done py_int _ _ _ Hrun) as (Hsize & _ & Hrows).
  rewrite map_size_empty, length_take in Hsize. cbn [Nat.add] in Hsize.
  split; [exact Hsize|]. split; [lia|]. split.
  - intros i idx sura aya text Hi Hm.
    destruct (Hrows (idx, sura, aya, text)) as (r & Hr & Hlook).
    { apply list_elem_of_lookup. exists i. rewrite lookup_take_lt by exact Hi. exact Hm. }
    unfold ExtractorRows.make_row in Hr.
    destruct (py_int idx) as [n|]; [|discriminate].
    destruct (py_int aya) as [a|]; [|discriminate].
    destruct (py_int sura) as [s|]; [|discriminate].
    injection Hr as <-. exists n, a, s. repeat split. exact Hlook.
  - intros more Hlen. rewrite take_app_le by exact Hlen. exact Hrun.
Qed.

Lemma extractor_first_100_witness :
  exists table,
    ExtractorRows.insert_first_100 int_of_str
      [(lit "1", lit "1", lit "1", lit "it''s"); (lit "2", lit "1", lit "2", lit "b")]
    = DbRows.Done table
    /\ size table = Nat.min 100 2.
Proof.
  eexists. split; [reflexivity|].
  exact (proj1 (extractor_first_100 int_of_str
           [(lit "1", lit "1", lit "1", lit "it''s"); (lit "2", lit "1", lit "2", lit "b")]
           _ eq_refl)).
Defined.

(** X23. The loop of extractor.py stops with an error when one of the
    first 100 matches has a number that [int] rejects, or when two of
    them have the same id. *)
Theorem extractor_fails py_int matches :
  ((exists m, m ∈ take 100 matches
              /\ ExtractorRows.make_row py_int m = DbRows.Failed DbRows.ValueError)
   \/ (exists (i j : nat) mi mj n,
         (i < j < 100)%nat /\ matches !! i = Some mi /\ matches !! j = Some mj
         /\ py_int mi.1.1.1 = Some n /\ py_int mj.1.1.1 = Some n)) ->
  exists e, ExtractorRows.insert_first_100 py_int matches = DbRows.Failed e.
Proof.
  unfold ExtractorRows.insert_first_100.
  destruct (ExtractorRows.insert_from py_int (take 100 matches) ∅) as [table|e] eqn:Hrun;
    [|eauto].
  intros H. exfalso.
  destruct (extractor_insert_done py_int _ _ _ Hrun) as (Hsize & _ & Hrows).
  destruct H as [(m & Hm & Hfail)|(i & j & mi & mj & n & Hij & Hi & Hj & Hni & Hnj)].
  - destruct (Hrows m Hm) as (r & Hr & _). congruence.
  - (* two matches with one id would be two rows under one key *)
    assert (Hsplit : exists l1 l2 l3, take 100 matches = l1 ++ mi :: l2 ++ mj :: l3).
    { assert (Hti : take 100 matches !! i = Some mi)
        by (rewrite lookup_take_lt by lia; exact Hi).
      assert (Htj : take 100 matches !! j = Some mj)
        by (rewrite lookup_take_lt by lia; exact Hj).
      apply list_elem_of_split_length in Hti as (l1 & rest & Heq & Hl1).
      rewrite Heq in Htj. rewrite lookup_app_r in Htj by lia.
      replace (j - length l1)%nat with (S (j - length l1 - 1)) in Htj by lia.
      cbn in Htj. apply list_elem_of_split_length in Htj as (l2 & l3 & Heq2 & _).
      exists l1, l2, l3. rewrite Heq, Heq2. reflexivity. }
    destruct Hsplit as (l1 & l2 & l3 & Hsplit). rewrite Hsplit in Hrun.
    clear -Hrun Hni Hnj.
    assert (Hgen : forall l t, ExtractorRows.insert_from py_int (l ++ mi :: l2 ++ mj :: l3) t
                               = DbRows.Done table -> False).
    { induction l as [|m l IH]; intros t Ht.
      - cbn [app ExtractorRows.insert_from] in Ht.
        destruct (ExtractorRows.make_row py_int mi) as [ri|] eqn:Hri; [|discriminate].
        destruct (forallb _ (ExtractorRows.row_ints ri)); [|discriminate].
        destruct (t !! ExtractorRows.ayatId ri) eqn:Hfree; [discriminate|].
        destruct (extractor_insert_clash py_int (l2 ++ mj :: l3)
                    (<[ExtractorRows.ayatId ri := ri]> t)) as (e & He);
          [|congruence].
        destruct mi as [[[idxi surai] ayai] texti], mj as [[[idxj suraj] ayaj] textj].
        cbn [fst] in Hni, Hnj. unfold ExtractorRows.make_row in Hri.
        rewrite Hni in Hri.
        destruct (py_int ayai), (py_int surai); try discriminate.
        injection Hri as <-. cbn [ExtractorRows.ayatId].
        destruct (extractor_insert_done py_int _ _ _ Ht) as (_ & _ & Hr).
        destruct (Hr (idxj, suraj, ayaj, textj)) as (rj & Hrj & _).
        { apply elem_of_app. right. left. }
        exists (idxj, suraj, ayaj, textj), rj.
        split; [apply elem_of_app; right; left|]. split; [exact Hrj|].
        unfold ExtractorRows.make_row in Hrj. rewrite Hnj in Hrj.
        destruct (py_int ayaj), (py_int suraj); try discriminate.
        injection Hrj as <-. cbn [ExtractorRows.ayatId].
        rewrite lookup_insert_eq. eauto.
      - cbn [app ExtractorRows.insert_from] in Ht.
        destruct (ExtractorRows.make_row py_int m) as [r|]; [|discriminate].
        destruct (forallb _ (ExtractorRows.row_ints r)); [|discriminate].
        destruct (t !! ExtractorRows.ayatId r); [discriminate|].
        exact (IH _ Ht). }
    exact (Hgen l1 ∅ Hrun).
Qed.

Lemma extractor_fails_witness :
  exists e,
    ExtractorRows.insert_first_100 int_of_str
      [(lit "1", lit "1", lit "1", lit "a"); (lit "x", lit "1", lit "2", lit "b")]
    = DbRows.Failed e.
Proof.
  apply extractor_fails. left.
  exists (lit "x", lit "1", lit "2", lit "b"). split; [|reflexivity].
  right. left.
Defined.

End ExtractorLoop.
